(** * Instagram downloader API: a shallow embedding of [api/index.py]

    The two request handlers of the service ([download_instagram_content]
    for GET and [download_instagram_content_post] for POST) are embedded
    together with the parts of the Python runtime they call: [str]
    operations, the backtracking search of [re], [html.unescape],
    [urllib.parse.quote] and the exception behaviour of [requests].

    Conventions.
    - A Python [str] is a list of Unicode code points ([N]).
    - Exceptions are values of [exn]; code that may raise lives in the
      monad [M], which also records every outbound request.
    - Python integers are unbounded ([N]); [int()] keeps the interpreter's
      default cap of 4300 digits on decimal literals and raises
      [ValueError] beyond it.
    - [JSONResponse(...)] renders its content when it is built, and raises
      [UnicodeEncodeError] when the rendered text cannot be UTF-8. *)

From Stdlib Require Import String Ascii NArith Bool Lia PeanoNat List.
Import ListNotations.

Set Implicit Arguments.
Set Warnings "-register-all".

(* ================================================================== *)
(** ** Python strings *)
(* ================================================================== *)

Module PyStr.

Definition char := N.
Definition str := list char.

(** An ASCII literal of the source, as a list of code points. *)
Definition lit (s : string) : str :=
  List.map N_of_ascii (list_ascii_of_string s).

Definition dquote : char := 34%N.

Fixpoint str_eqb (a b : str) : bool :=
  match a, b with
  | [], [] => true
  | x :: a', y :: b' => N.eqb x y && str_eqb a' b'
  | _, _ => false
  end.

(** [s.startswith(p)], returning what follows the prefix. *)
Fixpoint strip_prefix (p s : str) : option str :=
  match p, s with
  | [], _ => Some s
  | x :: p', y :: s' => if N.eqb x y then strip_prefix p' s' else None
  | _ :: _, [] => None
  end.

Definition startswith (p s : str) : bool :=
  match strip_prefix p s with Some _ => true | None => false end.

(** [sub in s]: [sub] occurs in [s] as a contiguous substring. *)
Fixpoint contains (sub s : str) : bool :=
  startswith sub s ||
  match s with
  | [] => false
  | _ :: s' => contains sub s'
  end.

(** Code points for which [str.isspace] holds; they are what
    [str.strip()] removes when called without argument. *)
Definition isspace (c : char) : bool :=
  ((9 <=? c) && (c <=? 13) || (28 <=? c) && (c <=? 32)
   || (c =? 133) || (c =? 160) || (c =? 5760)
   || (8192 <=? c) && (c <=? 8202)
   || (c =? 8232) || (c =? 8233) || (c =? 8239) || (c =? 8287)
   || (c =? 12288))%N.

Fixpoint dropwhile (p : char -> bool) (s : str) : str :=
  match s with
  | c :: s' => if p c then dropwhile p s' else s
  | [] => []
  end.

Definition lstrip_by (p : char -> bool) (s : str) : str := dropwhile p s.
Definition rstrip_by (p : char -> bool) (s : str) : str :=
  rev (dropwhile p (rev s)).

(** [s.strip()] *)
Definition strip (s : str) : str := rstrip_by isspace (lstrip_by isspace s).

(** [s.rstrip(chars)] *)
Definition rstrip (chars s : str) : str :=
  rstrip_by (fun c => existsb (N.eqb c) chars) s.

(** Truth value of a string: [not s] is [negb (truthy s)]. *)
Definition truthy (s : str) : bool :=
  match s with [] => false | _ :: _ => true end.

End PyStr.

Import PyStr.

(* ================================================================== *)
(** ** Exceptions and results *)
(* ================================================================== *)

Module Exc.

(** The exceptions that can travel through the handlers.  [str(e)] is
    never computed: a message built from it is kept as [Fmt prefix e],
    the f-string [f"{prefix}{str(e)}"]. *)
Inductive exn :=
| HTTPException (status_code : N) (detail : detail)
    (* fastapi.HTTPException *)
| RequestsTimeout (info : str)
    (* requests.exceptions.Timeout and its subclasses *)
| RequestException (info : str)
    (* any other requests.exceptions.RequestException raised while
       connecting, sending or reading *)
| HTTPError (status_code : N)
    (* requests.exceptions.HTTPError, from raise_for_status *)
| UnicodeEncodeError (object : str) (start stop : nat)
| ValueError (literal : str)
| IndexError
| AttributeError (attribute : str)
with detail :=
| Text (s : str)
| Fmt (prefix : str) (e : exn).

(** [isinstance(e, requests.exceptions.Timeout)] *)
Definition is_Timeout (e : exn) : bool :=
  match e with RequestsTimeout _ => true | _ => false end.

(** [isinstance(e, requests.exceptions.RequestException)] *)
Definition is_RequestException (e : exn) : bool :=
  match e with
  | RequestsTimeout _ | RequestException _ | HTTPError _ => true
  | _ => false
  end.

Inductive result (A : Type) :=
| Ok (a : A)
| Raise (e : exn).

Arguments Ok {A} a.
Arguments Raise {A} e.

Definition rbind {A B} (r : result A) (f : A -> result B) : result B :=
  match r with
  | Ok a => f a
  | Raise e => Raise e
  end.

Definition rmap {A B} (f : A -> B) (r : result A) : result B :=
  rbind r (fun a => Ok (f a)).

End Exc.

Import Exc.

(* ================================================================== *)
(** ** The [re] module: backtracking search *)
(* ================================================================== *)

Module Re.

(** A character set [[...]] or [[^...]], as a list of inclusive ranges. *)
Record cset := mkcset { negated : bool; ranges : list (char * char) }.

Definition in_range (c : char) (r : char * char) : bool :=
  (fst r <=? c)%N && (c <=? snd r)%N.

Definition cset_mem (c : char) (k : cset) : bool :=
  xorb (negated k) (existsb (in_range c) (ranges k)).

Definition one (c : char) : char * char := (c, c).
Definition any_of (cs : list char) : cset := mkcset false (List.map one cs).
Definition none_of (cs : list char) : cset := mkcset true (List.map one cs).

(** The fragment of regular expressions the program uses: literal text,
    greedy repetition [k{lo,hi}] of a character set ([hi = None] is
    unbounded, so [k+] is [Rep k 1 None], [k*] is [Rep k 0 None] and [k?]
    is [Rep k 0 (Some 1)]), concatenation, alternation and a capturing
    group. *)
Inductive regex :=
| Lit (s : str)
| Rep (k : cset) (lo : nat) (hi : option nat)
| Cat (r1 r2 : regex)
| Alt (r1 r2 : regex)
| Group (r : regex).

Fixpoint seq (rs : list regex) : regex :=
  match rs with
  | [] => Lit []
  | [r] => r
  | r :: rs' => Cat r (seq rs')
  end.

Definition may_take (hi : option nat) : bool :=
  match hi with Some O => false | _ => true end.

Definition dec_hi (hi : option nat) : option nat :=
  match hi with Some n => Some (Nat.pred n) | None => None end.

(** Greedy repetition with backtracking: take as many characters of the
    set as allowed, and give them back one at a time while the rest of
    the pattern (the continuation [cont]) fails.  [seen] holds the
    characters read since the match started, the latest first. *)
Fixpoint rep_match {A} (k : cset) (lo : nat) (hi : option nat)
    (s seen : str) (cont : str -> str -> option A) : option A :=
  match s with
  | c :: s' =>
      if cset_mem c k && may_take hi then
        match rep_match k (Nat.pred lo) (dec_hi hi) s' (c :: seen) cont with
        | Some a => Some a
        | None => match lo with O => cont s seen | S _ => None end
        end
      else match lo with O => cont s seen | S _ => None end
  | [] => match lo with O => cont s seen | S _ => None end
  end.

(** The matcher, in continuation-passing style: [cont] is the rest of the
    pattern; it receives the unread input, the characters read and the
    groups captured so far.  Alternatives are tried left to right.  A
    group captures what was read between its two parentheses. *)
Fixpoint run {A} (r : regex) (s seen : str) (caps : list str)
    (cont : str -> str -> list str -> option A) : option A :=
  match r with
  | Lit l =>
      match strip_prefix l s with
      | Some s' => cont s' (rev l ++ seen) caps
      | None => None
      end
  | Rep k lo hi => rep_match k lo hi s seen (fun s' seen' => cont s' seen' caps)
  | Cat r1 r2 =>
      run r1 s seen caps (fun s' seen' caps' => run r2 s' seen' caps' cont)
  | Alt r1 r2 =>
      match run r1 s seen caps cont with
      | Some a => Some a
      | None => run r2 s seen caps cont
      end
  | Group r1 =>
      run r1 s seen caps
        (fun s' seen' caps' =>
           cont s' seen'
             (caps' ++ [rev (firstn (length seen' - length seen) seen')]))
  end.

(** A match object: the captured groups, in the order in which they
    close, and the text after the match. *)
Record match_obj := mkmatch { groups : list str; rest : str }.

(** [pattern.match(s)]: a match anchored at the start of [s]. *)
Definition match_at (r : regex) (s : str) : option match_obj :=
  run r s [] [] (fun s' _ caps => Some (mkmatch caps s')).

(** [re.search(pattern, s)]: the match at the leftmost position that has one. *)
Fixpoint search (r : regex) (s : str) : option match_obj :=
  match match_at r s with
  | Some m => Some m
  | None =>
      match s with
      | [] => None
      | _ :: s' => search r s'
      end
  end.

(** [m.group(1)] *)
Definition group1 (m : match_obj) : str := nth 0 (groups m) [].

(** [pattern.sub(repl, s)] for a pattern that never matches the empty
    string: every non-overlapping match, found left to right, is replaced
    by [repl] applied to it, and other characters are copied.  [skip]
    counts the characters of the current match still to be passed over. *)
Fixpoint sub_from (r : regex) (repl : match_obj -> result str)
    (skip : nat) (s : str) : result str :=
  match s with
  | [] => Ok []
  | c :: s' =>
      match skip with
      | S n => sub_from r repl n s'
      | O =>
          match match_at r s with
          | Some m =>
              rbind (repl m) (fun out =>
              rmap (app out)
                (sub_from r repl (length s' - length (rest m)) s'))
          | None => rmap (cons c) (sub_from r repl 0 s')
          end
      end
  end.

Definition sub (r : regex) (repl : match_obj -> result str) (s : str)
  : result str := sub_from r repl 0 s.

(** [n] repetitions respect the upper bound [hi]. *)
Definition within (hi : option nat) (n : nat) : Prop :=
  match hi with Some h => n <= h | None => True end.

(** Declarative reading of a pattern: [Matches r w caps] says that the
    word [w] belongs to the language of [r], capturing [caps]. *)
Fixpoint Matches (r : regex) (w : str) (caps : list str) : Prop :=
  match r with
  | Lit l => w = l /\ caps = []
  | Rep k lo hi =>
      Forall (fun c => cset_mem c k = true) w /\
      lo <= length w /\ within hi (length w) /\ caps = []
  | Cat r1 r2 =>
      exists w1 w2 c1 c2,
        w = w1 ++ w2 /\ caps = c1 ++ c2 /\ Matches r1 w1 c1 /\ Matches r2 w2 c2
  | Alt r1 r2 => Matches r1 w caps \/ Matches r2 w caps
  | Group r1 => exists c1, caps = c1 ++ [w] /\ Matches r1 w c1
  end.

End Re.

(* ================================================================== *)
(** ** [html.unescape] *)
(* ================================================================== *)

Module Html.

Import Re.

Local Open Scope N_scope.

(** [html.entities.html5]: the named character references of HTML 5,
    name to replacement text. *)
Definition html5 : list (string * str) := [
  ("Aacute", [193]); ("aacute", [225]); ("Aacute;", [193]);
  ("aacute;", [225]); ("Abreve;", [258]); ("abreve;", [259]);
  ("ac;", [8766]); ("acd;", [8767]); ("acE;", [8766; 819]); ("Acirc", [194]);
  ("acirc", [226]); ("Acirc;", [194]); ("acirc;", [226]); ("acute", [180]);
  ("acute;", [180]); ("Acy;", [1040]); ("acy;", [1072]); ("AElig", [198]);
  ("aelig", [230]); ("AElig;", [198]); ("aelig;", [230]); ("af;", [8289]);
  ("Afr;", [120068]); ("afr;", [120094]); ("Agrave", [192]);
  ("agrave", [224]); ("Agrave;", [192]); ("agrave;", [224]);
  ("alefsym;", [8501]); ("aleph;", [8501]); ("Alpha;", [913]);
  ("alpha;", [945]); ("Amacr;", [256]); ("amacr;", [257]);
  ("amalg;", [10815]); ("AMP", [38]); ("amp", [38]); ("AMP;", [38]);
  ("amp;", [38]); ("And;", [10835]); ("and;", [8743]); ("andand;", [10837]);
  ("andd;", [10844]); ("andslope;", [10840]); ("andv;", [10842]);
  ("ang;", [8736]); ("ange;", [10660]); ("angle;", [8736]);
  ("angmsd;", [8737]); ("angmsdaa;", [10664]); ("angmsdab;", [10665]);
  ("angmsdac;", [10666]); ("angmsdad;", [10667]); ("angmsdae;", [10668]);
  ("angmsdaf;", [10669]); ("angmsdag;", [10670]); ("angmsdah;", [10671]);
  ("angrt;", [8735]); ("angrtvb;", [8894]); ("angrtvbd;", [10653]);
  ("angsph;", [8738]); ("angst;", [197]); ("angzarr;", [9084]);
  ("Aogon;", [260]); ("aogon;", [261]); ("Aopf;", [120120]);
  ("aopf;", [120146]); ("ap;", [8776]); ("apacir;", [10863]);
  ("apE;", [10864]); ("ape;", [8778]); ("apid;", [8779]); ("apos;", [39]);
  ("ApplyFunction;", [8289]); ("approx;", [8776]); ("approxeq;", [8778]);
  ("Aring", [197]); ("aring", [229]); ("Aring;", [197]); ("aring;", [229]);
  ("Ascr;", [119964]); ("ascr;", [119990]); ("Assign;", [8788]);
  ("ast;", [42]); ("asymp;", [8776]); ("asympeq;", [8781]);
  ("Atilde", [195]); ("atilde", [227]); ("Atilde;", [195]);
  ("atilde;", [227]); ("Auml", [196]); ("auml", [228]); ("Auml;", [196]);
  ("auml;", [228]); ("awconint;", [8755]); ("awint;", [10769]);
  ("backcong;", [8780]); ("backepsilon;", [1014]); ("backprime;", [8245]);
  ("backsim;", [8765]); ("backsimeq;", [8909]); ("Backslash;", [8726]);
  ("Barv;", [10983]); ("barvee;", [8893]); ("Barwed;", [8966]);
  ("barwed;", [8965]); ("barwedge;", [8965]); ("bbrk;", [9141]);
  ("bbrktbrk;", [9142]); ("bcong;", [8780]); ("Bcy;", [1041]);
  ("bcy;", [1073]); ("bdquo;", [8222]); ("becaus;", [8757]);
  ("Because;", [8757]); ("because;", [8757]); ("bemptyv;", [10672]);
  ("bepsi;", [1014]); ("bernou;", [8492]); ("Bernoullis;", [8492]);
  ("Beta;", [914]); ("beta;", [946]); ("beth;", [8502]);
  ("between;", [8812]); ("Bfr;", [120069]); ("bfr;", [120095]);
  ("bigcap;", [8898]); ("bigcirc;", [9711]); ("bigcup;", [8899]);
  ("bigodot;", [10752]); ("bigoplus;", [10753]); ("bigotimes;", [10754]);
  ("bigsqcup;", [10758]); ("bigstar;", [9733]); ("bigtriangledown;", [9661]);
  ("bigtriangleup;", [9651]); ("biguplus;", [10756]); ("bigvee;", [8897]);
  ("bigwedge;", [8896]); ("bkarow;", [10509]); ("blacklozenge;", [10731]);
  ("blacksquare;", [9642]); ("blacktriangle;", [9652]);
  ("blacktriangledown;", [9662]); ("blacktriangleleft;", [9666]);
  ("blacktriangleright;", [9656]); ("blank;", [9251]); ("blk12;", [9618]);
  ("blk14;", [9617]); ("blk34;", [9619]); ("block;", [9608]);
  ("bne;", [61; 8421]); ("bnequiv;", [8801; 8421]); ("bNot;", [10989]);
  ("bnot;", [8976]); ("Bopf;", [120121]); ("bopf;", [120147]);
  ("bot;", [8869]); ("bottom;", [8869]); ("bowtie;", [8904]);
  ("boxbox;", [10697]); ("boxDL;", [9559]); ("boxDl;", [9558]);
  ("boxdL;", [9557]); ("boxdl;", [9488]); ("boxDR;", [9556]);
  ("boxDr;", [9555]); ("boxdR;", [9554]); ("boxdr;", [9484]);
  ("boxH;", [9552]); ("boxh;", [9472]); ("boxHD;", [9574]);
  ("boxHd;", [9572]); ("boxhD;", [9573]); ("boxhd;", [9516]);
  ("boxHU;", [9577]); ("boxHu;", [9575]); ("boxhU;", [9576]);
  ("boxhu;", [9524]); ("boxminus;", [8863]); ("boxplus;", [8862]);
  ("boxtimes;", [8864]); ("boxUL;", [9565]); ("boxUl;", [9564]);
  ("boxuL;", [9563]); ("boxul;", [9496]); ("boxUR;", [9562]);
  ("boxUr;", [9561]); ("boxuR;", [9560]); ("boxur;", [9492]);
  ("boxV;", [9553]); ("boxv;", [9474]); ("boxVH;", [9580]);
  ("boxVh;", [9579]); ("boxvH;", [9578]); ("boxvh;", [9532]);
  ("boxVL;", [9571]); ("boxVl;", [9570]); ("boxvL;", [9569]);
  ("boxvl;", [9508]); ("boxVR;", [9568]); ("boxVr;", [9567]);
  ("boxvR;", [9566]); ("boxvr;", [9500]); ("bprime;", [8245]);
  ("Breve;", [728]); ("breve;", [728]); ("brvbar", [166]);
  ("brvbar;", [166]); ("Bscr;", [8492]); ("bscr;", [119991]);
  ("bsemi;", [8271]); ("bsim;", [8765]); ("bsime;", [8909]); ("bsol;", [92]);
  ("bsolb;", [10693]); ("bsolhsub;", [10184]); ("bull;", [8226]);
  ("bullet;", [8226]); ("bump;", [8782]); ("bumpE;", [10926]);
  ("bumpe;", [8783]); ("Bumpeq;", [8782]); ("bumpeq;", [8783]);
  ("Cacute;", [262]); ("cacute;", [263]); ("Cap;", [8914]); ("cap;", [8745]);
  ("capand;", [10820]); ("capbrcup;", [10825]); ("capcap;", [10827]);
  ("capcup;", [10823]); ("capdot;", [10816]);
  ("CapitalDifferentialD;", [8517]); ("caps;", [8745; 65024]);
  ("caret;", [8257]); ("caron;", [711]); ("Cayleys;", [8493]);
  ("ccaps;", [10829]); ("Ccaron;", [268]); ("ccaron;", [269]);
  ("Ccedil", [199]); ("ccedil", [231]); ("Ccedil;", [199]);
  ("ccedil;", [231]); ("Ccirc;", [264]); ("ccirc;", [265]);
  ("Cconint;", [8752]); ("ccups;", [10828]); ("ccupssm;", [10832]);
  ("Cdot;", [266]); ("cdot;", [267]); ("cedil", [184]); ("cedil;", [184]);
  ("Cedilla;", [184]); ("cemptyv;", [10674]); ("cent", [162]);
  ("cent;", [162]); ("CenterDot;", [183]); ("centerdot;", [183]);
  ("Cfr;", [8493]); ("cfr;", [120096]); ("CHcy;", [1063]); ("chcy;", [1095]);
  ("check;", [10003]); ("checkmark;", [10003]); ("Chi;", [935]);
  ("chi;", [967]); ("cir;", [9675]); ("circ;", [710]); ("circeq;", [8791]);
  ("circlearrowleft;", [8634]); ("circlearrowright;", [8635]);
  ("circledast;", [8859]); ("circledcirc;", [8858]);
  ("circleddash;", [8861]); ("CircleDot;", [8857]); ("circledR;", [174]);
  ("circledS;", [9416]); ("CircleMinus;", [8854]); ("CirclePlus;", [8853]);
  ("CircleTimes;", [8855]); ("cirE;", [10691]); ("cire;", [8791]);
  ("cirfnint;", [10768]); ("cirmid;", [10991]); ("cirscir;", [10690]);
  ("ClockwiseContourIntegral;", [8754]); ("CloseCurlyDoubleQuote;", [8221]);
  ("CloseCurlyQuote;", [8217]); ("clubs;", [9827]); ("clubsuit;", [9827]);
  ("Colon;", [8759]); ("colon;", [58]); ("Colone;", [10868]);
  ("colone;", [8788]); ("coloneq;", [8788]); ("comma;", [44]);
  ("commat;", [64]); ("comp;", [8705]); ("compfn;", [8728]);
  ("complement;", [8705]); ("complexes;", [8450]); ("cong;", [8773]);
  ("congdot;", [10861]); ("Congruent;", [8801]); ("Conint;", [8751]);
  ("conint;", [8750]); ("ContourIntegral;", [8750]); ("Copf;", [8450]);
  ("copf;", [120148]); ("coprod;", [8720]); ("Coproduct;", [8720]);
  ("COPY", [169]); ("copy", [169]); ("COPY;", [169]); ("copy;", [169]);
  ("copysr;", [8471]); ("CounterClockwiseContourIntegral;", [8755]);
  ("crarr;", [8629]); ("Cross;", [10799]); ("cross;", [10007]);
  ("Cscr;", [119966]); ("cscr;", [119992]); ("csub;", [10959]);
  ("csube;", [10961]); ("csup;", [10960]); ("csupe;", [10962]);
  ("ctdot;", [8943]); ("cudarrl;", [10552]); ("cudarrr;", [10549]);
  ("cuepr;", [8926]); ("cuesc;", [8927]); ("cularr;", [8630]);
  ("cularrp;", [10557]); ("Cup;", [8915]); ("cup;", [8746]);
  ("cupbrcap;", [10824]); ("CupCap;", [8781]); ("cupcap;", [10822]);
  ("cupcup;", [10826]); ("cupdot;", [8845]); ("cupor;", [10821]);
  ("cups;", [8746; 65024]); ("curarr;", [8631]); ("curarrm;", [10556]);
  ("curlyeqprec;", [8926]); ("curlyeqsucc;", [8927]); ("curlyvee;", [8910]);
  ("curlywedge;", [8911]); ("curren", [164]); ("curren;", [164]);
  ("curvearrowleft;", [8630]); ("curvearrowright;", [8631]);
  ("cuvee;", [8910]); ("cuwed;", [8911]); ("cwconint;", [8754]);
  ("cwint;", [8753]); ("cylcty;", [9005]); ("Dagger;", [8225]);
  ("dagger;", [8224]); ("daleth;", [8504]); ("Darr;", [8609]);
  ("dArr;", [8659]); ("darr;", [8595]); ("dash;", [8208]);
  ("Dashv;", [10980]); ("dashv;", [8867]); ("dbkarow;", [10511]);
  ("dblac;", [733]); ("Dcaron;", [270]); ("dcaron;", [271]);
  ("Dcy;", [1044]); ("dcy;", [1076]); ("DD;", [8517]); ("dd;", [8518]);
  ("ddagger;", [8225]); ("ddarr;", [8650]); ("DDotrahd;", [10513]);
  ("ddotseq;", [10871]); ("deg", [176]); ("deg;", [176]); ("Del;", [8711]);
  ("Delta;", [916]); ("delta;", [948]); ("demptyv;", [10673]);
  ("dfisht;", [10623]); ("Dfr;", [120071]); ("dfr;", [120097]);
  ("dHar;", [10597]); ("dharl;", [8643]); ("dharr;", [8642]);
  ("DiacriticalAcute;", [180]); ("DiacriticalDot;", [729]);
  ("DiacriticalDoubleAcute;", [733]); ("DiacriticalGrave;", [96]);
  ("DiacriticalTilde;", [732]); ("diam;", [8900]); ("Diamond;", [8900]);
  ("diamond;", [8900]); ("diamondsuit;", [9830]); ("diams;", [9830]);
  ("die;", [168]); ("DifferentialD;", [8518]); ("digamma;", [989]);
  ("disin;", [8946]); ("div;", [247]); ("divide", [247]); ("divide;", [247]);
  ("divideontimes;", [8903]); ("divonx;", [8903]); ("DJcy;", [1026]);
  ("djcy;", [1106]); ("dlcorn;", [8990]); ("dlcrop;", [8973]);
  ("dollar;", [36]); ("Dopf;", [120123]); ("dopf;", [120149]);
  ("Dot;", [168]); ("dot;", [729]); ("DotDot;", [8412]); ("doteq;", [8784]);
  ("doteqdot;", [8785]); ("DotEqual;", [8784]); ("dotminus;", [8760]);
  ("dotplus;", [8724]); ("dotsquare;", [8865]); ("doublebarwedge;", [8966]);
  ("DoubleContourIntegral;", [8751]); ("DoubleDot;", [168]);
  ("DoubleDownArrow;", [8659]); ("DoubleLeftArrow;", [8656]);
  ("DoubleLeftRightArrow;", [8660]); ("DoubleLeftTee;", [10980]);
  ("DoubleLongLeftArrow;", [10232]); ("DoubleLongLeftRightArrow;", [10234]);
  ("DoubleLongRightArrow;", [10233]); ("DoubleRightArrow;", [8658]);
  ("DoubleRightTee;", [8872]); ("DoubleUpArrow;", [8657]);
  ("DoubleUpDownArrow;", [8661]); ("DoubleVerticalBar;", [8741]);
  ("DownArrow;", [8595]); ("Downarrow;", [8659]); ("downarrow;", [8595]);
  ("DownArrowBar;", [10515]); ("DownArrowUpArrow;", [8693]);
  ("DownBreve;", [785]); ("downdownarrows;", [8650]);
  ("downharpoonleft;", [8643]); ("downharpoonright;", [8642]);
  ("DownLeftRightVector;", [10576]); ("DownLeftTeeVector;", [10590]);
  ("DownLeftVector;", [8637]); ("DownLeftVectorBar;", [10582]);
  ("DownRightTeeVector;", [10591]); ("DownRightVector;", [8641]);
  ("DownRightVectorBar;", [10583]); ("DownTee;", [8868]);
  ("DownTeeArrow;", [8615]); ("drbkarow;", [10512]); ("drcorn;", [8991]);
  ("drcrop;", [8972]); ("Dscr;", [119967]); ("dscr;", [119993]);
  ("DScy;", [1029]); ("dscy;", [1109]); ("dsol;", [10742]);
  ("Dstrok;", [272]); ("dstrok;", [273]); ("dtdot;", [8945]);
  ("dtri;", [9663]); ("dtrif;", [9662]); ("duarr;", [8693]);
  ("duhar;", [10607]); ("dwangle;", [10662]); ("DZcy;", [1039]);
  ("dzcy;", [1119]); ("dzigrarr;", [10239]); ("Eacute", [201]);
  ("eacute", [233]); ("Eacute;", [201]); ("eacute;", [233]);
  ("easter;", [10862]); ("Ecaron;", [282]); ("ecaron;", [283]);
  ("ecir;", [8790]); ("Ecirc", [202]); ("ecirc", [234]); ("Ecirc;", [202]);
  ("ecirc;", [234]); ("ecolon;", [8789]); ("Ecy;", [1069]); ("ecy;", [1101]);
  ("eDDot;", [10871]); ("Edot;", [278]); ("eDot;", [8785]); ("edot;", [279]);
  ("ee;", [8519]); ("efDot;", [8786]); ("Efr;", [120072]);
  ("efr;", [120098]); ("eg;", [10906]); ("Egrave", [200]); ("egrave", [232]);
  ("Egrave;", [200]); ("egrave;", [232]); ("egs;", [10902]);
  ("egsdot;", [10904]); ("el;", [10905]); ("Element;", [8712]);
  ("elinters;", [9191]); ("ell;", [8467]); ("els;", [10901]);
  ("elsdot;", [10903]); ("Emacr;", [274]); ("emacr;", [275]);
  ("empty;", [8709]); ("emptyset;", [8709]); ("EmptySmallSquare;", [9723]);
  ("emptyv;", [8709]); ("EmptyVerySmallSquare;", [9643]);
  ("emsp13;", [8196]); ("emsp14;", [8197]); ("emsp;", [8195]);
  ("ENG;", [330]); ("eng;", [331]); ("ensp;", [8194]); ("Eogon;", [280]);
  ("eogon;", [281]); ("Eopf;", [120124]); ("eopf;", [120150]);
  ("epar;", [8917]); ("eparsl;", [10723]); ("eplus;", [10865]);
  ("epsi;", [949]); ("Epsilon;", [917]); ("epsilon;", [949]);
  ("epsiv;", [1013]); ("eqcirc;", [8790]); ("eqcolon;", [8789]);
  ("eqsim;", [8770]); ("eqslantgtr;", [10902]); ("eqslantless;", [10901]);
  ("Equal;", [10869]); ("equals;", [61]); ("EqualTilde;", [8770]);
  ("equest;", [8799]); ("Equilibrium;", [8652]); ("equiv;", [8801]);
  ("equivDD;", [10872]); ("eqvparsl;", [10725]); ("erarr;", [10609]);
  ("erDot;", [8787]); ("Escr;", [8496]); ("escr;", [8495]);
  ("esdot;", [8784]); ("Esim;", [10867]); ("esim;", [8770]); ("Eta;", [919]);
  ("eta;", [951]); ("ETH", [208]); ("eth", [240]); ("ETH;", [208]);
  ("eth;", [240]); ("Euml", [203]); ("euml", [235]); ("Euml;", [203]);
  ("euml;", [235]); ("euro;", [8364]); ("excl;", [33]); ("exist;", [8707]);
  ("Exists;", [8707]); ("expectation;", [8496]); ("ExponentialE;", [8519]);
  ("exponentiale;", [8519]); ("fallingdotseq;", [8786]); ("Fcy;", [1060]);
  ("fcy;", [1092]); ("female;", [9792]); ("ffilig;", [64259]);
  ("fflig;", [64256]); ("ffllig;", [64260]); ("Ffr;", [120073]);
  ("ffr;", [120099]); ("filig;", [64257]); ("FilledSmallSquare;", [9724]);
  ("FilledVerySmallSquare;", [9642]); ("fjlig;", [102; 106]);
  ("flat;", [9837]); ("fllig;", [64258]); ("fltns;", [9649]);
  ("fnof;", [402]); ("Fopf;", [120125]); ("fopf;", [120151]);
  ("ForAll;", [8704]); ("forall;", [8704]); ("fork;", [8916]);
  ("forkv;", [10969]); ("Fouriertrf;", [8497]); ("fpartint;", [10765]);
  ("frac12", [189]); ("frac12;", [189]); ("frac13;", [8531]);
  ("frac14", [188]); ("frac14;", [188]); ("frac15;", [8533]);
  ("frac16;", [8537]); ("frac18;", [8539]); ("frac23;", [8532]);
  ("frac25;", [8534]); ("frac34", [190]); ("frac34;", [190]);
  ("frac35;", [8535]); ("frac38;", [8540]); ("frac45;", [8536]);
  ("frac56;", [8538]); ("frac58;", [8541]); ("frac78;", [8542]);
  ("frasl;", [8260]); ("frown;", [8994]); ("Fscr;", [8497]);
  ("fscr;", [119995]); ("gacute;", [501]); ("Gamma;", [915]);
  ("gamma;", [947]); ("Gammad;", [988]); ("gammad;", [989]);
  ("gap;", [10886]); ("Gbreve;", [286]); ("gbreve;", [287]);
  ("Gcedil;", [290]); ("Gcirc;", [284]); ("gcirc;", [285]); ("Gcy;", [1043]);
  ("gcy;", [1075]); ("Gdot;", [288]); ("gdot;", [289]); ("gE;", [8807]);
  ("ge;", [8805]); ("gEl;", [10892]); ("gel;", [8923]); ("geq;", [8805]);
  ("geqq;", [8807]); ("geqslant;", [10878]); ("ges;", [10878]);
  ("gescc;", [10921]); ("gesdot;", [10880]); ("gesdoto;", [10882]);
  ("gesdotol;", [10884]); ("gesl;", [8923; 65024]); ("gesles;", [10900]);
  ("Gfr;", [120074]); ("gfr;", [120100]); ("Gg;", [8921]); ("gg;", [8811]);
  ("ggg;", [8921]); ("gimel;", [8503]); ("GJcy;", [1027]); ("gjcy;", [1107]);
  ("gl;", [8823]); ("gla;", [10917]); ("glE;", [10898]); ("glj;", [10916]);
  ("gnap;", [10890]); ("gnapprox;", [10890]); ("gnE;", [8809]);
  ("gne;", [10888]); ("gneq;", [10888]); ("gneqq;", [8809]);
  ("gnsim;", [8935]); ("Gopf;", [120126]); ("gopf;", [120152]);
  ("grave;", [96]); ("GreaterEqual;", [8805]); ("GreaterEqualLess;", [8923]);
  ("GreaterFullEqual;", [8807]); ("GreaterGreater;", [10914]);
  ("GreaterLess;", [8823]); ("GreaterSlantEqual;", [10878]);
  ("GreaterTilde;", [8819]); ("Gscr;", [119970]); ("gscr;", [8458]);
  ("gsim;", [8819]); ("gsime;", [10894]); ("gsiml;", [10896]); ("GT", [62]);
  ("gt", [62]); ("GT;", [62]); ("Gt;", [8811]); ("gt;", [62]);
  ("gtcc;", [10919]); ("gtcir;", [10874]); ("gtdot;", [8919]);
  ("gtlPar;", [10645]); ("gtquest;", [10876]); ("gtrapprox;", [10886]);
  ("gtrarr;", [10616]); ("gtrdot;", [8919]); ("gtreqless;", [8923]);
  ("gtreqqless;", [10892]); ("gtrless;", [8823]); ("gtrsim;", [8819]);
  ("gvertneqq;", [8809; 65024]); ("gvnE;", [8809; 65024]); ("Hacek;", [711]);
  ("hairsp;", [8202]); ("half;", [189]); ("hamilt;", [8459]);
  ("HARDcy;", [1066]); ("hardcy;", [1098]); ("hArr;", [8660]);
  ("harr;", [8596]); ("harrcir;", [10568]); ("harrw;", [8621]);
  ("Hat;", [94]); ("hbar;", [8463]); ("Hcirc;", [292]); ("hcirc;", [293]);
  ("hearts;", [9829]); ("heartsuit;", [9829]); ("hellip;", [8230]);
  ("hercon;", [8889]); ("Hfr;", [8460]); ("hfr;", [120101]);
  ("HilbertSpace;", [8459]); ("hksearow;", [10533]); ("hkswarow;", [10534]);
  ("hoarr;", [8703]); ("homtht;", [8763]); ("hookleftarrow;", [8617]);
  ("hookrightarrow;", [8618]); ("Hopf;", [8461]); ("hopf;", [120153]);
  ("horbar;", [8213]); ("HorizontalLine;", [9472]); ("Hscr;", [8459]);
  ("hscr;", [119997]); ("hslash;", [8463]); ("Hstrok;", [294]);
  ("hstrok;", [295]); ("HumpDownHump;", [8782]); ("HumpEqual;", [8783]);
  ("hybull;", [8259]); ("hyphen;", [8208]); ("Iacute", [205]);
  ("iacute", [237]); ("Iacute;", [205]); ("iacute;", [237]); ("ic;", [8291]);
  ("Icirc", [206]); ("icirc", [238]); ("Icirc;", [206]); ("icirc;", [238]);
  ("Icy;", [1048]); ("icy;", [1080]); ("Idot;", [304]); ("IEcy;", [1045]);
  ("iecy;", [1077]); ("iexcl", [161]); ("iexcl;", [161]); ("iff;", [8660]);
  ("Ifr;", [8465]); ("ifr;", [120102]); ("Igrave", [204]); ("igrave", [236]);
  ("Igrave;", [204]); ("igrave;", [236]); ("ii;", [8520]);
  ("iiiint;", [10764]); ("iiint;", [8749]); ("iinfin;", [10716]);
  ("iiota;", [8489]); ("IJlig;", [306]); ("ijlig;", [307]); ("Im;", [8465]);
  ("Imacr;", [298]); ("imacr;", [299]); ("image;", [8465]);
  ("ImaginaryI;", [8520]); ("imagline;", [8464]); ("imagpart;", [8465]);
  ("imath;", [305]); ("imof;", [8887]); ("imped;", [437]);
  ("Implies;", [8658]); ("in;", [8712]); ("incare;", [8453]);
  ("infin;", [8734]); ("infintie;", [10717]); ("inodot;", [305]);
  ("Int;", [8748]); ("int;", [8747]); ("intcal;", [8890]);
  ("integers;", [8484]); ("Integral;", [8747]); ("intercal;", [8890]);
  ("Intersection;", [8898]); ("intlarhk;", [10775]); ("intprod;", [10812]);
  ("InvisibleComma;", [8291]); ("InvisibleTimes;", [8290]);
  ("IOcy;", [1025]); ("iocy;", [1105]); ("Iogon;", [302]); ("iogon;", [303]);
  ("Iopf;", [120128]); ("iopf;", [120154]); ("Iota;", [921]);
  ("iota;", [953]); ("iprod;", [10812]); ("iquest", [191]);
  ("iquest;", [191]); ("Iscr;", [8464]); ("iscr;", [119998]);
  ("isin;", [8712]); ("isindot;", [8949]); ("isinE;", [8953]);
  ("isins;", [8948]); ("isinsv;", [8947]); ("isinv;", [8712]);
  ("it;", [8290]); ("Itilde;", [296]); ("itilde;", [297]);
  ("Iukcy;", [1030]); ("iukcy;", [1110]); ("Iuml", [207]); ("iuml", [239]);
  ("Iuml;", [207]); ("iuml;", [239]); ("Jcirc;", [308]); ("jcirc;", [309]);
  ("Jcy;", [1049]); ("jcy;", [1081]); ("Jfr;", [120077]); ("jfr;", [120103]);
  ("jmath;", [567]); ("Jopf;", [120129]); ("jopf;", [120155]);
  ("Jscr;", [119973]); ("jscr;", [119999]); ("Jsercy;", [1032]);
  ("jsercy;", [1112]); ("Jukcy;", [1028]); ("jukcy;", [1108]);
  ("Kappa;", [922]); ("kappa;", [954]); ("kappav;", [1008]);
  ("Kcedil;", [310]); ("kcedil;", [311]); ("Kcy;", [1050]); ("kcy;", [1082]);
  ("Kfr;", [120078]); ("kfr;", [120104]); ("kgreen;", [312]);
  ("KHcy;", [1061]); ("khcy;", [1093]); ("KJcy;", [1036]); ("kjcy;", [1116]);
  ("Kopf;", [120130]); ("kopf;", [120156]); ("Kscr;", [119974]);
  ("kscr;", [120000]); ("lAarr;", [8666]); ("Lacute;", [313]);
  ("lacute;", [314]); ("laemptyv;", [10676]); ("lagran;", [8466]);
  ("Lambda;", [923]); ("lambda;", [955]); ("Lang;", [10218]);
  ("lang;", [10216]); ("langd;", [10641]); ("langle;", [10216]);
  ("lap;", [10885]); ("Laplacetrf;", [8466]); ("laquo", [171]);
  ("laquo;", [171]); ("Larr;", [8606]); ("lArr;", [8656]); ("larr;", [8592]);
  ("larrb;", [8676]); ("larrbfs;", [10527]); ("larrfs;", [10525]);
  ("larrhk;", [8617]); ("larrlp;", [8619]); ("larrpl;", [10553]);
  ("larrsim;", [10611]); ("larrtl;", [8610]); ("lat;", [10923]);
  ("lAtail;", [10523]); ("latail;", [10521]); ("late;", [10925]);
  ("lates;", [10925; 65024]); ("lBarr;", [10510]); ("lbarr;", [10508]);
  ("lbbrk;", [10098]); ("lbrace;", [123]); ("lbrack;", [91]);
  ("lbrke;", [10635]); ("lbrksld;", [10639]); ("lbrkslu;", [10637]);
  ("Lcaron;", [317]); ("lcaron;", [318]); ("Lcedil;", [315]);
  ("lcedil;", [316]); ("lceil;", [8968]); ("lcub;", [123]); ("Lcy;", [1051]);
  ("lcy;", [1083]); ("ldca;", [10550]); ("ldquo;", [8220]);
  ("ldquor;", [8222]); ("ldrdhar;", [10599]); ("ldrushar;", [10571]);
  ("ldsh;", [8626]); ("lE;", [8806]); ("le;", [8804]);
  ("LeftAngleBracket;", [10216]); ("LeftArrow;", [8592]);
  ("Leftarrow;", [8656]); ("leftarrow;", [8592]); ("LeftArrowBar;", [8676]);
  ("LeftArrowRightArrow;", [8646]); ("leftarrowtail;", [8610]);
  ("LeftCeiling;", [8968]); ("LeftDoubleBracket;", [10214]);
  ("LeftDownTeeVector;", [10593]); ("LeftDownVector;", [8643]);
  ("LeftDownVectorBar;", [10585]); ("LeftFloor;", [8970]);
  ("leftharpoondown;", [8637]); ("leftharpoonup;", [8636]);
  ("leftleftarrows;", [8647]); ("LeftRightArrow;", [8596]);
  ("Leftrightarrow;", [8660]); ("leftrightarrow;", [8596]);
  ("leftrightarrows;", [8646]); ("leftrightharpoons;", [8651]);
  ("leftrightsquigarrow;", [8621]); ("LeftRightVector;", [10574]);
  ("LeftTee;", [8867]); ("LeftTeeArrow;", [8612]);
  ("LeftTeeVector;", [10586]); ("leftthreetimes;", [8907]);
  ("LeftTriangle;", [8882]); ("LeftTriangleBar;", [10703]);
  ("LeftTriangleEqual;", [8884]); ("LeftUpDownVector;", [10577]);
  ("LeftUpTeeVector;", [10592]); ("LeftUpVector;", [8639]);
  ("LeftUpVectorBar;", [10584]); ("LeftVector;", [8636]);
  ("LeftVectorBar;", [10578]); ("lEg;", [10891]); ("leg;", [8922]);
  ("leq;", [8804]); ("leqq;", [8806]); ("leqslant;", [10877]);
  ("les;", [10877]); ("lescc;", [10920]); ("lesdot;", [10879]);
  ("lesdoto;", [10881]); ("lesdotor;", [10883]); ("lesg;", [8922; 65024]);
  ("lesges;", [10899]); ("lessapprox;", [10885]); ("lessdot;", [8918]);
  ("lesseqgtr;", [8922]); ("lesseqqgtr;", [10891]);
  ("LessEqualGreater;", [8922]); ("LessFullEqual;", [8806]);
  ("LessGreater;", [8822]); ("lessgtr;", [8822]); ("LessLess;", [10913]);
  ("lesssim;", [8818]); ("LessSlantEqual;", [10877]); ("LessTilde;", [8818]);
  ("lfisht;", [10620]); ("lfloor;", [8970]); ("Lfr;", [120079]);
  ("lfr;", [120105]); ("lg;", [8822]); ("lgE;", [10897]); ("lHar;", [10594]);
  ("lhard;", [8637]); ("lharu;", [8636]); ("lharul;", [10602]);
  ("lhblk;", [9604]); ("LJcy;", [1033]); ("ljcy;", [1113]); ("Ll;", [8920]);
  ("ll;", [8810]); ("llarr;", [8647]); ("llcorner;", [8990]);
  ("Lleftarrow;", [8666]); ("llhard;", [10603]); ("lltri;", [9722]);
  ("Lmidot;", [319]); ("lmidot;", [320]); ("lmoust;", [9136]);
  ("lmoustache;", [9136]); ("lnap;", [10889]); ("lnapprox;", [10889]);
  ("lnE;", [8808]); ("lne;", [10887]); ("lneq;", [10887]);
  ("lneqq;", [8808]); ("lnsim;", [8934]); ("loang;", [10220]);
  ("loarr;", [8701]); ("lobrk;", [10214]); ("LongLeftArrow;", [10229]);
  ("Longleftarrow;", [10232]); ("longleftarrow;", [10229]);
  ("LongLeftRightArrow;", [10231]); ("Longleftrightarrow;", [10234]);
  ("longleftrightarrow;", [10231]); ("longmapsto;", [10236]);
  ("LongRightArrow;", [10230]); ("Longrightarrow;", [10233]);
  ("longrightarrow;", [10230]); ("looparrowleft;", [8619]);
  ("looparrowright;", [8620]); ("lopar;", [10629]); ("Lopf;", [120131]);
  ("lopf;", [120157]); ("loplus;", [10797]); ("lotimes;", [10804]);
  ("lowast;", [8727]); ("lowbar;", [95]); ("LowerLeftArrow;", [8601]);
  ("LowerRightArrow;", [8600]); ("loz;", [9674]); ("lozenge;", [9674]);
  ("lozf;", [10731]); ("lpar;", [40]); ("lparlt;", [10643]);
  ("lrarr;", [8646]); ("lrcorner;", [8991]); ("lrhar;", [8651]);
  ("lrhard;", [10605]); ("lrm;", [8206]); ("lrtri;", [8895]);
  ("lsaquo;", [8249]); ("Lscr;", [8466]); ("lscr;", [120001]);
  ("Lsh;", [8624]); ("lsh;", [8624]); ("lsim;", [8818]); ("lsime;", [10893]);
  ("lsimg;", [10895]); ("lsqb;", [91]); ("lsquo;", [8216]);
  ("lsquor;", [8218]); ("Lstrok;", [321]); ("lstrok;", [322]); ("LT", [60]);
  ("lt", [60]); ("LT;", [60]); ("Lt;", [8810]); ("lt;", [60]);
  ("ltcc;", [10918]); ("ltcir;", [10873]); ("ltdot;", [8918]);
  ("lthree;", [8907]); ("ltimes;", [8905]); ("ltlarr;", [10614]);
  ("ltquest;", [10875]); ("ltri;", [9667]); ("ltrie;", [8884]);
  ("ltrif;", [9666]); ("ltrPar;", [10646]); ("lurdshar;", [10570]);
  ("luruhar;", [10598]); ("lvertneqq;", [8808; 65024]);
  ("lvnE;", [8808; 65024]); ("macr", [175]); ("macr;", [175]);
  ("male;", [9794]); ("malt;", [10016]); ("maltese;", [10016]);
  ("Map;", [10501]); ("map;", [8614]); ("mapsto;", [8614]);
  ("mapstodown;", [8615]); ("mapstoleft;", [8612]); ("mapstoup;", [8613]);
  ("marker;", [9646]); ("mcomma;", [10793]); ("Mcy;", [1052]);
  ("mcy;", [1084]); ("mdash;", [8212]); ("mDDot;", [8762]);
  ("measuredangle;", [8737]); ("MediumSpace;", [8287]);
  ("Mellintrf;", [8499]); ("Mfr;", [120080]); ("mfr;", [120106]);
  ("mho;", [8487]); ("micro", [181]); ("micro;", [181]); ("mid;", [8739]);
  ("midast;", [42]); ("midcir;", [10992]); ("middot", [183]);
  ("middot;", [183]); ("minus;", [8722]); ("minusb;", [8863]);
  ("minusd;", [8760]); ("minusdu;", [10794]); ("MinusPlus;", [8723]);
  ("mlcp;", [10971]); ("mldr;", [8230]); ("mnplus;", [8723]);
  ("models;", [8871]); ("Mopf;", [120132]); ("mopf;", [120158]);
  ("mp;", [8723]); ("Mscr;", [8499]); ("mscr;", [120002]);
  ("mstpos;", [8766]); ("Mu;", [924]); ("mu;", [956]); ("multimap;", [8888]);
  ("mumap;", [8888]); ("nabla;", [8711]); ("Nacute;", [323]);
  ("nacute;", [324]); ("nang;", [8736; 8402]); ("nap;", [8777]);
  ("napE;", [10864; 824]); ("napid;", [8779; 824]); ("napos;", [329]);
  ("napprox;", [8777]); ("natur;", [9838]); ("natural;", [9838]);
  ("naturals;", [8469]); ("nbsp", [160]); ("nbsp;", [160]);
  ("nbump;", [8782; 824]); ("nbumpe;", [8783; 824]); ("ncap;", [10819]);
  ("Ncaron;", [327]); ("ncaron;", [328]); ("Ncedil;", [325]);
  ("ncedil;", [326]); ("ncong;", [8775]); ("ncongdot;", [10861; 824]);
  ("ncup;", [10818]); ("Ncy;", [1053]); ("ncy;", [1085]); ("ndash;", [8211]);
  ("ne;", [8800]); ("nearhk;", [10532]); ("neArr;", [8663]);
  ("nearr;", [8599]); ("nearrow;", [8599]); ("nedot;", [8784; 824]);
  ("NegativeMediumSpace;", [8203]); ("NegativeThickSpace;", [8203]);
  ("NegativeThinSpace;", [8203]); ("NegativeVeryThinSpace;", [8203]);
  ("nequiv;", [8802]); ("nesear;", [10536]); ("nesim;", [8770; 824]);
  ("NestedGreaterGreater;", [8811]); ("NestedLessLess;", [8810]);
  ("NewLine;", [10]); ("nexist;", [8708]); ("nexists;", [8708]);
  ("Nfr;", [120081]); ("nfr;", [120107]); ("ngE;", [8807; 824]);
  ("nge;", [8817]); ("ngeq;", [8817]); ("ngeqq;", [8807; 824]);
  ("ngeqslant;", [10878; 824]); ("nges;", [10878; 824]);
  ("nGg;", [8921; 824]); ("ngsim;", [8821]); ("nGt;", [8811; 8402]);
  ("ngt;", [8815]); ("ngtr;", [8815]); ("nGtv;", [8811; 824]);
  ("nhArr;", [8654]); ("nharr;", [8622]); ("nhpar;", [10994]);
  ("ni;", [8715]); ("nis;", [8956]); ("nisd;", [8954]); ("niv;", [8715]);
  ("NJcy;", [1034]); ("njcy;", [1114]); ("nlArr;", [8653]);
  ("nlarr;", [8602]); ("nldr;", [8229]); ("nlE;", [8806; 824]);
  ("nle;", [8816]); ("nLeftarrow;", [8653]); ("nleftarrow;", [8602]);
  ("nLeftrightarrow;", [8654]); ("nleftrightarrow;", [8622]);
  ("nleq;", [8816]); ("nleqq;", [8806; 824]); ("nleqslant;", [10877; 824]);
  ("nles;", [10877; 824]); ("nless;", [8814]); ("nLl;", [8920; 824]);
  ("nlsim;", [8820]); ("nLt;", [8810; 8402]); ("nlt;", [8814]);
  ("nltri;", [8938]); ("nltrie;", [8940]); ("nLtv;", [8810; 824]);
  ("nmid;", [8740]); ("NoBreak;", [8288]); ("NonBreakingSpace;", [160]);
  ("Nopf;", [8469]); ("nopf;", [120159]); ("not", [172]); ("Not;", [10988]);
  ("not;", [172]); ("NotCongruent;", [8802]); ("NotCupCap;", [8813]);
  ("NotDoubleVerticalBar;", [8742]); ("NotElement;", [8713]);
  ("NotEqual;", [8800]); ("NotEqualTilde;", [8770; 824]);
  ("NotExists;", [8708]); ("NotGreater;", [8815]);
  ("NotGreaterEqual;", [8817]); ("NotGreaterFullEqual;", [8807; 824]);
  ("NotGreaterGreater;", [8811; 824]); ("NotGreaterLess;", [8825]);
  ("NotGreaterSlantEqual;", [10878; 824]); ("NotGreaterTilde;", [8821]);
  ("NotHumpDownHump;", [8782; 824]); ("NotHumpEqual;", [8783; 824]);
  ("notin;", [8713]); ("notindot;", [8949; 824]); ("notinE;", [8953; 824]);
  ("notinva;", [8713]); ("notinvb;", [8951]); ("notinvc;", [8950]);
  ("NotLeftTriangle;", [8938]); ("NotLeftTriangleBar;", [10703; 824]);
  ("NotLeftTriangleEqual;", [8940]); ("NotLess;", [8814]);
  ("NotLessEqual;", [8816]); ("NotLessGreater;", [8824]);
  ("NotLessLess;", [8810; 824]); ("NotLessSlantEqual;", [10877; 824]);
  ("NotLessTilde;", [8820]); ("NotNestedGreaterGreater;", [10914; 824]);
  ("NotNestedLessLess;", [10913; 824]); ("notni;", [8716]);
  ("notniva;", [8716]); ("notnivb;", [8958]); ("notnivc;", [8957]);
  ("NotPrecedes;", [8832]); ("NotPrecedesEqual;", [10927; 824]);
  ("NotPrecedesSlantEqual;", [8928]); ("NotReverseElement;", [8716]);
  ("NotRightTriangle;", [8939]); ("NotRightTriangleBar;", [10704; 824]);
  ("NotRightTriangleEqual;", [8941]); ("NotSquareSubset;", [8847; 824]);
  ("NotSquareSubsetEqual;", [8930]); ("NotSquareSuperset;", [8848; 824]);
  ("NotSquareSupersetEqual;", [8931]); ("NotSubset;", [8834; 8402]);
  ("NotSubsetEqual;", [8840]); ("NotSucceeds;", [8833]);
  ("NotSucceedsEqual;", [10928; 824]); ("NotSucceedsSlantEqual;", [8929]);
  ("NotSucceedsTilde;", [8831; 824]); ("NotSuperset;", [8835; 8402]);
  ("NotSupersetEqual;", [8841]); ("NotTilde;", [8769]);
  ("NotTildeEqual;", [8772]); ("NotTildeFullEqual;", [8775]);
  ("NotTildeTilde;", [8777]); ("NotVerticalBar;", [8740]); ("npar;", [8742]);
  ("nparallel;", [8742]); ("nparsl;", [11005; 8421]);
  ("npart;", [8706; 824]); ("npolint;", [10772]); ("npr;", [8832]);
  ("nprcue;", [8928]); ("npre;", [10927; 824]); ("nprec;", [8832]);
  ("npreceq;", [10927; 824]); ("nrArr;", [8655]); ("nrarr;", [8603]);
  ("nrarrc;", [10547; 824]); ("nrarrw;", [8605; 824]);
  ("nRightarrow;", [8655]); ("nrightarrow;", [8603]); ("nrtri;", [8939]);
  ("nrtrie;", [8941]); ("nsc;", [8833]); ("nsccue;", [8929]);
  ("nsce;", [10928; 824]); ("Nscr;", [119977]); ("nscr;", [120003]);
  ("nshortmid;", [8740]); ("nshortparallel;", [8742]); ("nsim;", [8769]);
  ("nsime;", [8772]); ("nsimeq;", [8772]); ("nsmid;", [8740]);
  ("nspar;", [8742]); ("nsqsube;", [8930]); ("nsqsupe;", [8931]);
  ("nsub;", [8836]); ("nsubE;", [10949; 824]); ("nsube;", [8840]);
  ("nsubset;", [8834; 8402]); ("nsubseteq;", [8840]);
  ("nsubseteqq;", [10949; 824]); ("nsucc;", [8833]);
  ("nsucceq;", [10928; 824]); ("nsup;", [8837]); ("nsupE;", [10950; 824]);
  ("nsupe;", [8841]); ("nsupset;", [8835; 8402]); ("nsupseteq;", [8841]);
  ("nsupseteqq;", [10950; 824]); ("ntgl;", [8825]); ("Ntilde", [209]);
  ("ntilde", [241]); ("Ntilde;", [209]); ("ntilde;", [241]);
  ("ntlg;", [8824]); ("ntriangleleft;", [8938]);
  ("ntrianglelefteq;", [8940]); ("ntriangleright;", [8939]);
  ("ntrianglerighteq;", [8941]); ("Nu;", [925]); ("nu;", [957]);
  ("num;", [35]); ("numero;", [8470]); ("numsp;", [8199]);
  ("nvap;", [8781; 8402]); ("nVDash;", [8879]); ("nVdash;", [8878]);
  ("nvDash;", [8877]); ("nvdash;", [8876]); ("nvge;", [8805; 8402]);
  ("nvgt;", [62; 8402]); ("nvHarr;", [10500]); ("nvinfin;", [10718]);
  ("nvlArr;", [10498]); ("nvle;", [8804; 8402]); ("nvlt;", [60; 8402]);
  ("nvltrie;", [8884; 8402]); ("nvrArr;", [10499]);
  ("nvrtrie;", [8885; 8402]); ("nvsim;", [8764; 8402]); ("nwarhk;", [10531]);
  ("nwArr;", [8662]); ("nwarr;", [8598]); ("nwarrow;", [8598]);
  ("nwnear;", [10535]); ("Oacute", [211]); ("oacute", [243]);
  ("Oacute;", [211]); ("oacute;", [243]); ("oast;", [8859]);
  ("ocir;", [8858]); ("Ocirc", [212]); ("ocirc", [244]); ("Ocirc;", [212]);
  ("ocirc;", [244]); ("Ocy;", [1054]); ("ocy;", [1086]); ("odash;", [8861]);
  ("Odblac;", [336]); ("odblac;", [337]); ("odiv;", [10808]);
  ("odot;", [8857]); ("odsold;", [10684]); ("OElig;", [338]);
  ("oelig;", [339]); ("ofcir;", [10687]); ("Ofr;", [120082]);
  ("ofr;", [120108]); ("ogon;", [731]); ("Ograve", [210]); ("ograve", [242]);
  ("Ograve;", [210]); ("ograve;", [242]); ("ogt;", [10689]);
  ("ohbar;", [10677]); ("ohm;", [937]); ("oint;", [8750]);
  ("olarr;", [8634]); ("olcir;", [10686]); ("olcross;", [10683]);
  ("oline;", [8254]); ("olt;", [10688]); ("Omacr;", [332]);
  ("omacr;", [333]); ("Omega;", [937]); ("omega;", [969]);
  ("Omicron;", [927]); ("omicron;", [959]); ("omid;", [10678]);
  ("ominus;", [8854]); ("Oopf;", [120134]); ("oopf;", [120160]);
  ("opar;", [10679]); ("OpenCurlyDoubleQuote;", [8220]);
  ("OpenCurlyQuote;", [8216]); ("operp;", [10681]); ("oplus;", [8853]);
  ("Or;", [10836]); ("or;", [8744]); ("orarr;", [8635]); ("ord;", [10845]);
  ("order;", [8500]); ("orderof;", [8500]); ("ordf", [170]);
  ("ordf;", [170]); ("ordm", [186]); ("ordm;", [186]); ("origof;", [8886]);
  ("oror;", [10838]); ("orslope;", [10839]); ("orv;", [10843]);
  ("oS;", [9416]); ("Oscr;", [119978]); ("oscr;", [8500]); ("Oslash", [216]);
  ("oslash", [248]); ("Oslash;", [216]); ("oslash;", [248]);
  ("osol;", [8856]); ("Otilde", [213]); ("otilde", [245]);
  ("Otilde;", [213]); ("otilde;", [245]); ("Otimes;", [10807]);
  ("otimes;", [8855]); ("otimesas;", [10806]); ("Ouml", [214]);
  ("ouml", [246]); ("Ouml;", [214]); ("ouml;", [246]); ("ovbar;", [9021]);
  ("OverBar;", [8254]); ("OverBrace;", [9182]); ("OverBracket;", [9140]);
  ("OverParenthesis;", [9180]); ("par;", [8741]); ("para", [182]);
  ("para;", [182]); ("parallel;", [8741]); ("parsim;", [10995]);
  ("parsl;", [11005]); ("part;", [8706]); ("PartialD;", [8706]);
  ("Pcy;", [1055]); ("pcy;", [1087]); ("percnt;", [37]); ("period;", [46]);
  ("permil;", [8240]); ("perp;", [8869]); ("pertenk;", [8241]);
  ("Pfr;", [120083]); ("pfr;", [120109]); ("Phi;", [934]); ("phi;", [966]);
  ("phiv;", [981]); ("phmmat;", [8499]); ("phone;", [9742]); ("Pi;", [928]);
  ("pi;", [960]); ("pitchfork;", [8916]); ("piv;", [982]);
  ("planck;", [8463]); ("planckh;", [8462]); ("plankv;", [8463]);
  ("plus;", [43]); ("plusacir;", [10787]); ("plusb;", [8862]);
  ("pluscir;", [10786]); ("plusdo;", [8724]); ("plusdu;", [10789]);
  ("pluse;", [10866]); ("PlusMinus;", [177]); ("plusmn", [177]);
  ("plusmn;", [177]); ("plussim;", [10790]); ("plustwo;", [10791]);
  ("pm;", [177]); ("Poincareplane;", [8460]); ("pointint;", [10773]);
  ("Popf;", [8473]); ("popf;", [120161]); ("pound", [163]);
  ("pound;", [163]); ("Pr;", [10939]); ("pr;", [8826]); ("prap;", [10935]);
  ("prcue;", [8828]); ("prE;", [10931]); ("pre;", [10927]);
  ("prec;", [8826]); ("precapprox;", [10935]); ("preccurlyeq;", [8828]);
  ("Precedes;", [8826]); ("PrecedesEqual;", [10927]);
  ("PrecedesSlantEqual;", [8828]); ("PrecedesTilde;", [8830]);
  ("preceq;", [10927]); ("precnapprox;", [10937]); ("precneqq;", [10933]);
  ("precnsim;", [8936]); ("precsim;", [8830]); ("Prime;", [8243]);
  ("prime;", [8242]); ("primes;", [8473]); ("prnap;", [10937]);
  ("prnE;", [10933]); ("prnsim;", [8936]); ("prod;", [8719]);
  ("Product;", [8719]); ("profalar;", [9006]); ("profline;", [8978]);
  ("profsurf;", [8979]); ("prop;", [8733]); ("Proportion;", [8759]);
  ("Proportional;", [8733]); ("propto;", [8733]); ("prsim;", [8830]);
  ("prurel;", [8880]); ("Pscr;", [119979]); ("pscr;", [120005]);
  ("Psi;", [936]); ("psi;", [968]); ("puncsp;", [8200]); ("Qfr;", [120084]);
  ("qfr;", [120110]); ("qint;", [10764]); ("Qopf;", [8474]);
  ("qopf;", [120162]); ("qprime;", [8279]); ("Qscr;", [119980]);
  ("qscr;", [120006]); ("quaternions;", [8461]); ("quatint;", [10774]);
  ("quest;", [63]); ("questeq;", [8799]); ("QUOT", [34]); ("quot", [34]);
  ("QUOT;", [34]); ("quot;", [34]); ("rAarr;", [8667]);
  ("race;", [8765; 817]); ("Racute;", [340]); ("racute;", [341]);
  ("radic;", [8730]); ("raemptyv;", [10675]); ("Rang;", [10219]);
  ("rang;", [10217]); ("rangd;", [10642]); ("range;", [10661]);
  ("rangle;", [10217]); ("raquo", [187]); ("raquo;", [187]);
  ("Rarr;", [8608]); ("rArr;", [8658]); ("rarr;", [8594]);
  ("rarrap;", [10613]); ("rarrb;", [8677]); ("rarrbfs;", [10528]);
  ("rarrc;", [10547]); ("rarrfs;", [10526]); ("rarrhk;", [8618]);
  ("rarrlp;", [8620]); ("rarrpl;", [10565]); ("rarrsim;", [10612]);
  ("Rarrtl;", [10518]); ("rarrtl;", [8611]); ("rarrw;", [8605]);
  ("rAtail;", [10524]); ("ratail;", [10522]); ("ratio;", [8758]);
  ("rationals;", [8474]); ("RBarr;", [10512]); ("rBarr;", [10511]);
  ("rbarr;", [10509]); ("rbbrk;", [10099]); ("rbrace;", [125]);
  ("rbrack;", [93]); ("rbrke;", [10636]); ("rbrksld;", [10638]);
  ("rbrkslu;", [10640]); ("Rcaron;", [344]); ("rcaron;", [345]);
  ("Rcedil;", [342]); ("rcedil;", [343]); ("rceil;", [8969]);
  ("rcub;", [125]); ("Rcy;", [1056]); ("rcy;", [1088]); ("rdca;", [10551]);
  ("rdldhar;", [10601]); ("rdquo;", [8221]); ("rdquor;", [8221]);
  ("rdsh;", [8627]); ("Re;", [8476]); ("real;", [8476]);
  ("realine;", [8475]); ("realpart;", [8476]); ("reals;", [8477]);
  ("rect;", [9645]); ("REG", [174]); ("reg", [174]); ("REG;", [174]);
  ("reg;", [174]); ("ReverseElement;", [8715]);
  ("ReverseEquilibrium;", [8651]); ("ReverseUpEquilibrium;", [10607]);
  ("rfisht;", [10621]); ("rfloor;", [8971]); ("Rfr;", [8476]);
  ("rfr;", [120111]); ("rHar;", [10596]); ("rhard;", [8641]);
  ("rharu;", [8640]); ("rharul;", [10604]); ("Rho;", [929]); ("rho;", [961]);
  ("rhov;", [1009]); ("RightAngleBracket;", [10217]);
  ("RightArrow;", [8594]); ("Rightarrow;", [8658]); ("rightarrow;", [8594]);
  ("RightArrowBar;", [8677]); ("RightArrowLeftArrow;", [8644]);
  ("rightarrowtail;", [8611]); ("RightCeiling;", [8969]);
  ("RightDoubleBracket;", [10215]); ("RightDownTeeVector;", [10589]);
  ("RightDownVector;", [8642]); ("RightDownVectorBar;", [10581]);
  ("RightFloor;", [8971]); ("rightharpoondown;", [8641]);
  ("rightharpoonup;", [8640]); ("rightleftarrows;", [8644]);
  ("rightleftharpoons;", [8652]); ("rightrightarrows;", [8649]);
  ("rightsquigarrow;", [8605]); ("RightTee;", [8866]);
  ("RightTeeArrow;", [8614]); ("RightTeeVector;", [10587]);
  ("rightthreetimes;", [8908]); ("RightTriangle;", [8883]);
  ("RightTriangleBar;", [10704]); ("RightTriangleEqual;", [8885]);
  ("RightUpDownVector;", [10575]); ("RightUpTeeVector;", [10588]);
  ("RightUpVector;", [8638]); ("RightUpVectorBar;", [10580]);
  ("RightVector;", [8640]); ("RightVectorBar;", [10579]); ("ring;", [730]);
  ("risingdotseq;", [8787]); ("rlarr;", [8644]); ("rlhar;", [8652]);
  ("rlm;", [8207]); ("rmoust;", [9137]); ("rmoustache;", [9137]);
  ("rnmid;", [10990]); ("roang;", [10221]); ("roarr;", [8702]);
  ("robrk;", [10215]); ("ropar;", [10630]); ("Ropf;", [8477]);
  ("ropf;", [120163]); ("roplus;", [10798]); ("rotimes;", [10805]);
  ("RoundImplies;", [10608]); ("rpar;", [41]); ("rpargt;", [10644]);
  ("rppolint;", [10770]); ("rrarr;", [8649]); ("Rrightarrow;", [8667]);
  ("rsaquo;", [8250]); ("Rscr;", [8475]); ("rscr;", [120007]);
  ("Rsh;", [8625]); ("rsh;", [8625]); ("rsqb;", [93]); ("rsquo;", [8217]);
  ("rsquor;", [8217]); ("rthree;", [8908]); ("rtimes;", [8906]);
  ("rtri;", [9657]); ("rtrie;", [8885]); ("rtrif;", [9656]);
  ("rtriltri;", [10702]); ("RuleDelayed;", [10740]); ("ruluhar;", [10600]);
  ("rx;", [8478]); ("Sacute;", [346]); ("sacute;", [347]);
  ("sbquo;", [8218]); ("Sc;", [10940]); ("sc;", [8827]); ("scap;", [10936]);
  ("Scaron;", [352]); ("scaron;", [353]); ("sccue;", [8829]);
  ("scE;", [10932]); ("sce;", [10928]); ("Scedil;", [350]);
  ("scedil;", [351]); ("Scirc;", [348]); ("scirc;", [349]);
  ("scnap;", [10938]); ("scnE;", [10934]); ("scnsim;", [8937]);
  ("scpolint;", [10771]); ("scsim;", [8831]); ("Scy;", [1057]);
  ("scy;", [1089]); ("sdot;", [8901]); ("sdotb;", [8865]);
  ("sdote;", [10854]); ("searhk;", [10533]); ("seArr;", [8664]);
  ("searr;", [8600]); ("searrow;", [8600]); ("sect", [167]);
  ("sect;", [167]); ("semi;", [59]); ("seswar;", [10537]);
  ("setminus;", [8726]); ("setmn;", [8726]); ("sext;", [10038]);
  ("Sfr;", [120086]); ("sfr;", [120112]); ("sfrown;", [8994]);
  ("sharp;", [9839]); ("SHCHcy;", [1065]); ("shchcy;", [1097]);
  ("SHcy;", [1064]); ("shcy;", [1096]); ("ShortDownArrow;", [8595]);
  ("ShortLeftArrow;", [8592]); ("shortmid;", [8739]);
  ("shortparallel;", [8741]); ("ShortRightArrow;", [8594]);
  ("ShortUpArrow;", [8593]); ("shy", [173]); ("shy;", [173]);
  ("Sigma;", [931]); ("sigma;", [963]); ("sigmaf;", [962]);
  ("sigmav;", [962]); ("sim;", [8764]); ("simdot;", [10858]);
  ("sime;", [8771]); ("simeq;", [8771]); ("simg;", [10910]);
  ("simgE;", [10912]); ("siml;", [10909]); ("simlE;", [10911]);
  ("simne;", [8774]); ("simplus;", [10788]); ("simrarr;", [10610]);
  ("slarr;", [8592]); ("SmallCircle;", [8728]); ("smallsetminus;", [8726]);
  ("smashp;", [10803]); ("smeparsl;", [10724]); ("smid;", [8739]);
  ("smile;", [8995]); ("smt;", [10922]); ("smte;", [10924]);
  ("smtes;", [10924; 65024]); ("SOFTcy;", [1068]); ("softcy;", [1100]);
  ("sol;", [47]); ("solb;", [10692]); ("solbar;", [9023]);
  ("Sopf;", [120138]); ("sopf;", [120164]); ("spades;", [9824]);
  ("spadesuit;", [9824]); ("spar;", [8741]); ("sqcap;", [8851]);
  ("sqcaps;", [8851; 65024]); ("sqcup;", [8852]); ("sqcups;", [8852; 65024]);
  ("Sqrt;", [8730]); ("sqsub;", [8847]); ("sqsube;", [8849]);
  ("sqsubset;", [8847]); ("sqsubseteq;", [8849]); ("sqsup;", [8848]);
  ("sqsupe;", [8850]); ("sqsupset;", [8848]); ("sqsupseteq;", [8850]);
  ("squ;", [9633]); ("Square;", [9633]); ("square;", [9633]);
  ("SquareIntersection;", [8851]); ("SquareSubset;", [8847]);
  ("SquareSubsetEqual;", [8849]); ("SquareSuperset;", [8848]);
  ("SquareSupersetEqual;", [8850]); ("SquareUnion;", [8852]);
  ("squarf;", [9642]); ("squf;", [9642]); ("srarr;", [8594]);
  ("Sscr;", [119982]); ("sscr;", [120008]); ("ssetmn;", [8726]);
  ("ssmile;", [8995]); ("sstarf;", [8902]); ("Star;", [8902]);
  ("star;", [9734]); ("starf;", [9733]); ("straightepsilon;", [1013]);
  ("straightphi;", [981]); ("strns;", [175]); ("Sub;", [8912]);
  ("sub;", [8834]); ("subdot;", [10941]); ("subE;", [10949]);
  ("sube;", [8838]); ("subedot;", [10947]); ("submult;", [10945]);
  ("subnE;", [10955]); ("subne;", [8842]); ("subplus;", [10943]);
  ("subrarr;", [10617]); ("Subset;", [8912]); ("subset;", [8834]);
  ("subseteq;", [8838]); ("subseteqq;", [10949]); ("SubsetEqual;", [8838]);
  ("subsetneq;", [8842]); ("subsetneqq;", [10955]); ("subsim;", [10951]);
  ("subsub;", [10965]); ("subsup;", [10963]); ("succ;", [8827]);
  ("succapprox;", [10936]); ("succcurlyeq;", [8829]); ("Succeeds;", [8827]);
  ("SucceedsEqual;", [10928]); ("SucceedsSlantEqual;", [8829]);
  ("SucceedsTilde;", [8831]); ("succeq;", [10928]);
  ("succnapprox;", [10938]); ("succneqq;", [10934]); ("succnsim;", [8937]);
  ("succsim;", [8831]); ("SuchThat;", [8715]); ("Sum;", [8721]);
  ("sum;", [8721]); ("sung;", [9834]); ("sup1", [185]); ("sup1;", [185]);
  ("sup2", [178]); ("sup2;", [178]); ("sup3", [179]); ("sup3;", [179]);
  ("Sup;", [8913]); ("sup;", [8835]); ("supdot;", [10942]);
  ("supdsub;", [10968]); ("supE;", [10950]); ("supe;", [8839]);
  ("supedot;", [10948]); ("Superset;", [8835]); ("SupersetEqual;", [8839]);
  ("suphsol;", [10185]); ("suphsub;", [10967]); ("suplarr;", [10619]);
  ("supmult;", [10946]); ("supnE;", [10956]); ("supne;", [8843]);
  ("supplus;", [10944]); ("Supset;", [8913]); ("supset;", [8835]);
  ("supseteq;", [8839]); ("supseteqq;", [10950]); ("supsetneq;", [8843]);
  ("supsetneqq;", [10956]); ("supsim;", [10952]); ("supsub;", [10964]);
  ("supsup;", [10966]); ("swarhk;", [10534]); ("swArr;", [8665]);
  ("swarr;", [8601]); ("swarrow;", [8601]); ("swnwar;", [10538]);
  ("szlig", [223]); ("szlig;", [223]); ("Tab;", [9]); ("target;", [8982]);
  ("Tau;", [932]); ("tau;", [964]); ("tbrk;", [9140]); ("Tcaron;", [356]);
  ("tcaron;", [357]); ("Tcedil;", [354]); ("tcedil;", [355]);
  ("Tcy;", [1058]); ("tcy;", [1090]); ("tdot;", [8411]); ("telrec;", [8981]);
  ("Tfr;", [120087]); ("tfr;", [120113]); ("there4;", [8756]);
  ("Therefore;", [8756]); ("therefore;", [8756]); ("Theta;", [920]);
  ("theta;", [952]); ("thetasym;", [977]); ("thetav;", [977]);
  ("thickapprox;", [8776]); ("thicksim;", [8764]);
  ("ThickSpace;", [8287; 8202]); ("thinsp;", [8201]); ("ThinSpace;", [8201]);
  ("thkap;", [8776]); ("thksim;", [8764]); ("THORN", [222]);
  ("thorn", [254]); ("THORN;", [222]); ("thorn;", [254]); ("Tilde;", [8764]);
  ("tilde;", [732]); ("TildeEqual;", [8771]); ("TildeFullEqual;", [8773]);
  ("TildeTilde;", [8776]); ("times", [215]); ("times;", [215]);
  ("timesb;", [8864]); ("timesbar;", [10801]); ("timesd;", [10800]);
  ("tint;", [8749]); ("toea;", [10536]); ("top;", [8868]);
  ("topbot;", [9014]); ("topcir;", [10993]); ("Topf;", [120139]);
  ("topf;", [120165]); ("topfork;", [10970]); ("tosa;", [10537]);
  ("tprime;", [8244]); ("TRADE;", [8482]); ("trade;", [8482]);
  ("triangle;", [9653]); ("triangledown;", [9663]);
  ("triangleleft;", [9667]); ("trianglelefteq;", [8884]);
  ("triangleq;", [8796]); ("triangleright;", [9657]);
  ("trianglerighteq;", [8885]); ("tridot;", [9708]); ("trie;", [8796]);
  ("triminus;", [10810]); ("TripleDot;", [8411]); ("triplus;", [10809]);
  ("trisb;", [10701]); ("tritime;", [10811]); ("trpezium;", [9186]);
  ("Tscr;", [119983]); ("tscr;", [120009]); ("TScy;", [1062]);
  ("tscy;", [1094]); ("TSHcy;", [1035]); ("tshcy;", [1115]);
  ("Tstrok;", [358]); ("tstrok;", [359]); ("twixt;", [8812]);
  ("twoheadleftarrow;", [8606]); ("twoheadrightarrow;", [8608]);
  ("Uacute", [218]); ("uacute", [250]); ("Uacute;", [218]);
  ("uacute;", [250]); ("Uarr;", [8607]); ("uArr;", [8657]);
  ("uarr;", [8593]); ("Uarrocir;", [10569]); ("Ubrcy;", [1038]);
  ("ubrcy;", [1118]); ("Ubreve;", [364]); ("ubreve;", [365]);
  ("Ucirc", [219]); ("ucirc", [251]); ("Ucirc;", [219]); ("ucirc;", [251]);
  ("Ucy;", [1059]); ("ucy;", [1091]); ("udarr;", [8645]); ("Udblac;", [368]);
  ("udblac;", [369]); ("udhar;", [10606]); ("ufisht;", [10622]);
  ("Ufr;", [120088]); ("ufr;", [120114]); ("Ugrave", [217]);
  ("ugrave", [249]); ("Ugrave;", [217]); ("ugrave;", [249]);
  ("uHar;", [10595]); ("uharl;", [8639]); ("uharr;", [8638]);
  ("uhblk;", [9600]); ("ulcorn;", [8988]); ("ulcorner;", [8988]);
  ("ulcrop;", [8975]); ("ultri;", [9720]); ("Umacr;", [362]);
  ("umacr;", [363]); ("uml", [168]); ("uml;", [168]); ("UnderBar;", [95]);
  ("UnderBrace;", [9183]); ("UnderBracket;", [9141]);
  ("UnderParenthesis;", [9181]); ("Union;", [8899]); ("UnionPlus;", [8846]);
  ("Uogon;", [370]); ("uogon;", [371]); ("Uopf;", [120140]);
  ("uopf;", [120166]); ("UpArrow;", [8593]); ("Uparrow;", [8657]);
  ("uparrow;", [8593]); ("UpArrowBar;", [10514]);
  ("UpArrowDownArrow;", [8645]); ("UpDownArrow;", [8597]);
  ("Updownarrow;", [8661]); ("updownarrow;", [8597]);
  ("UpEquilibrium;", [10606]); ("upharpoonleft;", [8639]);
  ("upharpoonright;", [8638]); ("uplus;", [8846]);
  ("UpperLeftArrow;", [8598]); ("UpperRightArrow;", [8599]);
  ("Upsi;", [978]); ("upsi;", [965]); ("upsih;", [978]); ("Upsilon;", [933]);
  ("upsilon;", [965]); ("UpTee;", [8869]); ("UpTeeArrow;", [8613]);
  ("upuparrows;", [8648]); ("urcorn;", [8989]); ("urcorner;", [8989]);
  ("urcrop;", [8974]); ("Uring;", [366]); ("uring;", [367]);
  ("urtri;", [9721]); ("Uscr;", [119984]); ("uscr;", [120010]);
  ("utdot;", [8944]); ("Utilde;", [360]); ("utilde;", [361]);
  ("utri;", [9653]); ("utrif;", [9652]); ("uuarr;", [8648]); ("Uuml", [220]);
  ("uuml", [252]); ("Uuml;", [220]); ("uuml;", [252]); ("uwangle;", [10663]);
  ("vangrt;", [10652]); ("varepsilon;", [1013]); ("varkappa;", [1008]);
  ("varnothing;", [8709]); ("varphi;", [981]); ("varpi;", [982]);
  ("varpropto;", [8733]); ("vArr;", [8661]); ("varr;", [8597]);
  ("varrho;", [1009]); ("varsigma;", [962]);
  ("varsubsetneq;", [8842; 65024]); ("varsubsetneqq;", [10955; 65024]);
  ("varsupsetneq;", [8843; 65024]); ("varsupsetneqq;", [10956; 65024]);
  ("vartheta;", [977]); ("vartriangleleft;", [8882]);
  ("vartriangleright;", [8883]); ("Vbar;", [10987]); ("vBar;", [10984]);
  ("vBarv;", [10985]); ("Vcy;", [1042]); ("vcy;", [1074]);
  ("VDash;", [8875]); ("Vdash;", [8873]); ("vDash;", [8872]);
  ("vdash;", [8866]); ("Vdashl;", [10982]); ("Vee;", [8897]);
  ("vee;", [8744]); ("veebar;", [8891]); ("veeeq;", [8794]);
  ("vellip;", [8942]); ("Verbar;", [8214]); ("verbar;", [124]);
  ("Vert;", [8214]); ("vert;", [124]); ("VerticalBar;", [8739]);
  ("VerticalLine;", [124]); ("VerticalSeparator;", [10072]);
  ("VerticalTilde;", [8768]); ("VeryThinSpace;", [8202]); ("Vfr;", [120089]);
  ("vfr;", [120115]); ("vltri;", [8882]); ("vnsub;", [8834; 8402]);
  ("vnsup;", [8835; 8402]); ("Vopf;", [120141]); ("vopf;", [120167]);
  ("vprop;", [8733]); ("vrtri;", [8883]); ("Vscr;", [119985]);
  ("vscr;", [120011]); ("vsubnE;", [10955; 65024]);
  ("vsubne;", [8842; 65024]); ("vsupnE;", [10956; 65024]);
  ("vsupne;", [8843; 65024]); ("Vvdash;", [8874]); ("vzigzag;", [10650]);
  ("Wcirc;", [372]); ("wcirc;", [373]); ("wedbar;", [10847]);
  ("Wedge;", [8896]); ("wedge;", [8743]); ("wedgeq;", [8793]);
  ("weierp;", [8472]); ("Wfr;", [120090]); ("wfr;", [120116]);
  ("Wopf;", [120142]); ("wopf;", [120168]); ("wp;", [8472]); ("wr;", [8768]);
  ("wreath;", [8768]); ("Wscr;", [119986]); ("wscr;", [120012]);
  ("xcap;", [8898]); ("xcirc;", [9711]); ("xcup;", [8899]);
  ("xdtri;", [9661]); ("Xfr;", [120091]); ("xfr;", [120117]);
  ("xhArr;", [10234]); ("xharr;", [10231]); ("Xi;", [926]); ("xi;", [958]);
  ("xlArr;", [10232]); ("xlarr;", [10229]); ("xmap;", [10236]);
  ("xnis;", [8955]); ("xodot;", [10752]); ("Xopf;", [120143]);
  ("xopf;", [120169]); ("xoplus;", [10753]); ("xotime;", [10754]);
  ("xrArr;", [10233]); ("xrarr;", [10230]); ("Xscr;", [119987]);
  ("xscr;", [120013]); ("xsqcup;", [10758]); ("xuplus;", [10756]);
  ("xutri;", [9651]); ("xvee;", [8897]); ("xwedge;", [8896]);
  ("Yacute", [221]); ("yacute", [253]); ("Yacute;", [221]);
  ("yacute;", [253]); ("YAcy;", [1071]); ("yacy;", [1103]);
  ("Ycirc;", [374]); ("ycirc;", [375]); ("Ycy;", [1067]); ("ycy;", [1099]);
  ("yen", [165]); ("yen;", [165]); ("Yfr;", [120092]); ("yfr;", [120118]);
  ("YIcy;", [1031]); ("yicy;", [1111]); ("Yopf;", [120144]);
  ("yopf;", [120170]); ("Yscr;", [119988]); ("yscr;", [120014]);
  ("YUcy;", [1070]); ("yucy;", [1102]); ("yuml", [255]); ("Yuml;", [376]);
  ("yuml;", [255]); ("Zacute;", [377]); ("zacute;", [378]);
  ("Zcaron;", [381]); ("zcaron;", [382]); ("Zcy;", [1047]); ("zcy;", [1079]);
  ("Zdot;", [379]); ("zdot;", [380]); ("zeetrf;", [8488]);
  ("ZeroWidthSpace;", [8203]); ("Zeta;", [918]); ("zeta;", [950]);
  ("Zfr;", [8488]); ("zfr;", [120119]); ("ZHcy;", [1046]); ("zhcy;", [1078]);
  ("zigrarr;", [8669]); ("Zopf;", [8484]); ("zopf;", [120171]);
  ("Zscr;", [119989]); ("zscr;", [120015]); ("zwj;", [8205]);
  ("zwnj;", [8204])
]%string.

(** [name in _html5] and [_html5[name]] *)
Definition html5_get (name : str) : option str :=
  option_map snd (find (fun kv => str_eqb (lit (fst kv)) name) html5).

Definition invalid_charrefs : list (N * str) := [
  (0, [65533]); (13, [13]); (128, [8364]); (129, [129]); (130, [8218]);
  (131, [402]); (132, [8222]); (133, [8230]); (134, [8224]); (135, [8225]);
  (136, [710]); (137, [8240]); (138, [352]); (139, [8249]); (140, [338]);
  (141, [141]); (142, [381]); (143, [143]); (144, [144]); (145, [8216]);
  (146, [8217]); (147, [8220]); (148, [8221]); (149, [8226]); (150, [8211]);
  (151, [8212]); (152, [732]); (153, [8482]); (154, [353]); (155, [8250]);
  (156, [339]); (157, [157]); (158, [382]); (159, [376])
].

Definition invalid_charrefs_get (num : N) : option str :=
  option_map snd (find (fun kv => fst kv =? num) invalid_charrefs).

Definition invalid_codepoints : list N := [
  1; 2; 3; 4; 5; 6; 7; 8; 14; 15; 16; 17; 18; 19; 20; 21; 22; 23; 24; 25; 26;
  27; 28; 29; 30; 31; 127; 128; 129; 130; 131; 132; 133; 134; 135; 136; 137;
  138; 139; 140; 141; 142; 143; 144; 145; 146; 147; 148; 149; 150; 151; 152;
  153; 154; 155; 156; 157; 158; 159; 64976; 64977; 64978; 64979; 64980;
  64981; 64982; 64983; 64984; 64985; 64986; 64987; 64988; 64989; 64990;
  64991; 64992; 64993; 64994; 64995; 64996; 64997; 64998; 64999; 65000;
  65001; 65002; 65003; 65004; 65005; 65006; 65007; 11; 65534; 65535; 131070;
  131071; 196606; 196607; 262142; 262143; 327678; 327679; 393214; 393215;
  458750; 458751; 524286; 524287; 589822; 589823; 655358; 655359; 720894;
  720895; 786430; 786431; 851966; 851967; 917502; 917503; 983038; 983039;
  1048574; 1048575; 1114110; 1114111
].

(** The value of a digit: [0-9], then letters of either case from 10. *)
Definition digit_value (c : char) : option N :=
  if (48 <=? c) && (c <=? 57) then Some (c - 48)
  else if (97 <=? c) && (c <=? 122) then Some (c - 87)
  else if (65 <=? c) && (c <=? 90) then Some (c - 55)
  else None.

Fixpoint int_from (base acc : N) (s : str) : option N :=
  match s with
  | [] => Some acc
  | c :: s' =>
      match digit_value c with
      | Some d => if d <? base then int_from base (acc * base + d) s' else None
      | None => None
      end
  end.

(** [sys.int_info.default_max_str_digits]: the longest literal that
    [int()] converts when the base is not a power of two. *)
Definition max_str_digits : nat := 4300.

Definition power_of_two (base : N) : bool :=
  (base =? 2) || (base =? 4) || (base =? 8) || (base =? 16) || (base =? 32).

(** [int(s, base)] on a plain digit string: [ValueError] on a literal that
    is empty, that has a character which is no digit of the base, or that
    is longer than [max_str_digits] in a base that is not a power of two.
    Python also accepts a sign, surrounding white space, underscores and a
    base prefix; the pattern [charref] lets no such literal reach the two
    calls of [replace_charref]. *)
Definition int (base : N) (s : str) : result N :=
  match s with
  | [] => Raise (ValueError s)
  | _ :: _ =>
      if negb (power_of_two base) && (max_str_digits <? length s)%nat
      then Raise (ValueError s)
      else
        match int_from base 0 s with
        | Some n => Ok n
        | None => Raise (ValueError s)
        end
  end.

Definition amp : char := 38.
Definition hash : char := 35.
Definition semicolon : char := 59.

Definition digits : cset := mkcset false [(48, 57)].
Definition hexdigits : cset := mkcset false [(48, 57); (97, 102); (65, 70)].

(** [_charref]:
    [&(#[0-9]+;?|#[xX][0-9a-fA-F]+;?|[^\t\n\f <&#;]{1,32};?)] *)
Definition charref_decimal : regex :=
  seq [Lit [hash]; Rep digits 1 None; Rep (any_of [semicolon]) 0 (Some 1%nat)].

Definition charref_hex : regex :=
  seq [Lit [hash]; Rep (any_of [120; 88]) 1 (Some 1%nat);
       Rep hexdigits 1 None; Rep (any_of [semicolon]) 0 (Some 1%nat)].

Definition charref_named : regex :=
  seq [Rep (none_of [9; 10; 12; 32; 60; amp; hash; semicolon]) 1 (Some 32%nat);
       Rep (any_of [semicolon]) 0 (Some 1%nat)].

Definition charref : regex :=
  Cat (Lit [amp])
      (Group (Alt charref_decimal (Alt charref_hex charref_named))).

(** The loop [for x in range(len(s)-1, 1, -1)] of [_replace_charref]:
    the longest proper prefix of [s], of two characters at least, that
    names a character reference. *)
Fixpoint longest_name (s : str) (x : nat) : option str :=
  match x with
  | S (S _ as x') =>
      match html5_get (firstn x s) with
      | Some v => Some (v ++ skipn x s)
      | None => longest_name s x'
      end
  | _ => None
  end.

(** [_replace_charref] *)
Definition replace_charref (m : match_obj) : result str :=
  let s := group1 m in
  match s with
  | [] => Raise IndexError
  | c0 :: s1 =>
      if c0 =? hash then
        match s1 with
        | [] => Raise IndexError
        | c1 :: s2 =>
            rbind
              (if (c1 =? 120) || (c1 =? 88)
               then int 16 (rstrip [semicolon] s2)
               else int 10 (rstrip [semicolon] s1))
              (fun num =>
                 match invalid_charrefs_get num with
                 | Some v => Ok v
                 | None =>
                     if (55296 <=? num) && (num <=? 57343) || (1114111 <? num)
                     then Ok [65533]
                     else if existsb (N.eqb num) invalid_codepoints
                     then Ok []
                     else Ok [num]
                 end)
        end
      else
        match html5_get s with
        | Some v => Ok v
        | None =>
            match longest_name s (length s - 1) with
            | Some v => Ok v
            | None => Ok (amp :: s)
            end
        end
  end.

(** [html.unescape] *)
Definition unescape (s : str) : result str :=
  if negb (contains [amp] s) then Ok s
  else sub charref replace_charref s.

End Html.

(* ================================================================== *)
(** ** [urllib.parse.quote] *)
(* ================================================================== *)

Module Urllib.

Local Open Scope N_scope.

Definition is_surrogate (c : char) : bool := (55296 <=? c) && (c <=? 57343).

(** The UTF-8 bytes of one code point. *)
Definition utf8_char (c : char) : list N :=
  if c <? 128 then [c]
  else if c <? 2048 then [192 + c / 64; 128 + c mod 64]
  else if c <? 65536 then
    [224 + c / 4096; 128 + (c / 64) mod 64; 128 + c mod 64]
  else
    [240 + c / 262144; 128 + (c / 4096) mod 64; 128 + (c / 64) mod 64;
     128 + c mod 64].

(** Offsets [(start, stop)] of the first run of surrogates of [s], where
    [i] is the offset of the head of [s]. *)
Fixpoint first_surrogates (i : nat) (s : str) : option (nat * nat) :=
  match s with
  | [] => None
  | c :: s' =>
      if is_surrogate c
      then Some (i, (S i + (length s' - length (dropwhile is_surrogate s')))%nat)
      else first_surrogates (S i) s'
  end.

(** [s.encode('utf-8', 'strict')] *)
Definition encode_utf8 (s : str) : result (list N) :=
  match first_surrogates 0 s with
  | Some (start, stop) => Raise (UnicodeEncodeError s start stop)
  | None => Ok (flat_map utf8_char s)
  end.

(** [_ALWAYS_SAFE]: letters, digits and [_.-~] *)
Definition always_safe (b : N) : bool :=
  (65 <=? b) && (b <=? 90) || (97 <=? b) && (b <=? 122)
  || (48 <=? b) && (b <=? 57)
  || (b =? 95) || (b =? 46) || (b =? 45) || (b =? 126).

Definition hex_upper (d : N) : char :=
  if d <? 10 then 48 + d else 55 + d.

(** One byte through the quoter: itself when safe, [%XX] otherwise. *)
Definition quote_byte (safe : str) (b : N) : str :=
  if always_safe b || existsb (N.eqb b) safe then [b]
  else [37; hex_upper (b / 16); hex_upper (b mod 16)].

(** [urllib.parse.quote(string, safe=safe)] for a [str] argument and an
    ASCII [safe]. *)
Definition quote (string safe : str) : result str :=
  match string with
  | [] => Ok string
  | _ :: _ => rmap (flat_map (quote_byte safe)) (encode_utf8 string)
  end.

End Urllib.

(* ================================================================== *)
(** ** [requests] *)
(* ================================================================== *)

Module Requests.

Local Open Scope N_scope.

(** The arguments of one [requests.get] call. *)
Record Request := mkRequest {
  req_url : str;
  req_headers : list (str * str);
  req_allow_redirects : bool;
  req_timeout : N
}.

(** The part of [requests.Response] the program reads. *)
Record Response := mkResponse {
  status_code : N;
  text : str
}.

(** The world outside: what one [requests.get] call comes back with, a
    response or an exception. *)
Definition network := Request -> result Response.

(** [response.raise_for_status()]: [HTTPError] on a client error (4xx) or
    a server error (5xx) status, nothing otherwise. *)
Definition raise_for_status (r : Response) : result unit :=
  if (400 <=? status_code r) && (status_code r <? 600)
  then Raise (HTTPError (status_code r))
  else Ok tt.

End Requests.

(* ================================================================== *)
(** ** JSON values and responses *)
(* ================================================================== *)

Module Json.

(** JSON as the handlers build it; an object keeps the order in which the
    [dict] literal lists its keys. *)
Inductive json :=
| JNull
| JString (s : str)
| JObject (fields : list (str * json)).

(** A [JSONResponse] object: the content it was built from and its
    status code. *)
Record JSONResponse := mkJSONResponse {
  content : json;
  resp_status : N
}.

Definition hex_lower (d : N) : char :=
  if (d <? 10)%N then (48 + d)%N else (87 + d)%N.

(** One character inside a JSON string, as [json.dumps] writes it with
    [ensure_ascii=False]: the quote, the backslash and the control
    characters are escaped, every other character stands for itself. *)
Definition escape_char (c : char) : str :=
  if (c =? 34)%N then [92; 34]%N
  else if (c =? 92)%N then [92; 92]%N
  else if (c =? 10)%N then [92; 110]%N
  else if (c =? 13)%N then [92; 114]%N
  else if (c =? 9)%N then [92; 116]%N
  else if (c =? 8)%N then [92; 98]%N
  else if (c =? 12)%N then [92; 102]%N
  else if (c <? 32)%N then
    [92; 117; 48; 48; hex_lower (c / 16); hex_lower (c mod 16)]%N
  else [c].

(** A string between quotes. *)
Definition encode_basestring (s : str) : str :=
  [dquote] ++ flat_map escape_char s ++ [dquote].

(** [json.dumps(content, ensure_ascii=False, allow_nan=False, indent=None,
    separators=(",", ":"))] *)
Fixpoint dumps (j : json) : str :=
  match j with
  | JNull => lit "null"
  | JString s => encode_basestring s
  | JObject fields =>
      let member (kv : str * json) : str :=
        encode_basestring (fst kv) ++ lit ":" ++ dumps (snd kv) in
      let fix members (fs : list (str * json)) : str :=
        match fs with
        | [] => []
        | [kv] => member kv
        | kv :: fs' => member kv ++ lit "," ++ members fs'
        end in
      lit "{" ++ members fields ++ lit "}"
  end.

(** [JSONResponse.render]: the body, [dumps] encoded as UTF-8. *)
Definition render (content : json) : result (list N) :=
  Urllib.encode_utf8 (dumps content).

(** [fastapi.responses.JSONResponse(content=..., status_code=...)]: the
    constructor renders the body, so it raises when rendering does. *)
Definition JSONResponse_init (content : json) (status_code : N)
  : result JSONResponse :=
  rbind (render content) (fun _ => Ok (mkJSONResponse content status_code)).

(** [obj[key]] on a JSON object; [None] when [obj] is not an object or
    has no such key. *)
Definition field (key : str) (obj : json) : option json :=
  match obj with
  | JObject fs => option_map snd (find (fun kv => str_eqb (fst kv) key) fs)
  | _ => None
  end.

(** A value decoded from a JSON request body (numbers are integers here). *)
Inductive pyval :=
| VNone
| VBool (b : bool)
| VInt (n : N)
| VStr (s : str)
| VList (items : list pyval)
| VDict (items : list (str * pyval)).

(** Truth value: what [not v] negates. *)
Definition val_truthy (v : pyval) : bool :=
  match v with
  | VNone => false
  | VBool b => b
  | VInt n => negb (n =? 0)%N
  | VStr s => truthy s
  | VList l => match l with [] => false | _ => true end
  | VDict d => match d with [] => false | _ => true end
  end.

(** [d.get(key)] on a [dict] keyed by strings. *)
Definition dict_get (key : str) (d : list (str * pyval)) : pyval :=
  match find (fun kv => str_eqb (fst kv) key) d with
  | Some kv => snd kv
  | None => VNone
  end.

End Json.

(* ================================================================== *)
(** ** The handlers of [api/index.py] *)
(* ================================================================== *)

Module Api.

Import Re Requests Json.

(** *** Effects: exceptions and the trace of outbound requests *)

Definition trace := list Request.

Definition M (A : Type) : Type := trace -> result A * trace.

Definition ret {A} (a : A) : M A := fun t => (Ok a, t).

Definition bind {A B} (c : M A) (f : A -> M B) : M B :=
  fun t =>
    match c t with
    | (Ok a, t') => f a t'
    | (Raise e, t') => (Raise e, t')
    end.

Definition raise {A} (e : exn) : M A := fun t => (Raise e, t).

Definition lift {A} (r : result A) : M A := fun t => (r, t).

(** [try: body except ... as e: handler e] *)
Definition try_except {A} (body : M A) (handler : exn -> M A) : M A :=
  fun t =>
    match body t with
    | (Ok a, t') => (Ok a, t')
    | (Raise e, t') => handler e t'
    end.

(** [requests.get(url, headers=..., allow_redirects=..., timeout=...)]:
    one request goes out, and is recorded. *)
Definition requests_get (net : network) (url : str) (headers : list (str * str))
    (allow_redirects : bool) (timeout : N) : M Response :=
  fun t =>
    let req := mkRequest url headers allow_redirects timeout in
    (net req, t ++ [req]).

Notation "x <- c ;; k" := (bind c (fun x => k))
  (at level 61, c at next level, right associativity).

(** Running a handler from an empty trace. *)
Definition exec {A} (c : M A) : result A * trace := c [].

(** *** Patterns

    Each pattern of the source is given token by token; [Q] stands for
    the double quote character. *)

Definition not_gt : cset := none_of [62%N].
Definition not_quote : cset := none_of [dquote].

(** [video_pattern]:
    [<a]  [[^>]+]  [href=Q]  [(]  [[^Q]+]  [\.mp4]  [[^Q]*]  [)]  [Q]  [[^>]*]  [>] *)
Definition video_pattern : regex :=
  seq [Lit (lit "<a"); Rep not_gt 1 None; Lit (lit "href=" ++ [dquote]);
       Group (seq [Rep not_quote 1 None; Lit (lit ".mp4"); Rep not_quote 0 None]);
       Lit [dquote]; Rep not_gt 0 None; Lit (lit ">")].

(** [thumb_base64_pattern]:
    [<img]  [[^>]+]  [src=Qdata:image\/jpg;base64,]  [(]  [[^Q]+]  [)]  [Q] *)
Definition thumb_base64_pattern : regex :=
  seq [Lit (lit "<img"); Rep not_gt 1 None;
       Lit (lit "src=" ++ [dquote] ++ lit "data:image/jpg;base64,");
       Group (Rep not_quote 1 None); Lit [dquote]].

(** [thumb_pattern]:
    [<a]  [[^>]+]  [href=Q]  [(]  [[^Q]+]  [\.jpg]  [[^Q]*]  [)]  [Q]  [[^>]*]  [>] *)
Definition thumb_pattern : regex :=
  seq [Lit (lit "<a"); Rep not_gt 1 None; Lit (lit "href=" ++ [dquote]);
       Group (seq [Rep not_quote 1 None; Lit (lit ".jpg"); Rep not_quote 0 None]);
       Lit [dquote]; Rep not_gt 0 None; Lit (lit ">")].

(** [alt_thumb_pattern]:
    [<img]  [[^>]+]  [src=Q]  [(]  [[^Q]+]  [\.jpg]  [[^Q]*]  [)]  [Q]  [[^>]*]  [>] *)
Definition alt_thumb_pattern : regex :=
  seq [Lit (lit "<img"); Rep not_gt 1 None; Lit (lit "src=" ++ [dquote]);
       Group (seq [Rep not_quote 1 None; Lit (lit ".jpg"); Rep not_quote 0 None]);
       Lit [dquote]; Rep not_gt 0 None; Lit (lit ">")].

(** *** GET /api/download *)

Definition request_headers : list (str * str) :=
  [ (lit "User-Agent",
     lit "Mozilla/5.0 (Windows NT 10.0; Win64; x64) AppleWebKit/537.36 (KHTML, like Gecko) Chrome/120.0.0.0 Safari/537.36");
    (lit "Accept",
     lit "text/html,application/xhtml+xml,application/xml;q=0.9,image/webp,*/*;q=0.8");
    (lit "Accept-Language", lit "en-US,en;q=0.5");
    (lit "Accept-Encoding", lit "gzip, deflate, br");
    (lit "Connection", lit "keep-alive");
    (lit "Upgrade-Insecure-Requests", lit "1") ].

Definition target_prefix : str :=
  lit "https://snapdownloader.com/tools/instagram-reels-downloader/download?url=".

Definition data_uri_prefix : str := lit "data:image/jpg;base64,".

(** Step 4: [video_url] *)
Definition extract_video_url (text : str) : result str :=
  match search video_pattern text with
  | Some video_match => Html.unescape (group1 video_match)
  | None => Ok []
  end.

(** Step 5, method 1: [thumb_base64], [None] when the pattern is absent *)
Definition extract_thumb_base64 (text : str) : option str :=
  match search thumb_base64_pattern text with
  | Some thumb_base64_match => Some (group1 thumb_base64_match)
  | None => None
  end.

(** Step 5, methods 2 and 3: [thumb_url] *)
Definition extract_thumb_url (text : str) : result str :=
  rbind
    (match search thumb_pattern text with
     | Some thumb_match => Html.unescape (group1 thumb_match)
     | None => Ok []
     end)
    (fun thumb_url =>
       if negb (truthy thumb_url) then
         match search alt_thumb_pattern text with
         | Some alt_thumb_match => Html.unescape (group1 alt_thumb_match)
         | None => Ok []
         end
       else Ok thumb_url).

(** The [thumbnail_base64] field of the answer. *)
Definition thumbnail_base64_field (thumb_base64 : option str) : json :=
  match thumb_base64 with
  | Some payload =>
      if truthy payload then JString (data_uri_prefix ++ payload) else JNull
  | None => JNull
  end.

(** Step 6, the content of the answer when a video was found. *)
Definition success_content (video_url thumb_url : str)
    (thumb_base64 : option str) (url : str) : json :=
  JObject
    [ (lit "status", JString (lit "success"));
      (lit "data",
       JObject
         [ (lit "video_url", JString video_url);
           (lit "thumbnail_url", JString thumb_url);
           (lit "thumbnail_base64", thumbnail_base64_field thumb_base64);
           (lit "original_url", JString url) ]);
      (lit "message", JString (lit "Video extracted successfully")) ].

(** Step 6, the content of the answer when no video was found. *)
Definition not_found_content : json :=
  JObject
    [ (lit "status", JString (lit "error"));
      (lit "message",
       JString (lit "Unable to extract video from the provided URL"));
      (lit "data", JNull) ].

(** The two answers, as the constructor gives them when it returns. *)
Definition success_response (video_url thumb_url : str)
    (thumb_base64 : option str) (url : str) : JSONResponse :=
  mkJSONResponse (success_content video_url thumb_url thumb_base64 url) 200.

Definition not_found_response : JSONResponse :=
  mkJSONResponse not_found_content 404.

(** Steps 4 to 6: what the handler makes of the text of the upstream
    response.  Unescaping a link and building the answer may raise. *)
Definition extract_and_answer (text url : str) : result JSONResponse :=
  rbind (extract_video_url text) (fun video_url =>
  let thumb_base64 := extract_thumb_base64 text in
  rbind (extract_thumb_url text) (fun thumb_url =>
  if truthy video_url
  then JSONResponse_init
         (success_content video_url thumb_url thumb_base64 url) 200
  else JSONResponse_init not_found_content 404)).

(** The body of the [try] statement: steps 2 to 6. *)
Definition fetch_and_extract (net : network) (url : str) : M JSONResponse :=
  encoded_url <- lift (Urllib.quote url []) ;;
  let target_url := target_prefix ++ encoded_url in
  response <- requests_get net target_url request_headers true 25 ;;
  _ <- lift (raise_for_status response) ;;
  lift (extract_and_answer (text response) url).

(** The three [except] clauses, in their order. *)
Definition on_exception (e : exn) : M JSONResponse :=
  if is_Timeout e then
    raise (HTTPException 408
             (Text (lit "Request timeout - the external service took too long to respond")))
  else if is_RequestException e then
    raise (HTTPException 500 (Fmt (lit "Failed to fetch data: ") e))
  else
    raise (HTTPException 500 (Fmt (lit "An unexpected error occurred: ") e)).

Definition download_instagram_content (net : network) (url : str)
  : M JSONResponse :=
  if negb (truthy url) || str_eqb (strip url) [] then
    raise (HTTPException 400 (Text (lit "Missing Instagram URL")))
  else if negb (contains (lit "instagram.com") url
                || contains (lit "instagr.am") url) then
    raise (HTTPException 400 (Text (lit "Invalid Instagram URL")))
  else
    try_except (fetch_and_extract net url) on_exception.

(** *** POST /api/download *)

(** The call [download_instagram_content(url)] for a value that need not be
    a string: the truth test passes for every truthy value, and [url.strip]
    exists on strings only. *)
Definition download_instagram_content_dyn (net : network) (url : pyval)
  : M JSONResponse :=
  match url with
  | VStr s => download_instagram_content net s
  | _ =>
      if negb (val_truthy url) then
        raise (HTTPException 400 (Text (lit "Missing Instagram URL")))
      else raise (AttributeError (lit "strip"))
  end.

Definition download_instagram_content_post (net : network)
    (request_data : list (str * pyval)) : M JSONResponse :=
  let url := dict_get (lit "url") request_data in
  if negb (val_truthy url) then
    raise (HTTPException 400 (Text (lit "Missing 'url' field in request body")))
  else download_instagram_content_dyn net url.

(** *** What the framework sends *)

(** The status code of the HTTP answer: that of the response returned, that
    of an [HTTPException], and 500 for any other exception. *)
Definition http_status (r : result JSONResponse) : N :=
  match r with
  | Ok resp => resp_status resp
  | Raise (HTTPException code _) => code
  | Raise _ => 500
  end.

End Api.

(* ================================================================== *)
(** ** The vocabulary of the specification *)
(* ================================================================== *)

Module Spec.

Import Re Requests Json Api.

(** [sub] is a (case-sensitive) substring of [s]. *)
Definition substring (sub s : str) : Prop :=
  exists pre post, s = pre ++ sub ++ post.

(** Empty, or made of white space only. *)
Definition whitespace_only (s : str) : Prop :=
  Forall (fun c => isspace c = true) s.

Definition names_instagram (url : str) : Prop :=
  substring (lit "instagram.com") url \/ substring (lit "instagr.am") url.

(** An input that passes validation. *)
Definition validated (url : str) : Prop :=
  ~ whitespace_only url /\ names_instagram url.

Definition free_of (c : char) (s : str) : Prop := ~ In c s.

Definition gt_sign : char := 62%N.

(** [w] is an opening tag, started by [tag], that carries the
    double-quoted attribute [attr] with value [value], where [value] has
    the extension [ext] after one character at least, optionally followed
    by more characters. *)
Definition tag_with_link (tag attr ext w value : str) : Prop :=
  exists t1 g1 g2 t2,
    w = tag ++ t1 ++ (attr ++ [dquote]) ++ value ++ [dquote] ++ t2 ++ [gt_sign] /\
    value = g1 ++ ext ++ g2 /\
    t1 <> [] /\ free_of gt_sign t1 /\
    g1 <> [] /\ free_of dquote g1 /\ free_of dquote g2 /\
    free_of gt_sign t2.

Definition mp4_anchor : str -> str -> Prop :=
  tag_with_link (lit "<a") (lit "href=") (lit ".mp4").

Definition jpg_anchor : str -> str -> Prop :=
  tag_with_link (lit "<a") (lit "href=") (lit ".jpg").

Definition jpg_image : str -> str -> Prop :=
  tag_with_link (lit "<img") (lit "src=") (lit ".jpg").

(** [w] is the start of an image tag whose double-quoted [src] is the
    data URI of [payload]. *)
Definition base64_image (w payload : str) : Prop :=
  exists t1,
    w = lit "<img" ++ t1 ++ (lit "src=" ++ [dquote] ++ data_uri_prefix)
          ++ payload ++ [dquote] /\
    t1 <> [] /\ free_of gt_sign t1 /\
    payload <> [] /\ free_of dquote payload.

(** Some piece of [text] has the shape [P]. *)
Definition occurs (P : str -> str -> Prop) (text : str) : Prop :=
  exists pre w post g, text = pre ++ w ++ post /\ P w g.

(** [w], found after [pre], is a piece of [text] of shape [P] with value
    [g], and no piece of that shape starts further left. *)
Definition first_occurrence (P : str -> str -> Prop)
    (text pre w post g : str) : Prop :=
  text = pre ++ w ++ post /\ P w g /\
  forall pre' w' post' g',
    text = pre' ++ w' ++ post' -> P w' g' -> length pre <= length pre'.

(** The request the handler sends for an encoded URL. *)
Definition request_for (encoded_url : str) : Request :=
  mkRequest (target_prefix ++ encoded_url) request_headers true 25.

(** The upstream answered, and its status is not one that
    [raise_for_status] turns into an exception. *)
Definition upstream_answers (net : network) (url : str) (resp : Response) : Prop :=
  exists encoded_url,
    Urllib.quote url [] = Ok encoded_url /\
    net (request_for encoded_url) = Ok resp /\
    raise_for_status resp = Ok tt.

(** A 2xx status. *)
Definition is_2xx (code : N) : Prop := (200 <= code /\ code <= 299)%N.

(** No lone surrogate: what a decoded query string can hold. *)
Definition well_formed (s : str) : Prop :=
  Forall (fun c => Urllib.is_surrogate c = false) s.

(** The validation of the GET handler, as one boolean. *)
Definition passes_validation (url : str) : bool :=
  negb (negb (truthy url) || str_eqb (strip url) [])
  && (contains (lit "instagram.com") url || contains (lit "instagr.am") url).

(** The sample documents of the specification. *)
Definition lt_sign : char := 60%N.

Definition example_video_url : str :=
  lit "https://cdn.example/video123.mp4?sig=abc".

Definition example_video_anchor : str :=
  lit "<a href=" ++ [dquote] ++ example_video_url ++ [dquote] ++ lit "></a>".

(** The sample anchor again, with an escaped ampersand in its link. *)
Definition example_escaped_anchor : str :=
  lit "<a href=" ++ [dquote] ++ example_video_url ++ lit "&amp;t=1"
    ++ [dquote] ++ lit ">".

Definition example_base64_image : str :=
  lit "<img src=" ++ [dquote] ++ lit "data:image/jpg;base64,AAAA"
    ++ [dquote] ++ lit ">".

(** The two detail messages of a 400 answer to a missing URL. *)
Definition missing_url_detail : detail := Text (lit "Missing Instagram URL").

Definition missing_field_detail : detail :=
  Text (lit "Missing 'url' field in request body").

(** The body [{"url": url}] of a POST request. *)
Definition url_body (url : str) : list (str * pyval) := [(lit "url", VStr url)].

(** [content["data"][key]] of a response. *)
Definition data_field (key : str) (r : JSONResponse) : option json :=
  match field (lit "data") (content r) with
  | Some data => field key data
  | None => None
  end.

(** The success envelope, field by field. *)
Definition success_envelope (video_url thumbnail_url : str)
    (thumbnail_base64 : json) (original_url : str) : json :=
  JObject
    [ (lit "status", JString (lit "success"));
      (lit "data",
       JObject
         [ (lit "video_url", JString video_url);
           (lit "thumbnail_url", JString thumbnail_url);
           (lit "thumbnail_base64", thumbnail_base64);
           (lit "original_url", JString original_url) ]);
      (lit "message", JString (lit "Video extracted successfully")) ].

(** The shape of an answer of status 200. *)
Definition success_shape (r : JSONResponse) : Prop :=
  exists video_url thumbnail_base64,
    data_field (lit "video_url") r = Some (JString video_url) /\
    video_url <> [] /\
    data_field (lit "thumbnail_base64") r = Some thumbnail_base64 /\
    (thumbnail_base64 = JNull \/
     exists payload,
       thumbnail_base64 = JString (lit "data:image/jpg;base64," ++ payload) /\
       free_of dquote payload).

(** Sample inputs: two URLs, and upstreams that always answer with the
    sample anchor under a given status, or always time out. *)
Definition sample_reel_url : str := lit "https://www.instagram.com/reel/abc/".

Definition sample_foreign_url : str := lit "https://example.com/video".

Definition sample_upstream (code : N) (body : str) : network :=
  fun _ => Ok (mkResponse code body).

Definition sample_timeout : network :=
  fun _ => Raise (RequestsTimeout (lit "read timed out")).

(** *** Bodies on which the parsing steps return *)

(** No run of decimal digits of [s] is longer than [int()] converts. *)
Definition short_numbers (s : str) : Prop :=
  forall pre ds post,
    s = pre ++ ds ++ post ->
    Forall (fun c => cset_mem c Html.digits = true) ds ->
    length ds <= Html.max_str_digits.

(** [s] holds a decimal character reference whose digits [ds] are more
    than [int()] converts. *)
Definition long_decimal_reference (ds s : str) : Prop :=
  Forall (fun c => cset_mem c Html.digits = true) ds /\
  Html.max_str_digits < length ds /\
  substring (Html.amp :: Html.hash :: ds) s.

(** An exception that only the last [except] clause catches. *)
Definition unexpected (e : exn) : Prop :=
  is_Timeout e = false /\ is_RequestException e = false.

(** What the last [except] clause raises for the exception [e]. *)
Definition unexpected_error (e : exn) : exn :=
  HTTPException 500 (Fmt (lit "An unexpected error occurred: ") e).

(** What the handler makes of the outcome of steps 4 to 6: an answer is
    returned, an exception goes to the last [except] clause. *)
Definition answer_or_500 (r : result JSONResponse) : result JSONResponse :=
  match r with
  | Ok a => Ok a
  | Raise e => Raise (unexpected_error e)
  end.

(** No piece of [text] of shape [P] starts before offset [n]. *)
Definition none_before (P : str -> str -> Prop) (text : str) (n : nat) : Prop :=
  forall pre w post g,
    text = pre ++ w ++ post -> P w g -> n <= length pre.

(** A decimal character reference of 4301 digits. *)
Definition long_reference : str := lit "&#" ++ repeat 49%N 4301.

(** A body without video link, whose one anchor has a [.jpg] link that
    holds the long reference. *)
Definition sample_long_reference_body : str :=
  lit "<a href=" ++ [dquote] ++ lit "t" ++ long_reference ++ lit ".jpg"
    ++ [dquote] ++ lit ">".

(** A body whose one anchor has an [.mp4] link that holds a lone
    surrogate, U+D800. *)
Definition sample_surrogate_body : str :=
  lit "<a href=" ++ [dquote] ++ [118%N; 55296%N] ++ lit ".mp4"
    ++ [dquote] ++ lit ">".

(** *** Shapes used when reasoning about [html.unescape] *)

Definition dot : char := 46%N.

(** [c] is a digit of the given base. *)
Definition digit_below (base : N) (c : char) : Prop :=
  exists d, Html.digit_value c = Some d /\ (d < base)%N.

(** What the group of [Html.charref] can capture: a decimal reference, a
    hexadecimal one, or a name that does not start with a hash. *)
Inductive charref_group (g : str) : Prop :=
| Decimal ds sc :
    g = Html.hash :: ds ++ sc -> ds <> [] ->
    Forall (fun c => cset_mem c Html.digits = true) ds ->
    Forall (fun c => c = Html.semicolon) sc -> charref_group g
| Hexadecimal x hs sc :
    g = Html.hash :: x :: hs ++ sc -> x = 120%N \/ x = 88%N -> hs <> [] ->
    Forall (fun c => cset_mem c Html.hexdigits = true) hs ->
    Forall (fun c => c = Html.semicolon) sc -> charref_group g
| Named c name :
    g = c :: name -> c <> Html.hash -> charref_group g.

End Spec.

(* ================================================================== *)
(** ** Vocabulary of the further properties *)
(* ================================================================== *)

Module Props.

Import Re Requests Json Api Spec.

Local Open Scope N_scope.

(** A Python [str] holds code points up to U+10FFFF. *)
Definition code_points (s : str) : Prop := Forall (fun c => c <= 1114111) s.

(** A Unicode scalar value: a code point that is not a surrogate.  Text
    made of scalar values is what UTF-8 can carry. *)
Definition is_scalar (c : char) : bool :=
  (c <=? 1114111) && negb (Urllib.is_surrogate c).

Definition unicode_text (s : str) : Prop :=
  Forall (fun c => is_scalar c = true) s.

(** A byte value. *)
Definition byte (b : N) : Prop := b < 256.

Definition percent : char := 37.

(** An upper-case hexadecimal digit. *)
Definition upper_hex (c : char) : bool :=
  (48 <=? c) && (c <=? 57) || (65 <=? c) && (c <=? 70).

(** A percent-encoded string: unreserved characters and escapes [%XX]. *)
Inductive percent_encoded : str -> Prop :=
| pe_nil : percent_encoded []
| pe_plain c s :
    Urllib.always_safe c = true -> percent_encoded s ->
    percent_encoded (c :: s)
| pe_escape h1 h2 s :
    upper_hex h1 = true -> upper_hex h2 = true -> percent_encoded s ->
    percent_encoded (percent :: h1 :: h2 :: s).

(** The status codes the two download handlers answer with. *)
Definition service_codes : list N := [200; 400; 404; 408; 500].

(** [isinstance(v, str)] *)
Definition is_str (v : pyval) : bool :=
  match v with VStr _ => true | _ => false end.

(** The outcome is an answer or an [HTTPException]: nothing is left
    for the framework to turn into a bare 500. *)
Definition handled (r : result JSONResponse) : Prop :=
  match r with
  | Ok _ => True
  | Raise (HTTPException _ _) => True
  | Raise _ => False
  end.

(** Every way the GET handler can end. *)
Inductive get_outcome (net : network) (url : str)
  : result JSONResponse * trace -> Prop :=
| Rejected d :
    ~ validated url ->
    d = missing_url_detail \/ d = Text (lit "Invalid Instagram URL") ->
    get_outcome net url (Raise (HTTPException 400 d), [])
| NotEncodable e :
    validated url -> Urllib.quote url [] = Raise e ->
    get_outcome net url
      (Raise (HTTPException 500 (Fmt (lit "An unexpected error occurred: ") e)),
       [])
| RequestFailed enc e code d :
    validated url -> Urllib.quote url [] = Ok enc ->
    net (request_for enc) = Raise e ->
    on_exception e [request_for enc]
    = (Raise (HTTPException code d), [request_for enc]) ->
    get_outcome net url (Raise (HTTPException code d), [request_for enc])
| StatusRefused enc resp :
    validated url -> Urllib.quote url [] = Ok enc ->
    net (request_for enc) = Ok resp ->
    (400 <= status_code resp < 600) ->
    get_outcome net url
      (Raise (HTTPException 500
                (Fmt (lit "Failed to fetch data: ")
                   (HTTPError (status_code resp)))),
       [request_for enc])
| Answered enc resp r :
    validated url -> Urllib.quote url [] = Ok enc ->
    net (request_for enc) = Ok resp ->
    ~ (400 <= status_code resp < 600) ->
    extract_and_answer (text resp) url = Ok r ->
    get_outcome net url (Ok r, [request_for enc])
| ParseFailed enc resp e :
    validated url -> Urllib.quote url [] = Ok enc ->
    net (request_for enc) = Ok resp ->
    ~ (400 <= status_code resp < 600) ->
    extract_and_answer (text resp) url = Raise e ->
    get_outcome net url (Raise (unexpected_error e), [request_for enc]).

End Props.

(* ================================================================== *)
(** ** Facts about strings *)
(* ================================================================== *)

Unset Implicit Arguments.

Module PyStrFacts.

Lemma str_eqb_eq (a b : str) : str_eqb a b = true <-> a = b.
Proof.
  revert b; induction a as [|x a IH]; intros [|y b]; simpl; split;
    try congruence; try reflexivity.
  - rewrite andb_true_iff, N.eqb_eq, IH. intros [-> ->]. reflexivity.
  - intros H. injection H as -> ->. rewrite N.eqb_refl.
    apply (proj2 (IH b) eq_refl).
Qed.

Lemma str_eqb_refl (a : str) : str_eqb a a = true.
Proof. apply str_eqb_eq. reflexivity. Qed.

Lemma strip_prefix_Some (p s s' : str) :
  strip_prefix p s = Some s' <-> s = p ++ s'.
Proof.
  revert s; induction p as [|x p IH]; intros s; simpl.
  - split; congruence.
  - destruct s as [|y s].
    + split; discriminate.
    + destruct (N.eqb_spec x y) as [->|Hne].
      * rewrite IH. split; [intros ->; reflexivity | congruence].
      * split; [discriminate | intros H; injection H as H _; congruence].
Qed.

Lemma strip_prefix_app (p s : str) : strip_prefix p (p ++ s) = Some s.
Proof. apply strip_prefix_Some. reflexivity. Qed.

Lemma contains_substring (sub s : str) :
  contains sub s = true <-> Spec.substring sub s.
Proof.
  unfold Spec.substring. induction s as [|c s IH].
  - simpl. rewrite orb_false_r. unfold startswith.
    destruct (strip_prefix sub []) as [r|] eqn:E.
    + apply strip_prefix_Some in E. split; [|reflexivity].
      intros _. exists [], r. exact E.
    + split; [discriminate|]. intros (pre & post & H).
      destruct pre; [|discriminate]. simpl in H.
      rewrite H, strip_prefix_app in E. discriminate.
  - cbn [contains]. rewrite orb_true_iff, IH. unfold startswith. split.
    + intros [H | (pre & post & ->)].
      * destruct (strip_prefix sub (c :: s)) as [r|] eqn:E; [|discriminate].
        apply strip_prefix_Some in E. exists [], r. exact E.
      * exists (c :: pre), post. reflexivity.
    + intros ([|x pre] & post & H).
      * left. simpl in H. rewrite H, strip_prefix_app. reflexivity.
      * right. injection H as _ ->. exists pre, post. reflexivity.
Qed.

Lemma contains_false (sub s : str) :
  contains sub s = false <-> ~ Spec.substring sub s.
Proof.
  rewrite <- contains_substring. destruct (contains sub s); split;
    congruence.
Qed.

Lemma dropwhile_nil (p : char -> bool) (s : str) :
  dropwhile p s = [] <-> Forall (fun c => p c = true) s.
Proof.
  induction s as [|c s IH]; simpl.
  - split; [constructor | reflexivity].
  - destruct (p c) eqn:E.
    + rewrite IH. split; [intros H; constructor; assumption|].
      intros H. inversion H; assumption.
    + split; [discriminate|]. intros H. inversion H. congruence.
Qed.

Lemma dropwhile_head (p : char -> bool) (s : str) c t :
  dropwhile p s = c :: t -> p c = false.
Proof.
  induction s as [|x s IH]; simpl; [discriminate|].
  destruct (p x) eqn:E; [exact IH|]. intros H. injection H as -> _. exact E.
Qed.

Lemma rev_nil_inv (A : Type) (l : list A) : rev l = [] -> l = [].
Proof.
  intros H. apply (f_equal (@rev A)) in H. rewrite rev_involutive in H.
  exact H.
Qed.

(** [url.strip() == ""] holds exactly for the strings made of white space. *)
Lemma strip_empty (s : str) :
  str_eqb (strip s) [] = true <-> Spec.whitespace_only s.
Proof.
  rewrite str_eqb_eq. unfold strip, rstrip_by, lstrip_by, Spec.whitespace_only.
  rewrite <- dropwhile_nil. split.
  - intros H. apply rev_nil_inv in H.
    destruct (dropwhile isspace s) as [|c t] eqn:E; [reflexivity|].
    apply dropwhile_head in E. apply dropwhile_nil in H.
    rewrite Forall_forall in H. specialize (H c).
    rewrite <- in_rev in H. rewrite H in E; [discriminate | left; reflexivity].
  - intros ->. reflexivity.
Qed.

(** The first test of the handler: [not url or url.strip() == ""]. *)
Lemma blank_test (url : str) :
  negb (truthy url) || str_eqb (strip url) [] = true
  <-> Spec.whitespace_only url.
Proof.
  rewrite orb_true_iff, strip_empty. split.
  - intros [H | H]; [|exact H]. destruct url; [constructor | discriminate].
  - intros H. right. exact H.
Qed.

Lemma truthy_nonempty (s : str) : truthy s = true <-> s <> [].
Proof. destruct s; simpl; split; congruence. Qed.

End PyStrFacts.

(* ================================================================== *)
(** ** The matcher agrees with the declarative reading of patterns *)
(* ================================================================== *)

Module ReFacts.

Import Re.

Section Matcher.

Variable A : Type.

Lemma rep_match_sound (k : cset) (s : str) :
  forall lo hi seen (cont : str -> str -> option A) a,
    rep_match k lo hi s seen cont = Some a ->
    exists w s',
      s = w ++ s' /\ Forall (fun c => cset_mem c k = true) w /\
      lo <= length w /\ within hi (length w) /\
      cont s' (rev w ++ seen) = Some a.
Proof.
  induction s as [|c s IH]; intros lo hi seen cont a H.
  - simpl in H. destruct lo; [|discriminate].
    exists [], []. repeat split; auto. destruct hi; simpl; lia.
  - assert (Hstop :
      (match lo with O => cont (c :: s) seen | S _ => None end) = Some a ->
      exists w s', c :: s = w ++ s' /\
        Forall (fun x => cset_mem x k = true) w /\
        lo <= length w /\ within hi (length w) /\
        cont s' (rev w ++ seen) = Some a).
    { intros E. destruct lo; [|discriminate].
      exists [], (c :: s). repeat split; auto. destruct hi; simpl; lia. }
    simpl in H.
    destruct (cset_mem c k && may_take hi) eqn:Etake; [|auto].
    destruct (rep_match k (Nat.pred lo) (dec_hi hi) s (c :: seen) cont)
      as [a'|] eqn:Erec; [|auto].
    injection H as ->. apply andb_true_iff in Etake as [Hc Hhi].
    destruct (IH _ _ _ _ _ Erec) as (w & s' & -> & Hw & Hlo & Hwi & Hk).
    exists (c :: w), s'. repeat split; auto.
    + simpl. lia.
    + destruct hi as [[|n]|]; simpl in *; try discriminate; lia.
    + simpl. rewrite <- app_assoc. exact Hk.
Qed.

Lemma rep_match_complete (k : cset) (w : str) :
  forall lo hi s' seen (cont : str -> str -> option A) a,
    Forall (fun c => cset_mem c k = true) w ->
    lo <= length w -> within hi (length w) ->
    cont s' (rev w ++ seen) = Some a ->
    exists a', rep_match k lo hi (w ++ s') seen cont = Some a'.
Proof.
  induction w as [|c w IH]; intros lo hi s' seen cont a Hw Hlo Hhi Hk.
  - simpl in Hlo. assert (lo = 0) as -> by lia. simpl in Hk |- *.
    destruct s' as [|c s'']; simpl; [eauto|].
    destruct (cset_mem c k && may_take hi); [|eauto].
    destruct (rep_match k 0 (dec_hi hi) s'' (c :: seen) cont); eauto.
  - inversion Hw as [|? ? Hc Hw']; subst. simpl. rewrite Hc.
    assert (Hmay : may_take hi = true).
    { destruct hi as [[|n]|]; simpl in *; try reflexivity; lia. }
    rewrite Hmay. simpl.
    destruct (IH (Nat.pred lo) (dec_hi hi) s' (c :: seen) cont a Hw')
      as [a' Ha']; auto.
    + simpl in Hlo. lia.
    + destruct hi as [[|n]|]; simpl in *; lia.
    + simpl in Hk. rewrite <- app_assoc in Hk. exact Hk.
    + rewrite Ha'. eauto.
Qed.

(** What a group captures: the characters read since it was opened. *)
Lemma captured (w seen : str) :
  rev (firstn (length (rev w ++ seen) - length seen) (rev w ++ seen)) = w.
Proof.
  rewrite length_app, Nat.add_sub. rewrite firstn_app, Nat.sub_diag.
  rewrite firstn_all. simpl. rewrite app_nil_r. apply rev_involutive.
Qed.

Lemma run_sound (r : regex) :
  forall s seen caps (cont : str -> str -> list str -> option A) a,
    run r s seen caps cont = Some a ->
    exists w s' c,
      s = w ++ s' /\ Matches r w c /\
      cont s' (rev w ++ seen) (caps ++ c) = Some a.
Proof.
  induction r as [l | k lo hi | r1 IH1 r2 IH2 | r1 IH1 r2 IH2 | r1 IH1];
    intros s seen caps cont a H; simpl in H.
  - destruct (strip_prefix l s) as [s'|] eqn:E; [|discriminate].
    apply PyStrFacts.strip_prefix_Some in E. exists l, s', [].
    rewrite app_nil_r. simpl. repeat split; auto.
  - apply rep_match_sound in H as (w & s' & -> & Hw & Hlo & Hhi & Hk).
    exists w, s', []. rewrite app_nil_r. simpl. repeat split; auto.
  - apply IH1 in H as (w1 & s1 & c1 & -> & M1 & H).
    apply IH2 in H as (w2 & s2 & c2 & -> & M2 & H).
    exists (w1 ++ w2), s2, (c1 ++ c2). rewrite <- !app_assoc.
    rewrite <- app_assoc in H. rewrite rev_app_distr, <- app_assoc.
    rewrite app_assoc in H.
    repeat split; auto.
    + simpl. exists w1, w2, c1, c2. auto.
    + rewrite <- app_assoc in H. exact H.
  - destruct (run r1 s seen caps cont) as [a'|] eqn:E.
    + injection H as ->. apply IH1 in E as (w & s' & c & -> & M & Hk).
      exists w, s', c. simpl. auto.
    + apply IH2 in H as (w & s' & c & -> & M & Hk).
      exists w, s', c. simpl. auto.
  - apply IH1 in H as (w & s' & c & -> & M & Hk).
    rewrite captured in Hk. exists w, s', (c ++ [w]).
    rewrite app_assoc. repeat split; auto. simpl. exists c. auto.
Qed.

Lemma run_complete (r : regex) :
  forall w c s' seen caps (cont : str -> str -> list str -> option A) a,
    Matches r w c ->
    cont s' (rev w ++ seen) (caps ++ c) = Some a ->
    exists a', run r (w ++ s') seen caps cont = Some a'.
Proof.
  induction r as [l | k lo hi | r1 IH1 r2 IH2 | r1 IH1 r2 IH2 | r1 IH1];
    intros w c s' seen caps cont a M Hk; simpl in M |- *.
  - destruct M as [-> ->]. rewrite PyStrFacts.strip_prefix_app.
    rewrite app_nil_r in Hk. eauto.
  - destruct M as (Hw & Hlo & Hhi & ->). rewrite app_nil_r in Hk.
    eapply rep_match_complete
      with (cont := fun s0 seen0 => cont s0 seen0 caps); eauto.
  - destruct M as (w1 & w2 & c1 & c2 & -> & -> & M1 & M2).
    rewrite <- app_assoc. rewrite app_assoc in Hk.
    rewrite rev_app_distr, <- app_assoc in Hk.
    destruct (IH2 _ _ _ _ _ _ _ M2 Hk) as [a2 H2].
    eapply IH1; eauto.
  - destruct M as [M | M].
    + destruct (IH1 _ _ s' seen caps cont _ M Hk) as [a1 H1].
      rewrite H1. eauto.
    + destruct (run r1 (w ++ s') seen caps cont); eauto.
  - destruct M as (c1 & -> & M).
    eapply IH1 with (c := c1); eauto. cbv beta.
    rewrite captured, <- app_assoc. exact Hk.
Qed.

End Matcher.

(** A match at the head of [s] is a word of the pattern's language. *)
Lemma match_at_sound (r : regex) (s : str) (m : match_obj) :
  match_at r s = Some m ->
  exists w, s = w ++ rest m /\ Matches r w (groups m).
Proof.
  unfold match_at. intros H.
  apply run_sound in H as (w & s' & c & -> & M & H).
  injection H as <-. simpl. eauto.
Qed.

(** Every word of the language at the head of [s] makes the matcher
    succeed. *)
Lemma match_at_complete (r : regex) (w s' : str) caps :
  Matches r w caps ->
  exists m, match_at r (w ++ s') = Some m.
Proof.
  intros M. unfold match_at.
  eapply run_complete with (caps := []) (seen := []); eauto.
Qed.

Lemma search_sound (r : regex) (s : str) (m : match_obj) :
  search r s = Some m ->
  exists pre w,
    s = pre ++ w ++ rest m /\ Matches r w (groups m) /\
    forall pre' w' post' c',
      s = pre' ++ w' ++ post' -> Matches r w' c' -> length pre <= length pre'.
Proof.
  induction s as [|c s IH]; simpl.
  - destruct (match_at r []) as [m'|] eqn:E; [|discriminate].
    intros H. injection H as ->.
    apply match_at_sound in E as (w & E & M).
    exists [], w. simpl. repeat split; auto. intros. lia.
  - destruct (match_at r (c :: s)) as [m'|] eqn:E.
    + intros H. injection H as ->.
      apply match_at_sound in E as (w & E & M).
      exists [], w. simpl. repeat split; auto. intros. lia.
    + intros H. destruct (IH H) as (pre & w & -> & M & Hleft).
      exists (c :: pre), w. repeat split; auto.
      intros [|x pre'] w' post' c' Heq M'.
      * simpl in Heq. rewrite Heq in E.
        destruct (@match_at_complete r w' post' c' M') as [m' Hm'].
        congruence.
      * injection Heq as _ Heq. simpl. apply le_n_S. eapply Hleft; eauto.
Qed.

Lemma search_complete (r : regex) (pre w post : str) caps :
  Matches r w caps -> exists m, search r (pre ++ w ++ post) = Some m.
Proof.
  intros M. induction pre as [|c pre IH].
  - simpl. destruct (@match_at_complete r w post caps M) as [m Hm].
    exists m. destruct (w ++ post); simpl in *; rewrite Hm; reflexivity.
  - destruct IH as [m Hm]. cbn [app search].
    destruct (match_at r (c :: pre ++ w ++ post)); eauto.
Qed.

Lemma search_None (r : regex) (s : str) :
  search r s = None <->
  ~ exists pre w post caps, s = pre ++ w ++ post /\ Matches r w caps.
Proof.
  split.
  - intros H (pre & w & post & caps & -> & M).
    destruct (@search_complete r pre w post caps M) as [m Hm]. congruence.
  - intros H. destruct (search r s) as [m|] eqn:E; [|reflexivity].
    exfalso. apply H. apply search_sound in E as (pre & w & -> & M & _).
    eauto 6.
Qed.

(** Characters accepted by [[^x]]. *)
Lemma none_of_one (x c : char) : cset_mem c (none_of [x]) = true <-> c <> x.
Proof.
  unfold cset_mem, none_of, in_range, one. simpl. rewrite orb_false_r.
  destruct (N.leb_spec x c), (N.leb_spec c x); simpl; split;
    try congruence; try lia; intros; lia.
Qed.

Lemma Forall_none_of (x : char) (w : str) :
  Forall (fun c => cset_mem c (none_of [x]) = true) w <-> ~ In x w.
Proof.
  rewrite Forall_forall. split.
  - intros H Hin. apply H in Hin. apply none_of_one in Hin. congruence.
  - intros H c Hc. apply none_of_one. intros ->. auto.
Qed.

End ReFacts.

(* ================================================================== *)
(** ** [html.unescape]: when it returns, what it raises, what it keeps *)
(* ================================================================== *)

Module HtmlFacts.

Import Re Html Spec Props.

Local Open Scope N_scope.

Lemma unescape_no_amp (s : str) :
  contains [amp] s = false -> unescape s = Ok s.
Proof. unfold unescape. intros ->. reflexivity. Qed.

(** *** The table *)

Lemma html5_values_nonempty :
  forallb (fun kv : string * str => truthy (snd kv)) html5 = true.
Proof. vm_compute. reflexivity. Qed.

Lemma html5_get_nonempty (name v : str) : html5_get name = Some v -> v <> [].
Proof.
  unfold html5_get.
  destruct (find (fun kv => str_eqb (lit (fst kv)) name) html5)
    as [kv|] eqn:E; [|discriminate].
  intros H. injection H as <-. apply find_some in E as [Hin _].
  pose proof html5_values_nonempty as Hall. rewrite forallb_forall in Hall.
  apply Hall in Hin. apply PyStrFacts.truthy_nonempty. exact Hin.
Qed.

Lemma longest_name_nonempty (s : str) (x : nat) :
  (x < length s)%nat ->
  forall v, longest_name s x = Some v -> v <> [].
Proof.
  induction x as [|x IH]; intros Hx v; [discriminate|].
  destruct x as [|x]; [discriminate|].
  assert (Hs : skipn (S (S x)) s <> []).
  { intros E. apply (f_equal (@length char)) in E.
    rewrite length_skipn in E. simpl in E. lia. }
  cbn [longest_name].
  destruct (html5_get (firstn (S (S x)) s)) as [v0|].
  - intros H. injection H as <-. intros E. apply app_eq_nil in E as [_ E].
    exact (Hs E).
  - apply IH. lia.
Qed.

(** *** Integer literals *)

Lemma int_from_digits (base : N) (s : str) :
  Forall (digit_below base) s ->
  forall acc, exists n, int_from base acc s = Some n.
Proof.
  induction 1 as [|c s (d & Hd & Hlt) _ IH]; intros acc; simpl; [eauto|].
  rewrite Hd. apply N.ltb_lt in Hlt. rewrite Hlt. apply IH.
Qed.

Lemma int_digits (base : N) (s : str) :
  s <> [] -> Forall (digit_below base) s ->
  power_of_two base = true \/ (length s <= max_str_digits)%nat ->
  exists n, int base s = Ok n.
Proof.
  intros Hne Hall Hcap. destruct s as [|c s]; [congruence|].
  unfold int.
  assert (E : negb (power_of_two base)
              && (max_str_digits <? length (c :: s))%nat = false).
  { destruct Hcap as [-> | Hlen]; [reflexivity|].
    apply andb_false_iff. right. apply Nat.ltb_ge. exact Hlen. }
  rewrite E.
  destruct (int_from_digits base _ Hall 0) as [n ->]. eauto.
Qed.

(** [int] raises nothing but [ValueError]. *)
Lemma int_raises (base : N) (s : str) (e : exn) :
  int base s = Raise e -> e = ValueError s.
Proof.
  unfold int. destruct s as [|c s]; [congruence|].
  destruct (negb (power_of_two base) && (max_str_digits <? length (c :: s))%nat);
    [congruence|].
  destruct (int_from base 0 (c :: s)); congruence.
Qed.

(** A decimal literal of more digits than the cap is refused. *)
Lemma int_too_long (s : str) :
  (max_str_digits < length s)%nat -> int 10 s = Raise (ValueError s).
Proof.
  intros H. unfold int. destruct s as [|c s]; [reflexivity|].
  apply Nat.ltb_lt in H. rewrite H. reflexivity.
Qed.

Lemma digits_mem (c : char) : cset_mem c digits = true <-> 48 <= c <= 57.
Proof.
  unfold cset_mem, digits, in_range. simpl.
  rewrite orb_false_r, andb_true_iff, !N.leb_le. tauto.
Qed.

Lemma hexdigits_mem (c : char) :
  cset_mem c hexdigits = true <->
  48 <= c <= 57 \/ 97 <= c <= 102 \/ 65 <= c <= 70.
Proof.
  unfold cset_mem, hexdigits, in_range. simpl.
  rewrite orb_false_r, !orb_true_iff, !andb_true_iff, !N.leb_le. tauto.
Qed.

Lemma digit_is_decimal (c : char) :
  cset_mem c digits = true -> digit_below 10 c.
Proof.
  rewrite digits_mem. intros [H1 H2]. exists (c - 48). unfold digit_value.
  apply N.leb_le in H1 as E1. apply N.leb_le in H2 as E2.
  rewrite E1, E2. simpl. split; [reflexivity | lia].
Qed.

Lemma hexdigit_is_hexadecimal (c : char) :
  cset_mem c hexdigits = true -> digit_below 16 c.
Proof.
  rewrite hexdigits_mem. unfold digit_below, digit_value.
  intros [[H1 H2] | [[H1 H2] | [H1 H2]]].
  - exists (c - 48).
    replace (48 <=? c) with true by (symmetry; apply N.leb_le; lia).
    replace (c <=? 57) with true by (symmetry; apply N.leb_le; lia).
    simpl. split; [reflexivity | lia].
  - exists (c - 87).
    replace (48 <=? c) with true by (symmetry; apply N.leb_le; lia).
    replace (c <=? 57) with false by (symmetry; apply N.leb_gt; lia).
    replace (97 <=? c) with true by (symmetry; apply N.leb_le; lia).
    replace (c <=? 122) with true by (symmetry; apply N.leb_le; lia).
    simpl. split; [reflexivity | lia].
  - exists (c - 55).
    replace (48 <=? c) with true by (symmetry; apply N.leb_le; lia).
    replace (c <=? 57) with false by (symmetry; apply N.leb_gt; lia).
    replace (97 <=? c) with false by (symmetry; apply N.leb_gt; lia).
    replace (65 <=? c) with true by (symmetry; apply N.leb_le; lia).
    replace (c <=? 90) with true by (symmetry; apply N.leb_le; lia).
    simpl. split; [reflexivity | lia].
Qed.

(** *** [rstrip] after the digits *)

Lemma dropwhile_all_app (p : char -> bool) (a b : str) :
  Forall (fun c => p c = true) a -> dropwhile p (a ++ b) = dropwhile p b.
Proof. induction 1 as [|c a Hc _ IH]; simpl; [|rewrite Hc]; auto. Qed.

Lemma dropwhile_none (p : char -> bool) (a : str) :
  Forall (fun c => p c = false) a -> dropwhile p a = a.
Proof. destruct 1 as [|c a Hc _]; simpl; [|rewrite Hc]; auto. Qed.

Lemma rstrip_by_suffix (p : char -> bool) (a b : str) :
  Forall (fun c => p c = false) a -> Forall (fun c => p c = true) b ->
  rstrip_by p (a ++ b) = a.
Proof.
  intros Ha Hb. unfold rstrip_by. rewrite rev_app_distr.
  rewrite dropwhile_all_app by (apply Forall_rev; exact Hb).
  rewrite dropwhile_none by (apply Forall_rev; exact Ha).
  apply rev_involutive.
Qed.

(** The optional semicolon [;?]. *)
Lemma optional_semicolon (w : str) caps :
  Matches (Rep (any_of [semicolon]) 0 (Some 1%nat)) w caps ->
  Forall (fun c => c = semicolon) w.
Proof.
  simpl. intros (H & _). eapply Forall_impl; [|exact H].
  intros c Hc. unfold cset_mem, any_of, in_range, one in Hc. simpl in Hc.
  rewrite orb_false_r, andb_true_iff, !N.leb_le in Hc.
  unfold semicolon in *. lia.
Qed.

Lemma rstrip_semicolon (ds sc : str) :
  Forall (fun c => c <> semicolon) ds -> Forall (fun c => c = semicolon) sc ->
  rstrip [semicolon] (ds ++ sc) = ds.
Proof.
  intros Hd Hs. unfold rstrip. apply rstrip_by_suffix.
  - eapply Forall_impl; [|exact Hd]. intros c Hc. simpl.
    rewrite orb_false_r. apply N.eqb_neq. exact Hc.
  - eapply Forall_impl; [|exact Hs]. intros c ->. reflexivity.
Qed.

(** *** The shape of a character reference *)

Lemma nonempty_length (A : Type) (l : list A) : (1 <= length l)%nat -> l <> [].
Proof. destruct l; simpl; [lia | discriminate]. Qed.

Lemma charref_shape (w : str) caps :
  Matches charref w caps ->
  exists g, w = amp :: g /\ caps = [g] /\ charref_group g.
Proof.
  unfold charref. cbn [Matches].
  intros (w1 & g & c1 & c2 & -> & -> & (-> & ->) & c3 & -> & M).
  exists g. split; [reflexivity|].
  assert (G : c3 = [] /\ charref_group g).
  { destruct M as [M | [M | M]].
    - unfold charref_decimal in M. cbn [seq Matches] in M.
      destruct M as (h & r1 & ? & ? & -> & -> & (-> & ->)
                     & ds & sc & ? & ? & -> & -> & (Hds & Hlen & _ & ->) & Hsc).
      pose proof (optional_semicolon _ _ Hsc) as Hsc'.
      destruct Hsc as (_ & _ & _ & ->).
      split; [reflexivity|].
      apply Decimal with (ds := ds) (sc := sc);
        [reflexivity | | assumption | assumption].
      apply nonempty_length. exact Hlen.
    - unfold charref_hex in M. cbn [seq Matches] in M.
      destruct M as (h & r1 & ? & ? & -> & -> & (-> & ->)
                     & xs & r2 & ? & ? & -> & -> & (Hxs & Hlo & Hhi & ->)
                     & hs & sc & ? & ? & -> & -> & (Hhs & Hlen & _ & ->) & Hsc).
      pose proof (optional_semicolon _ _ Hsc) as Hsc'.
      destruct Hsc as (_ & _ & _ & ->).
      split; [reflexivity|].
      destruct xs as [|x [|? ?]]; simpl in Hlo, Hhi; try lia.
      inversion Hxs as [|? ? Hx _]; subst.
      apply Hexadecimal with (x := x) (hs := hs) (sc := sc);
        [reflexivity | | apply nonempty_length; exact Hlen
        | assumption | assumption].
      unfold cset_mem, any_of, in_range, one in Hx. simpl in Hx.
      rewrite orb_false_r, orb_true_iff, !andb_true_iff, !N.leb_le in Hx.
      lia.
    - unfold charref_named in M. cbn [seq Matches] in M.
      destruct M as (name & sc & ? & ? & -> & -> & (Hn & Hlen & _ & ->) & Hsc).
      destruct Hsc as (_ & _ & _ & ->).
      split; [reflexivity|].
      destruct name as [|c name]; [simpl in Hlen; lia|].
      inversion Hn as [|? ? Hc _]; subst.
      apply Named with (c := c) (name := name ++ sc); [reflexivity|].
      intros ->. vm_compute in Hc. discriminate. }
  destruct G as [-> G]. auto.
Qed.

Lemma digits_not_semicolon (ds : str) :
  Forall (fun c => cset_mem c digits = true) ds ->
  Forall (fun c => c <> semicolon) ds.
Proof.
  apply Forall_impl. intros c Hc. apply digits_mem in Hc.
  unfold semicolon. lia.
Qed.

Lemma hexdigits_not_semicolon (hs : str) :
  Forall (fun c => cset_mem c hexdigits = true) hs ->
  Forall (fun c => c <> semicolon) hs.
Proof.
  apply Forall_impl. intros c Hc. apply hexdigits_mem in Hc.
  unfold semicolon. lia.
Qed.

(** *** Runs of digits *)

Lemma short_numbers_piece (pre w post : str) :
  short_numbers (pre ++ w ++ post) -> short_numbers w.
Proof.
  intros H a ds b -> Hds. apply (H (pre ++ a) ds (b ++ post)); [|exact Hds].
  rewrite <- !app_assoc. reflexivity.
Qed.

Lemma short_numbers_substring (w s : str) :
  substring w s -> short_numbers s -> short_numbers w.
Proof. intros (pre & post & ->). apply short_numbers_piece. Qed.

Lemma short_numbers_tail (pre s : str) :
  short_numbers (pre ++ s) -> short_numbers s.
Proof.
  intros H. apply (short_numbers_piece pre s []). rewrite app_nil_r. exact H.
Qed.

(** A string that is not longer than the cap has no long run of digits. *)
Lemma short_numbers_short (s : str) :
  (length s <= max_str_digits)%nat -> short_numbers s.
Proof.
  intros H pre ds post -> _. rewrite !length_app in H. lia.
Qed.

(** [_replace_charref] returns on every group the pattern can capture,
    unless the group is a decimal reference with too many digits. *)
Lemma replace_charref_total (m : match_obj) :
  charref_group (group1 m) -> short_numbers (group1 m) ->
  exists out, replace_charref m = Ok out.
Proof.
  unfold replace_charref. intros [ds sc -> Hne Hds Hsc | x hs sc -> Hx Hne Hhs Hsc
                                 | c name -> Hc] Hshort.
  - rewrite N.eqb_refl.
    assert (Hlen : (length ds <= max_str_digits)%nat).
    { apply (Hshort [hash] ds sc); [reflexivity | exact Hds]. }
    destruct ds as [|d ds]; [congruence|]. cbn [app].
    assert (Hd : (d =? 120) || (d =? 88) = false).
    { inversion Hds as [|? ? Hd _]; subst. apply digits_mem in Hd.
      apply orb_false_iff. split; apply N.eqb_neq; lia. }
    rewrite Hd.
    change (d :: ds ++ sc) with ((d :: ds) ++ sc).
    rewrite rstrip_semicolon by auto using digits_not_semicolon.
    destruct (int_digits 10 (d :: ds)) as [n ->];
      [discriminate| |right; exact Hlen|].
    { eapply Forall_impl; [|exact Hds]. apply digit_is_decimal. }
    cbn [rbind]. destruct (invalid_charrefs_get n); [eauto|].
    destruct ((55296 <=? n) && (n <=? 57343) || (1114111 <? n)); [eauto|].
    destruct (existsb (N.eqb n) invalid_codepoints); eauto.
  - rewrite N.eqb_refl.
    assert (Hd : (x =? 120) || (x =? 88) = true).
    { apply orb_true_iff. rewrite !N.eqb_eq. exact Hx. }
    rewrite Hd.
    rewrite rstrip_semicolon by auto using hexdigits_not_semicolon.
    destruct (int_digits 16 hs) as [n ->]; [exact Hne| |left; reflexivity|].
    { eapply Forall_impl; [|exact Hhs]. apply hexdigit_is_hexadecimal. }
    cbn [rbind]. destruct (invalid_charrefs_get n); [eauto|].
    destruct ((55296 <=? n) && (n <=? 57343) || (1114111 <? n)); [eauto|].
    destruct (existsb (N.eqb n) invalid_codepoints); eauto.
  - apply N.eqb_neq in Hc. rewrite Hc.
    destruct (html5_get (c :: name)); [eauto|].
    destruct (longest_name (c :: name) (length (c :: name) - 1)); eauto.
Qed.

(** What [_replace_charref] raises is not an exception of [requests]. *)
Lemma replace_charref_raises (m : match_obj) (e : exn) :
  replace_charref m = Raise e -> unexpected e.
Proof.
  unfold replace_charref.
  destruct (group1 m) as [|c0 s1]; [intros H; injection H as <-; split; reflexivity|].
  destruct (c0 =? hash).
  - destruct s1 as [|c1 s2];
      [intros H; injection H as <-; split; reflexivity|].
    destruct (if (c1 =? 120) || (c1 =? 88)
              then int 16 (rstrip [semicolon] s2)
              else int 10 (rstrip [semicolon] (c1 :: s2))) as [num|e'] eqn:E.
    + cbn [rbind]. destruct (invalid_charrefs_get num); [discriminate|].
      destruct ((55296 <=? num) && (num <=? 57343) || (1114111 <? num));
        [discriminate|].
      destruct (existsb (N.eqb num) invalid_codepoints); discriminate.
    + cbn [rbind]. intros H. injection H as <-.
      destruct ((c1 =? 120) || (c1 =? 88));
        apply int_raises in E; subst e'; split; reflexivity.
  - destruct (html5_get (c0 :: s1)); [discriminate|].
    destruct (longest_name (c0 :: s1) (length (c0 :: s1) - 1)); discriminate.
Qed.

(** A replacement is empty only for a numeric reference, which has no dot. *)
Lemma replace_charref_empty (m : match_obj) :
  charref_group (group1 m) -> replace_charref m = Ok [] ->
  ~ In dot (group1 m).
Proof.
  unfold replace_charref. intros [ds sc -> Hne Hds Hsc | x hs sc -> Hx Hne Hhs Hsc
                                 | c name -> Hc] H.
  - intros [E | Hin]; [discriminate|].
    apply in_app_or in Hin as [Hin | Hin].
    + rewrite Forall_forall in Hds. apply Hds, digits_mem in Hin.
      unfold dot in Hin. lia.
    + rewrite Forall_forall in Hsc. apply Hsc in Hin. discriminate.
  - intros [E | [E | Hin]]; [discriminate | destruct Hx; subst; discriminate |].
    apply in_app_or in Hin as [Hin | Hin].
    + rewrite Forall_forall in Hhs. apply Hhs, hexdigits_mem in Hin.
      unfold dot in Hin. lia.
    + rewrite Forall_forall in Hsc. apply Hsc in Hin. discriminate.
  - exfalso. apply N.eqb_neq in Hc. rewrite Hc in H.
    destruct (html5_get (c :: name)) as [v|] eqn:E.
    + injection H as ->. apply html5_get_nonempty in E. congruence.
    + destruct (longest_name (c :: name) (length (c :: name) - 1))
        as [v|] eqn:E'; [|discriminate].
      injection H as ->. apply longest_name_nonempty in E'; [congruence|].
      simpl. lia.
Qed.

(** *** Substitution *)

Lemma sub_from_skip (r : regex) repl (s : str) :
  forall n, sub_from r repl n s = sub_from r repl 0 (skipn n s).
Proof.
  induction s as [|c s IH]; intros [|n]; try reflexivity.
  cbn [sub_from skipn]. apply IH.
Qed.

Lemma match_at_charref (s : str) (m : match_obj) :
  match_at charref s = Some m ->
  s = amp :: group1 m ++ rest m /\ charref_group (group1 m).
Proof.
  intros H. apply ReFacts.match_at_sound in H as (w & -> & M).
  apply charref_shape in M as (g & -> & Hg & G).
  unfold group1. rewrite Hg. simpl. auto.
Qed.

Lemma sub_charref_step (s : str) (m : match_obj) :
  match_at charref s = Some m ->
  sub_from charref replace_charref 0 s =
  rbind (replace_charref m) (fun out =>
    rmap (app out) (sub_from charref replace_charref 0 (rest m))).
Proof.
  intros H. pose proof (match_at_charref _ _ H) as [E _].
  destruct s as [|c s]; [discriminate|]. injection E as _ E.
  cbn [sub_from]. rewrite H. rewrite sub_from_skip.
  replace (skipn (length s - length (rest m)) s) with (rest m); [reflexivity|].
  rewrite E. rewrite length_app, Nat.add_sub.
  rewrite skipn_app, Nat.sub_diag, skipn_all. reflexivity.
Qed.

Lemma sub_charref_total (n : nat) :
  forall s, (length s <= n)%nat -> short_numbers s ->
  exists out, sub_from charref replace_charref 0 s = Ok out.
Proof.
  induction n as [|n IH]; intros s Hlen Hshort.
  - destruct s; [simpl; eauto | simpl in Hlen; lia].
  - destruct s as [|c s]; [simpl; eauto|].
    destruct (match_at charref (c :: s)) as [m|] eqn:E.
    + rewrite (sub_charref_step _ _ E).
      destruct (match_at_charref _ _ E) as [Es G].
      pose proof Hshort as Hs'. rewrite Es in Hs'.
      assert (Hg : short_numbers (group1 m))
        by exact (short_numbers_piece [amp] (group1 m) (rest m) Hs').
      assert (Hr : short_numbers (rest m))
        by exact (short_numbers_tail (amp :: group1 m) (rest m) Hs').
      destruct (replace_charref_total _ G Hg) as [o1 ->].
      destruct (IH (rest m)) as [o2 ->]; [|exact Hr|simpl; eauto].
      apply (f_equal (@length char)) in Es. simpl in Es, Hlen.
      rewrite length_app in Es. lia.
    + cbn [sub_from]. rewrite E.
      destruct (IH s) as [o ->];
        [simpl in Hlen; lia | exact (short_numbers_tail [c] s Hshort)
        | simpl; eauto].
Qed.

(** [html.unescape] returns on every string without a long run of
    digits. *)
Lemma unescape_returns (s : str) :
  short_numbers s -> exists out, unescape s = Ok out.
Proof.
  intros H. unfold unescape. destruct (negb (contains [amp] s)); [eauto|].
  apply (sub_charref_total (length s)); [lia | exact H].
Qed.

Lemma sub_charref_raises (n : nat) :
  forall s e, (length s <= n)%nat ->
  sub_from charref replace_charref 0 s = Raise e -> unexpected e.
Proof.
  induction n as [|n IH]; intros s e Hlen H.
  - destruct s; [discriminate | simpl in Hlen; lia].
  - destruct s as [|c s]; [discriminate|].
    destruct (match_at charref (c :: s)) as [m|] eqn:E.
    + rewrite (sub_charref_step _ _ E) in H.
      destruct (match_at_charref _ _ E) as [Es _].
      destruct (replace_charref m) as [o1|e1] eqn:E1.
      * cbn [rbind] in H.
        destruct (sub_from charref replace_charref 0 (rest m)) as [o2|e2] eqn:E2;
          [discriminate|].
        cbn [rmap rbind] in H. injection H as <-.
        apply (IH (rest m)); [|exact E2].
        apply (f_equal (@length char)) in Es. simpl in Es, Hlen.
        rewrite length_app in Es. lia.
      * cbn [rbind] in H. injection H as <-.
        exact (replace_charref_raises _ _ E1).
    + cbn [sub_from] in H. rewrite E in H.
      destruct (sub_from charref replace_charref 0 s) as [o|e2] eqn:E2;
        [discriminate|].
      cbn [rmap rbind] in H. injection H as <-.
      apply (IH s); [simpl in Hlen; lia | exact E2].
Qed.

(** *** The one way to raise *)

(** [_replace_charref] raises only on a decimal reference with too many
    digits, and then the [ValueError] of [int()]. *)
Lemma replace_charref_raises_long (m : match_obj) (e : exn) :
  charref_group (group1 m) -> replace_charref m = Raise e ->
  exists ds sc,
    group1 m = hash :: ds ++ sc /\
    Forall (fun c => cset_mem c digits = true) ds /\
    (max_str_digits < length ds)%nat /\
    e = ValueError ds.
Proof.
  intros G H.
  destruct G as [ds sc E Hne Hds Hsc | x hs sc E Hx Hne Hhs Hsc | c name E Hc].
  - destruct (Nat.le_gt_cases (length ds) max_str_digits) as [Hlen|Hlen].
    + exfalso. revert H. unfold replace_charref. rewrite E, N.eqb_refl.
      destruct ds as [|d ds]; [congruence|]. cbn [app].
      assert (Hd : (d =? 120) || (d =? 88) = false).
      { inversion Hds as [|? ? Hd _]; subst. apply digits_mem in Hd.
        apply orb_false_iff. split; apply N.eqb_neq; lia. }
      rewrite Hd.
      change (d :: ds ++ sc) with ((d :: ds) ++ sc).
      rewrite rstrip_semicolon by auto using digits_not_semicolon.
      destruct (int_digits 10 (d :: ds)) as [n ->];
        [discriminate| |right; exact Hlen|].
      { eapply Forall_impl; [|exact Hds]. apply digit_is_decimal. }
      cbn [rbind]. destruct (invalid_charrefs_get n); [discriminate|].
      destruct ((55296 <=? n) && (n <=? 57343) || (1114111 <? n));
        [discriminate|].
      destruct (existsb (N.eqb n) invalid_codepoints); discriminate.
    + exists ds, sc. split; [exact E|]. split; [exact Hds|].
      split; [exact Hlen|].
      revert H. unfold replace_charref. rewrite E, N.eqb_refl.
      destruct ds as [|d ds]; [congruence|]. cbn [app].
      assert (Hd : (d =? 120) || (d =? 88) = false).
      { inversion Hds as [|? ? Hd _]; subst. apply digits_mem in Hd.
        apply orb_false_iff. split; apply N.eqb_neq; lia. }
      rewrite Hd.
      change (d :: ds ++ sc) with ((d :: ds) ++ sc).
      rewrite rstrip_semicolon by auto using digits_not_semicolon.
      rewrite (int_too_long (d :: ds) Hlen). cbn [rbind].
      intros H. injection H as <-. reflexivity.
  - exfalso. revert H. unfold replace_charref. rewrite E, N.eqb_refl.
    assert (Hd : (x =? 120) || (x =? 88) = true).
    { apply orb_true_iff. rewrite !N.eqb_eq. exact Hx. }
    rewrite Hd.
    rewrite rstrip_semicolon by auto using hexdigits_not_semicolon.
    destruct (int_digits 16 hs) as [n ->]; [exact Hne| |left; reflexivity|].
    { eapply Forall_impl; [|exact Hhs]. apply hexdigit_is_hexadecimal. }
    cbn [rbind]. destruct (invalid_charrefs_get n); [discriminate|].
    destruct ((55296 <=? n) && (n <=? 57343) || (1114111 <? n));
      [discriminate|].
    destruct (existsb (N.eqb n) invalid_codepoints); discriminate.
  - exfalso. revert H. unfold replace_charref. rewrite E.
    apply N.eqb_neq in Hc. rewrite Hc.
    destruct (html5_get (c :: name)); [discriminate|].
    destruct (longest_name (c :: name) (length (c :: name) - 1)); discriminate.
Qed.

Lemma long_reference_later (ds pre s : str) :
  long_decimal_reference ds s -> long_decimal_reference ds (pre ++ s).
Proof.
  intros (H1 & H2 & a & b & ->). split; [exact H1|]. split; [exact H2|].
  exists (pre ++ a), b. rewrite <- app_assoc. reflexivity.
Qed.

Lemma sub_charref_raises_long (n : nat) :
  forall s e, (length s <= n)%nat ->
  sub_from charref replace_charref 0 s = Raise e ->
  exists ds, e = ValueError ds /\ long_decimal_reference ds s.
Proof.
  induction n as [|n IH]; intros s e Hlen H.
  - destruct s; [discriminate | simpl in Hlen; lia].
  - destruct s as [|c s]; [discriminate|].
    destruct (match_at charref (c :: s)) as [m|] eqn:E.
    + rewrite (sub_charref_step _ _ E) in H.
      destruct (match_at_charref _ _ E) as [Es G].
      destruct (replace_charref m) as [o1|e1] eqn:E1.
      * cbn [rbind] in H.
        destruct (sub_from charref replace_charref 0 (rest m)) as [o2|e2] eqn:E2;
          [discriminate|].
        cbn [rmap rbind] in H. injection H as <-.
        destruct (IH (rest m) e2) as (ds & -> & Hl); [|exact E2|].
        { apply (f_equal (@length char)) in Es. simpl in Es, Hlen.
          rewrite length_app in Es. lia. }
        exists ds. split; [reflexivity|]. rewrite Es.
        exact (long_reference_later ds (amp :: group1 m) (rest m) Hl).
      * cbn [rbind] in H. injection H as <-.
        destruct (replace_charref_raises_long _ _ G E1)
          as (ds & sc & Eg & Hds & Hlong & ->).
        exists ds. split; [reflexivity|].
        split; [exact Hds|]. split; [exact Hlong|].
        exists [], (sc ++ rest m). rewrite Es, Eg.
        cbn [app]. rewrite <- app_assoc. reflexivity.
    + cbn [sub_from] in H. rewrite E in H.
      destruct (sub_from charref replace_charref 0 s) as [o|e2] eqn:E2;
        [discriminate|].
      cbn [rmap rbind] in H. injection H as <-.
      destruct (IH s e2) as (ds & -> & Hl); [simpl in Hlen; lia | exact E2|].
      exists ds. split; [reflexivity|].
      exact (long_reference_later ds [c] s Hl).
Qed.

(** [html.unescape] raises only the [ValueError] of [int()], on a
    decimal reference with too many digits. *)
Lemma unescape_raises_long (s : str) (e : exn) :
  unescape s = Raise e ->
  exists ds, e = ValueError ds /\ long_decimal_reference ds s.
Proof.
  unfold unescape. destruct (negb (contains [amp] s)); [discriminate|].
  apply (sub_charref_raises_long (length s)). lia.
Qed.

Lemma long_reference_substring (ds g s : str) :
  substring g s -> long_decimal_reference ds g -> long_decimal_reference ds s.
Proof.
  intros (pre & post & ->) (H1 & H2 & a & b & ->).
  split; [exact H1|]. split; [exact H2|].
  exists (pre ++ a), (b ++ post). rewrite <- !app_assoc. reflexivity.
Qed.

(** A long decimal reference is a long run of digits. *)
Lemma long_reference_not_short (ds s : str) :
  long_decimal_reference ds s -> ~ short_numbers s.
Proof.
  intros (H1 & H2 & a & b & ->) Hs.
  specialize (Hs (a ++ [amp; hash]) ds b).
  rewrite <- app_assoc in Hs. specialize (Hs eq_refl H1). lia.
Qed.

(** What [html.unescape] raises is not an exception of [requests]. *)
Lemma unescape_raises (s : str) (e : exn) :
  unescape s = Raise e -> unexpected e.
Proof.
  unfold unescape. destruct (negb (contains [amp] s)); [discriminate|].
  apply (sub_charref_raises (length s)). lia.
Qed.

Lemma sub_charref_nonempty (n : nat) :
  forall s out, (length s <= n)%nat ->
  sub_from charref replace_charref 0 s = Ok out -> In dot s -> out <> [].
Proof.
  induction n as [|n IH]; intros s out Hlen H Hin.
  - destruct s; [destruct Hin | simpl in Hlen; lia].
  - destruct s as [|c s]; [destruct Hin|].
    destruct (match_at charref (c :: s)) as [m|] eqn:E.
    + rewrite (sub_charref_step _ _ E) in H.
      destruct (match_at_charref _ _ E) as [Es G].
      destruct (replace_charref m) as [o1|] eqn:E1; [|discriminate].
      simpl in H.
      destruct (sub_from charref replace_charref 0 (rest m)) as [o2|] eqn:E2;
        [|discriminate].
      simpl in H. injection H as <-.
      rewrite Es in Hin. destruct Hin as [Hin | Hin]; [discriminate|].
      apply in_app_or in Hin as [Hin | Hin].
      * destruct o1; [|discriminate].
        exfalso. exact (replace_charref_empty _ G E1 Hin).
      * intros Hnil. apply app_eq_nil in Hnil as [_ ->].
        refine (IH (rest m) [] _ E2 Hin eq_refl).
        apply (f_equal (@length char)) in Es. simpl in Es, Hlen.
        rewrite length_app in Es. lia.
    + cbn [sub_from] in H. rewrite E in H.
      destruct (sub_from charref replace_charref 0 s); [|discriminate].
      simpl in H. injection H as <-. discriminate.
Qed.

(** Unescaping a string that has a dot never gives the empty string. *)
Lemma unescape_nonempty (s out : str) :
  unescape s = Ok out -> In dot s -> out <> [].
Proof.
  unfold unescape. destruct (negb (contains [amp] s)).
  - intros H. injection H as <-. intros Hin ->. destruct Hin.
  - apply (sub_charref_nonempty (length s)). lia.
Qed.

(** *** Characters that unescaping keeps out *)

Lemma html5_values_scalar :
  forallb (fun kv : string * str => forallb is_scalar (snd kv)) html5 = true.
Proof. vm_compute. reflexivity. Qed.

Lemma invalid_charrefs_scalar :
  forallb (fun kv : N * str => forallb is_scalar (snd kv)) invalid_charrefs
  = true.
Proof. vm_compute. reflexivity. Qed.

Lemma unicode_text_forallb (s : str) :
  forallb is_scalar s = true <-> unicode_text s.
Proof.
  unfold unicode_text. rewrite forallb_forall, Forall_forall. tauto.
Qed.

Lemma html5_get_scalar (name v : str) :
  html5_get name = Some v -> unicode_text v.
Proof.
  unfold html5_get.
  destruct (find (fun kv => str_eqb (lit (fst kv)) name) html5)
    as [kv|] eqn:E; [|discriminate].
  intros H. injection H as <-. apply find_some in E as [Hin _].
  pose proof html5_values_scalar as Hall. rewrite forallb_forall in Hall.
  apply unicode_text_forallb. exact (Hall _ Hin).
Qed.

Lemma invalid_charrefs_get_scalar (num : N) (v : str) :
  invalid_charrefs_get num = Some v -> unicode_text v.
Proof.
  unfold invalid_charrefs_get.
  destruct (find (fun kv => fst kv =? num) invalid_charrefs)
    as [kv|] eqn:E; [|discriminate].
  intros H. injection H as <-. apply find_some in E as [Hin _].
  pose proof invalid_charrefs_scalar as Hall. rewrite forallb_forall in Hall.
  apply unicode_text_forallb. exact (Hall _ Hin).
Qed.

Section Keeps.

(** [good] is a set of characters that has every scalar value, and a
    string is good when its characters are. *)
Variable good : char -> bool.
Hypothesis good_scalar : forall c, is_scalar c = true -> good c = true.

Lemma scalars_good (s : str) : unicode_text s -> Forall (fun c => good c = true) s.
Proof. apply Forall_impl. exact good_scalar. Qed.

Lemma all_good_skipn (n : nat) (s : str) :
  Forall (fun c => good c = true) s ->
  Forall (fun c => good c = true) (skipn n s).
Proof.
  intros H. rewrite <- (firstn_skipn n s) in H.
  apply Forall_app in H. apply H.
Qed.

Lemma longest_name_good (s : str) (x : nat) :
  Forall (fun c => good c = true) s -> forall v, longest_name s x = Some v -> Forall (fun c => good c = true) v.
Proof.
  intros Hs. induction x as [|x IH]; intros v; [discriminate|].
  destruct x as [|x]; [discriminate|].
  assert (Hk : Forall (fun c => good c = true) (skipn (S (S x)) s))
    by (apply all_good_skipn; exact Hs).
  cbn [longest_name].
  destruct (html5_get (firstn (S (S x)) s)) as [v0|] eqn:E.
  - intros H. injection H as <-. apply Forall_app. split.
    + exact (scalars_good _ (html5_get_scalar _ _ E)).
    + exact Hk.
  - apply IH.
Qed.

Lemma replace_charref_good (m : match_obj) (out : str) :
  Forall (fun c => good c = true) (group1 m) -> replace_charref m = Ok out -> Forall (fun c => good c = true) out.
Proof.
  unfold replace_charref. intros Hg.
  destruct (group1 m) as [|c0 s1]; [discriminate|].
  destruct (c0 =? hash).
  - destruct s1 as [|c1 s2]; [discriminate|].
    destruct (if (c1 =? 120) || (c1 =? 88)
              then int 16 (rstrip [semicolon] s2)
              else int 10 (rstrip [semicolon] (c1 :: s2)))
      as [num|]; [|discriminate].
    cbn [rbind].
    destruct (invalid_charrefs_get num) as [v|] eqn:E.
    { intros H. injection H as <-.
      exact (scalars_good _ (invalid_charrefs_get_scalar _ _ E)). }
    destruct ((55296 <=? num) && (num <=? 57343) || (1114111 <? num)) eqn:E1.
    { intros H. injection H as <-. constructor; [|constructor].
      apply good_scalar. reflexivity. }
    destruct (existsb (N.eqb num) invalid_codepoints).
    { intros H. injection H as <-. constructor. }
    intros H. injection H as <-. constructor; [|constructor].
    apply good_scalar.
    apply orb_false_iff in E1 as [E1 E2].
    unfold is_scalar, Urllib.is_surrogate. rewrite E1.
    apply N.ltb_ge in E2. apply N.leb_le in E2. rewrite E2. reflexivity.
  - destruct (html5_get (c0 :: s1)) as [v|] eqn:E.
    { intros H. injection H as <-.
      exact (scalars_good _ (html5_get_scalar _ _ E)). }
    destruct (longest_name (c0 :: s1) (length (c0 :: s1) - 1))
      as [v|] eqn:E'.
    { intros H. injection H as <-. exact (longest_name_good _ _ Hg _ E'). }
    intros H. injection H as <-.
    constructor; [apply good_scalar; reflexivity | exact Hg].
Qed.

Lemma sub_charref_good (n : nat) :
  forall s out, (length s <= n)%nat -> Forall (fun c => good c = true) s ->
  sub_from charref replace_charref 0 s = Ok out -> Forall (fun c => good c = true) out.
Proof.
  induction n as [|n IH]; intros s out Hlen Hs H.
  - destruct s; [|simpl in Hlen; lia]. injection H as <-. constructor.
  - destruct s as [|c s]; [injection H as <-; constructor|].
    destruct (match_at charref (c :: s)) as [m|] eqn:E.
    + rewrite (sub_charref_step _ _ E) in H.
      destruct (match_at_charref _ _ E) as [Es _].
      destruct (replace_charref m) as [o1|] eqn:E1; [|discriminate].
      cbn [rbind] in H.
      destruct (sub_from charref replace_charref 0 (rest m))
        as [o2|] eqn:E2; [|discriminate].
      cbn [rmap rbind] in H. injection H as <-.
      rewrite Es in Hs. inversion Hs as [|? ? _ Hs']; subst.
      apply Forall_app in Hs' as [Hg Hr].
      apply Forall_app. split.
      * exact (replace_charref_good _ _ Hg E1).
      * apply (IH (rest m)); auto.
        apply (f_equal (@length char)) in Es. simpl in Es, Hlen.
        rewrite length_app in Es. lia.
    + cbn [sub_from] in H. rewrite E in H.
      destruct (sub_from charref replace_charref 0 s) as [o|] eqn:E2;
        [|discriminate].
      cbn [rmap rbind] in H. injection H as <-.
      inversion Hs; subst. constructor; [assumption|].
      apply (IH s); auto. simpl in Hlen. lia.
Qed.

Lemma unescape_good (s out : str) :
  Forall (fun c => good c = true) s -> unescape s = Ok out -> Forall (fun c => good c = true) out.
Proof.
  unfold unescape. intros Hs.
  destruct (negb (contains [amp] s)).
  - intros H. injection H as <-. exact Hs.
  - apply (sub_charref_good (length s)); auto.
Qed.

End Keeps.

(** Unescaping text made of scalar values gives such text. *)
Lemma unescape_scalar (s out : str) :
  unicode_text s -> unescape s = Ok out -> unicode_text out.
Proof. exact (unescape_good is_scalar (fun c H => H) s out). Qed.

(** Unescaping never brings in a lone surrogate. *)
Lemma unescape_well_formed (s out : str) :
  well_formed s -> unescape s = Ok out -> well_formed out.
Proof.
  intros Hs H.
  assert (G : Forall (fun c => negb (Urllib.is_surrogate c) = true) out).
  { apply (unescape_good (fun c => negb (Urllib.is_surrogate c))) with (s := s).
    - intros c Hc. unfold is_scalar in Hc. apply andb_true_iff in Hc. apply Hc.
    - eapply Forall_impl; [|exact Hs]. intros c ->. reflexivity.
    - exact H. }
  eapply Forall_impl; [|exact G]. intros c Hc.
  apply negb_true_iff. exact Hc.
Qed.

End HtmlFacts.
(* ================================================================== *)
(** ** What the four patterns of the handler recognise *)
(* ================================================================== *)

Module PatternFacts.

Import Re Api Spec.

Lemma M_lit (l : str) : Matches (Lit l) l [].
Proof. simpl. auto. Qed.

Lemma M_rep (k : cset) (lo : nat) (w : str) :
  Forall (fun c => cset_mem c k = true) w -> lo <= length w ->
  Matches (Rep k lo None) w [].
Proof. simpl. auto. Qed.

Lemma M_cat (r1 r2 : regex) (w1 w2 : str) (c1 c2 : list str) :
  Matches r1 w1 c1 -> Matches r2 w2 c2 ->
  Matches (Cat r1 r2) (w1 ++ w2) (c1 ++ c2).
Proof. simpl. eauto 10. Qed.

Lemma M_group (r : regex) (w : str) (c : list str) :
  Matches r w c -> Matches (Group r) w (c ++ [w]).
Proof. simpl. eauto. Qed.

Lemma free_of_not_gt (w : str) :
  Forall (fun c => cset_mem c not_gt = true) w <-> free_of gt_sign w.
Proof. apply ReFacts.Forall_none_of. Qed.

Lemma free_of_not_quote (w : str) :
  Forall (fun c => cset_mem c not_quote = true) w <-> free_of dquote w.
Proof. apply ReFacts.Forall_none_of. Qed.

Lemma length_nonempty (A : Type) (l : list A) : l <> [] -> 1 <= length l.
Proof. destruct l; simpl; [congruence | lia]. Qed.

(** The common shape of [video_pattern], [thumb_pattern] and
    [alt_thumb_pattern]. *)
Lemma link_shape (tag attr ext w : str) (caps : list str) :
  Matches
    (seq [Lit tag; Rep not_gt 1 None; Lit (attr ++ [dquote]);
          Group (seq [Rep not_quote 1 None; Lit ext; Rep not_quote 0 None]);
          Lit [dquote]; Rep not_gt 0 None; Lit (lit ">")]) w caps
  <-> exists g, caps = [g] /\ tag_with_link tag attr ext w g.
Proof.
  cbn [seq Matches]. unfold tag_with_link. split.
  - intros (w1 & w2 & c1 & c2 & -> & -> & (-> & ->)
            & t1 & w3 & c3 & c4 & -> & -> & (Ht1 & Hlen1 & _ & ->)
            & a & w4 & c5 & c6 & -> & -> & (-> & ->)
            & g & w5 & c7 & c8 & -> & ->
            & (c0 & -> & g1 & r & d1 & d2 & -> & -> & (Hg1 & Hl1 & _ & ->)
               & e & g2 & d3 & d4 & -> & -> & (-> & ->) & (Hg2 & _ & _ & ->))
            & q & w6 & c9 & c10 & -> & -> & (-> & ->)
            & t2 & e2 & c11 & c12 & -> & -> & (Ht2 & _ & _ & ->) & (-> & ->)).
    exists (g1 ++ ext ++ g2). split; [reflexivity|].
    exists t1, g1, g2, t2.
    rewrite free_of_not_gt in Ht1, Ht2. rewrite free_of_not_quote in Hg1, Hg2.
    repeat split; auto using ReFacts.Forall_none_of;
      apply HtmlFacts.nonempty_length; assumption.
  - intros (g & -> & t1 & g1 & g2 & t2 & -> & -> & Hn1 & Ht1 & Hn2 & Hg1 & Hg2 & Ht2).
    rewrite <- free_of_not_gt in Ht1, Ht2.
    rewrite <- free_of_not_quote in Hg1, Hg2.
    apply length_nonempty in Hn1, Hn2.
    pose proof (M_cat _ _ _ _ _ _ (M_rep not_quote 1 g1 Hg1 Hn2)
                  (M_cat _ _ _ _ _ _ (M_lit ext)
                     (M_rep not_quote 0 g2 Hg2 (Nat.le_0_l _)))) as MG.
    apply M_group in MG.
    exact (M_cat _ _ _ _ _ _ (M_lit tag)
             (M_cat _ _ _ _ _ _ (M_rep not_gt 1 t1 Ht1 Hn1)
                (M_cat _ _ _ _ _ _ (M_lit (attr ++ [dquote]))
                   (M_cat _ _ _ _ _ _ MG
                      (M_cat _ _ _ _ _ _ (M_lit [dquote])
                         (M_cat _ _ _ _ _ _
                            (M_rep not_gt 0 t2 Ht2 (Nat.le_0_l _))
                            (M_lit [gt_sign]))))))).
Qed.

Lemma video_pattern_shape (w : str) (caps : list str) :
  Matches video_pattern w caps <-> exists g, caps = [g] /\ mp4_anchor w g.
Proof. apply link_shape. Qed.

Lemma thumb_pattern_shape (w : str) (caps : list str) :
  Matches thumb_pattern w caps <-> exists g, caps = [g] /\ jpg_anchor w g.
Proof. apply link_shape. Qed.

Lemma alt_thumb_pattern_shape (w : str) (caps : list str) :
  Matches alt_thumb_pattern w caps <-> exists g, caps = [g] /\ jpg_image w g.
Proof. apply link_shape. Qed.

Lemma thumb_base64_pattern_shape (w : str) (caps : list str) :
  Matches thumb_base64_pattern w caps
  <-> exists g, caps = [g] /\ base64_image w g.
Proof.
  unfold thumb_base64_pattern, base64_image. cbn [seq Matches]. split.
  - intros (w1 & w2 & c1 & c2 & -> & -> & (-> & ->)
            & t1 & w3 & c3 & c4 & -> & -> & (Ht1 & Hlen1 & _ & ->)
            & a & w4 & c5 & c6 & -> & -> & (-> & ->)
            & g & w5 & c7 & c8 & -> & -> & (c0 & -> & (Hg & Hl & _ & ->))
            & (-> & ->)).
    exists g. split; [reflexivity|]. exists t1.
    rewrite free_of_not_gt in Ht1. rewrite free_of_not_quote in Hg.
    repeat split; auto; apply HtmlFacts.nonempty_length; assumption.
  - intros (g & -> & t1 & -> & Hn1 & Ht1 & Hn & Hg).
    rewrite <- free_of_not_gt in Ht1. rewrite <- free_of_not_quote in Hg.
    apply length_nonempty in Hn1, Hn.
    pose proof (M_group _ _ _ (M_rep not_quote 1 g Hg Hn)) as MG.
    exact (M_cat _ _ _ _ _ _ (M_lit (lit "<img"))
             (M_cat _ _ _ _ _ _ (M_rep not_gt 1 t1 Ht1 Hn1)
                (M_cat _ _ _ _ _ _
                   (M_lit (lit "src=" ++ [dquote] ++ data_uri_prefix))
                   (M_cat _ _ _ _ _ _ MG (M_lit [dquote]))))).
Qed.

(** *** Searching for a shape *)

Section Search.

Variable r : regex.
Variable P : str -> str -> Prop.
Hypothesis shape :
  forall w caps, Matches r w caps <-> exists g, caps = [g] /\ P w g.

Lemma search_first (text : str) (m : match_obj) :
  search r text = Some m ->
  exists pre w, first_occurrence P text pre w (rest m) (group1 m).
Proof.
  intros H. apply ReFacts.search_sound in H as (pre & w & E & M & Hleft).
  apply shape in M as (g & Hg & HP).
  exists pre, w. unfold first_occurrence, group1. rewrite Hg. simpl.
  repeat split; auto.
  intros pre' w' post' g' E' HP'. apply (Hleft pre' w' post' [g'] E').
  apply shape. eauto.
Qed.

Lemma search_found (text : str) :
  occurs P text -> exists m, search r text = Some m.
Proof.
  intros (pre & w & post & g & -> & HP).
  apply ReFacts.search_complete with (caps := [g]). apply shape. eauto.
Qed.

Lemma search_some_occurs (text : str) (m : match_obj) :
  search r text = Some m -> occurs P text.
Proof.
  intros H. destruct (search_first text m H) as (pre & w & E & HP & _).
  exists pre, w, (rest m), (group1 m). auto.
Qed.

Lemma search_absent (text : str) :
  search r text = None <-> ~ occurs P text.
Proof.
  rewrite ReFacts.search_None. unfold occurs. split; intros H H'; apply H.
  - destruct H' as (pre & w & post & g & E & HP).
    exists pre, w, post, [g]. split; [exact E|]. apply shape. eauto.
  - destruct H' as (pre & w & post & caps & E & M).
    apply shape in M as (g & _ & HP). eauto 6.
Qed.

(** The captured group is a piece of the text. *)
Lemma search_group_substring (text : str) (m : match_obj) :
  (forall w g, P w g -> substring g w) ->
  search r text = Some m -> substring (group1 m) text.
Proof.
  intros Hin H. destruct (search_first text m H) as (pre & w & -> & HP & _).
  destruct (Hin _ _ HP) as (a & b & ->).
  exists (pre ++ a), (b ++ rest m). rewrite <- !app_assoc. reflexivity.
Qed.

(** Text before which no piece of the shape starts can be skipped. *)
Lemma search_past (pre text : str) :
  none_before P (pre ++ text) (length pre) ->
  search r (pre ++ text) = search r text.
Proof.
  induction pre as [|c pre IH]; intros H; [reflexivity|].
  cbn [app search].
  destruct (match_at r (c :: pre ++ text)) as [m|] eqn:E.
  - exfalso. apply ReFacts.match_at_sound in E as (w & E & M).
    apply shape in M as (g & _ & HP).
    specialize (H [] w (rest m) g E HP). simpl in H. lia.
  - apply IH. intros pre' w post g E' HP.
    specialize (H (c :: pre') w post g). cbn [app] in H.
    rewrite E' in H. specialize (H eq_refl HP). simpl in H. lia.
Qed.

(** [none_before] can be tested: no match starts at an offset of [pre]. *)
Lemma search_none_before (pre text : str) :
  forallb (fun n => match match_at r (skipn n (pre ++ text)) with
                    | Some _ => false
                    | None => true
                    end) (List.seq 0 (length pre)) = true ->
  none_before P (pre ++ text) (length pre).
Proof.
  intros H pre' w post g E HP.
  destruct (Nat.le_gt_cases (length pre) (length pre')) as [Hle|Hgt];
    [exact Hle|].
  exfalso. rewrite forallb_forall in H.
  specialize (H (length pre')).
  rewrite E, skipn_app, skipn_all, Nat.sub_diag in H. cbn [app skipn] in H.
  assert (M : Matches r w [g]) by (apply shape; eauto).
  destruct (ReFacts.match_at_complete r w post [g] M) as [m Hm].
  rewrite Hm in H. discriminate H.
  apply in_seq. lia.
Qed.

End Search.

(** A value captured by one of the link patterns has a dot. *)
Lemma link_value_has_dot (tag attr rest_ext w g : str) :
  tag_with_link tag attr (dot :: rest_ext) w g ->
  In dot g.
Proof.
  intros (t1 & g1 & g2 & t2 & _ & -> & _). apply in_or_app. right.
  left. reflexivity.
Qed.

Lemma link_value_no_quote (tag attr ext w g : str) :
  free_of dquote ext -> tag_with_link tag attr ext w g -> free_of dquote g.
Proof.
  intros He (t1 & g1 & g2 & t2 & _ & -> & _ & _ & _ & H1 & H2 & _) Hin.
  apply in_app_or in Hin as [Hin | Hin]; [auto|].
  apply in_app_or in Hin as [Hin | Hin]; auto.
Qed.

Lemma link_value_inside (tag attr ext w g : str) :
  tag_with_link tag attr ext w g -> substring g w.
Proof.
  intros (t1 & g1 & g2 & t2 & -> & _).
  exists (tag ++ t1 ++ attr ++ [dquote]), ([dquote] ++ t2 ++ [gt_sign]).
  rewrite <- !app_assoc. reflexivity.
Qed.

Lemma payload_inside (w payload : str) :
  base64_image w payload -> substring payload w.
Proof.
  intros (t1 & -> & _).
  exists (lit "<img" ++ t1 ++ lit "src=" ++ [dquote] ++ data_uri_prefix),
    [dquote].
  rewrite <- !app_assoc. reflexivity.
Qed.

(** Every piece of one of the four shapes starts with [<]. *)
Lemma link_starts_with_lt (l attr ext w g : str) :
  tag_with_link (lt_sign :: l) attr ext w g -> exists w', w = lt_sign :: w'.
Proof. intros (t1 & g1 & g2 & t2 & -> & _). eexists. reflexivity. Qed.

Lemma base64_starts_with_lt (w payload : str) :
  base64_image w payload -> exists w', w = lt_sign :: w'.
Proof. intros (t1 & -> & _). eexists. reflexivity. Qed.

(** Text without [<] has no piece of such a shape. *)
Lemma none_before_free (P : str -> str -> Prop) (pre text : str) :
  (forall w g, P w g -> exists w', w = lt_sign :: w') ->
  free_of lt_sign pre -> none_before P (pre ++ text) (length pre).
Proof.
  intros Hlt Hfree pre' w post g E HP.
  destruct (Hlt _ _ HP) as [w' ->].
  destruct (Nat.le_gt_cases (length pre) (length pre')) as [H|H]; [exact H|].
  exfalso. apply Hfree.
  assert (Hin : nth_error (pre ++ text) (length pre') = Some lt_sign).
  { rewrite E, nth_error_app2 by lia. rewrite Nat.sub_diag. reflexivity. }
  rewrite nth_error_app1 in Hin by exact H.
  exact (nth_error_In _ _ Hin).
Qed.

End PatternFacts.

(* ================================================================== *)
(** ** Percent-encoding *)
(* ================================================================== *)

Module UrllibFacts.

Import Urllib Spec.

Lemma first_surrogates_none (s : str) :
  well_formed s -> forall i, first_surrogates i s = None.
Proof.
  induction 1 as [|c s Hc _ IH]; intros i; simpl; [reflexivity|].
  rewrite Hc. apply IH.
Qed.

(** A string without lone surrogate can always be percent-encoded. *)
Lemma quote_total (url : str) :
  well_formed url -> exists enc, quote url [] = Ok enc.
Proof.
  intros H. unfold quote, encode_utf8.
  destruct url as [|c url]; [eauto|].
  rewrite (first_surrogates_none _ H). simpl. eauto.
Qed.

Lemma first_surrogates_cases (s : str) :
  forall i,
    (well_formed s /\ first_surrogates i s = None)
    \/ exists a b,
         first_surrogates i s = Some ((i + a)%nat, b) /\
         is_surrogate (nth a s 0%N) = true /\
         well_formed (firstn a s).
Proof.
  induction s as [|c s IH]; intros i.
  - left. split; [constructor | reflexivity].
  - cbn [first_surrogates].
    destruct (is_surrogate c) eqn:Ec.
    + right. exists 0%nat. eexists. rewrite Nat.add_0_r.
      split; [reflexivity|]. split; [exact Ec | constructor].
    + destruct (IH (S i)) as [[Hw E] | (a & b & E & Ha & Hw)].
      * left. split; [constructor; assumption | exact E].
      * right. exists (S a), b. rewrite Nat.add_succ_r.
        split; [exact E|]. split; [exact Ha|].
        cbn [firstn]. constructor; assumption.
Qed.

(** Encoding as UTF-8 returns exactly on the strings without lone
    surrogate, and raises nothing but [UnicodeEncodeError]. *)
Lemma encode_utf8_ok (s : str) :
  well_formed s -> encode_utf8 s = Ok (flat_map utf8_char s).
Proof.
  intros H. unfold encode_utf8. rewrite (first_surrogates_none _ H).
  reflexivity.
Qed.

Lemma encode_utf8_ok_inv (s : str) (bs : list N) :
  encode_utf8 s = Ok bs -> well_formed s.
Proof.
  unfold encode_utf8.
  destruct (first_surrogates_cases s 0) as [[Hw _] | (a & b & -> & _)];
    [auto | discriminate].
Qed.

Lemma encode_utf8_raises (s : str) (e : exn) :
  encode_utf8 s = Raise e ->
  ~ well_formed s /\ exists start stop, e = UnicodeEncodeError s start stop.
Proof.
  intros H. split.
  - intros Hw. rewrite (encode_utf8_ok _ Hw) in H. discriminate.
  - unfold encode_utf8 in H.
    destruct (first_surrogates 0 s) as [[a b]|]; [|discriminate].
    injection H as <-. eauto.
Qed.

(** An input that can be percent-encoded has no lone surrogate. *)
Lemma quote_ok_well_formed (url enc : str) :
  quote url [] = Ok enc -> well_formed url.
Proof.
  unfold quote. destruct url as [|c url]; [constructor|].
  destruct (encode_utf8 (c :: url)) as [bs|] eqn:E; [|discriminate].
  intros _. exact (encode_utf8_ok_inv _ _ E).
Qed.

End UrllibFacts.

(* ================================================================== *)
(** ** Rendering an answer *)
(* ================================================================== *)

Module JsonFacts.

Import Urllib Json Spec.

Local Open Scope N_scope.

Lemma well_formed_app (a b : str) :
  well_formed (a ++ b) <-> well_formed a /\ well_formed b.
Proof. apply Forall_app. Qed.

Lemma well_formed_forallb (s : str) :
  forallb (fun c => negb (is_surrogate c)) s = true -> well_formed s.
Proof.
  intros H. rewrite forallb_forall in H. apply Forall_forall.
  intros c Hc. apply negb_true_iff. exact (H c Hc).
Qed.

Lemma small_not_surrogate (c : char) : c < 55296 -> is_surrogate c = false.
Proof.
  intros H. unfold is_surrogate. apply andb_false_iff. left.
  apply N.leb_gt. exact H.
Qed.

Lemma hex_lower_small (d : N) : d < 16 -> hex_lower d < 55296.
Proof. unfold hex_lower. destruct (d <? 10); lia. Qed.

(** An escaped character has a lone surrogate only when it is one. *)
Lemma escape_char_well_formed (c : char) :
  well_formed (escape_char c) <-> is_surrogate c = false.
Proof.
  unfold escape_char.
  destruct (N.eqb_spec c 34) as [->|_];
    [split; [reflexivity | intros _; repeat constructor]|].
  destruct (N.eqb_spec c 92) as [->|_];
    [split; [reflexivity | intros _; repeat constructor]|].
  destruct (N.eqb_spec c 10) as [->|_];
    [split; [reflexivity | intros _; repeat constructor]|].
  destruct (N.eqb_spec c 13) as [->|_];
    [split; [reflexivity | intros _; repeat constructor]|].
  destruct (N.eqb_spec c 9) as [->|_];
    [split; [reflexivity | intros _; repeat constructor]|].
  destruct (N.eqb_spec c 8) as [->|_];
    [split; [reflexivity | intros _; repeat constructor]|].
  destruct (N.eqb_spec c 12) as [->|_];
    [split; [reflexivity | intros _; repeat constructor]|].
  destruct (N.ltb_spec c 32) as [Hlt|_].
  - split; [intros _; apply small_not_surrogate; lia|].
    intros _.
    assert (H1 : c / 16 < 16) by (apply N.Div0.div_lt_upper_bound; lia).
    assert (H2 : c mod 16 < 16) by (apply N.mod_lt; lia).
    repeat (constructor; [reflexivity|]).
    constructor; [apply small_not_surrogate, hex_lower_small, H1|].
    constructor; [apply small_not_surrogate, hex_lower_small, H2|].
    constructor.
  - split; [intros H; inversion H; assumption|].
    intros H. constructor; [exact H | constructor].
Qed.

Lemma escaped_well_formed (s : str) :
  well_formed (flat_map escape_char s) <-> well_formed s.
Proof.
  induction s as [|c s IH]; [split; constructor|].
  cbn [flat_map]. rewrite well_formed_app, escape_char_well_formed, IH.
  split.
  - intros [H1 H2]. constructor; assumption.
  - intros H. inversion H. auto.
Qed.

Lemma basestring_well_formed (s : str) :
  well_formed (encode_basestring s) <-> well_formed s.
Proof.
  unfold encode_basestring. rewrite !well_formed_app, escaped_well_formed.
  split; [tauto|]. intros H. repeat split; auto; repeat constructor.
Qed.

(** The constructor of an answer returns exactly when the rendered text
    can be encoded, and raises nothing but [UnicodeEncodeError]. *)
Lemma init_ok (content : json) (status_code : N) :
  well_formed (dumps content) ->
  JSONResponse_init content status_code
  = Ok (mkJSONResponse content status_code).
Proof.
  intros H. unfold JSONResponse_init, render.
  rewrite (UrllibFacts.encode_utf8_ok _ H). reflexivity.
Qed.

Lemma init_ok_inv (content : json) (status_code : N) (r : JSONResponse) :
  JSONResponse_init content status_code = Ok r ->
  r = mkJSONResponse content status_code /\ well_formed (dumps content).
Proof.
  unfold JSONResponse_init, render.
  destruct (encode_utf8 (dumps content)) as [bs|] eqn:E; [|discriminate].
  cbn [rbind]. intros H. injection H as <-.
  split; [reflexivity | exact (UrllibFacts.encode_utf8_ok_inv _ _ E)].
Qed.

Lemma init_raises (content : json) (status_code : N) (e : exn) :
  JSONResponse_init content status_code = Raise e ->
  ~ well_formed (dumps content) /\
  exists start stop, e = UnicodeEncodeError (dumps content) start stop.
Proof.
  unfold JSONResponse_init, render.
  destruct (encode_utf8 (dumps content)) as [bs|e'] eqn:E; [discriminate|].
  cbn [rbind]. intros H. injection H as <-.
  exact (UrllibFacts.encode_utf8_raises _ _ E).
Qed.

End JsonFacts.

(* ================================================================== *)
(** ** The handlers, step by step *)
(* ================================================================== *)

Module ApiFacts.

Import Re Requests Json Api Spec.

(** *** Validation *)

Lemma names_instagram_test (url : str) :
  contains (lit "instagram.com") url || contains (lit "instagr.am") url = true
  <-> names_instagram url.
Proof.
  unfold names_instagram.
  rewrite orb_true_iff, !PyStrFacts.contains_substring. tauto.
Qed.

Lemma whitespace_only_app (a b : str) :
  whitespace_only (a ++ b) <-> whitespace_only a /\ whitespace_only b.
Proof. apply Forall_app. Qed.

Lemma names_not_blank (url : str) :
  names_instagram url -> ~ whitespace_only url.
Proof.
  intros [(pre & post & ->) | (pre & post & ->)] H;
    apply whitespace_only_app in H as [_ H];
    apply whitespace_only_app in H as [H _];
    inversion H as [|? ? Hi _]; discriminate Hi.
Qed.

Lemma passes_validation_spec (url : str) :
  passes_validation url = true <-> validated url.
Proof.
  unfold passes_validation, validated.
  rewrite andb_true_iff, names_instagram_test, negb_true_iff.
  rewrite <- PyStrFacts.blank_test.
  destruct (negb (truthy url) || str_eqb (strip url) []); split;
    intros [H1 H2]; split; auto; congruence.
Qed.

Lemma download_blank (net : network) (url : str) :
  whitespace_only url ->
  download_instagram_content net url = raise (HTTPException 400 missing_url_detail).
Proof.
  intros H. apply PyStrFacts.blank_test in H.
  unfold download_instagram_content. rewrite H. reflexivity.
Qed.

Lemma download_foreign (net : network) (url : str) :
  ~ whitespace_only url -> ~ names_instagram url ->
  download_instagram_content net url
  = raise (HTTPException 400 (Text (lit "Invalid Instagram URL"))).
Proof.
  intros H1 H2. rewrite <- PyStrFacts.blank_test in H1.
  rewrite <- names_instagram_test in H2.
  unfold download_instagram_content.
  destruct (negb (truthy url) || str_eqb (strip url) []); [congruence|].
  destruct (contains (lit "instagram.com") url
            || contains (lit "instagr.am") url); [congruence|].
  reflexivity.
Qed.

Lemma download_validated (net : network) (url : str) :
  validated url ->
  download_instagram_content net url
  = try_except (fetch_and_extract net url) on_exception.
Proof.
  intros [H1 H2]. rewrite <- PyStrFacts.blank_test in H1.
  rewrite <- names_instagram_test in H2.
  unfold download_instagram_content.
  destruct (negb (truthy url) || str_eqb (strip url) []); [congruence|].
  rewrite H2. reflexivity.
Qed.

(** *** Extraction *)

Lemma extract_video_url_found (text : str) :
  occurs mp4_anchor text ->
  exists pre w post href,
    first_occurrence mp4_anchor text pre w post href /\
    extract_video_url text = Html.unescape href /\
    forall v, Html.unescape href = Ok v -> v <> [].
Proof.
  intros H.
  destruct (PatternFacts.search_found _ _ PatternFacts.video_pattern_shape _ H)
    as [m Hm].
  destruct (PatternFacts.search_first _ _ PatternFacts.video_pattern_shape _ _ Hm)
    as (pre & w & Hfirst).
  exists pre, w, (rest m), (group1 m).
  unfold extract_video_url. rewrite Hm.
  split; [exact Hfirst|]. split; [reflexivity|].
  intros v Hv. apply (HtmlFacts.unescape_nonempty _ _ Hv).
  destruct Hfirst as (_ & HP & _).
  exact (PatternFacts.link_value_has_dot _ _ _ _ _ HP).
Qed.

Lemma extract_video_url_absent (text : str) :
  ~ occurs mp4_anchor text -> extract_video_url text = Ok [].
Proof.
  intros H.
  apply (PatternFacts.search_absent _ _ PatternFacts.video_pattern_shape) in H.
  unfold extract_video_url. rewrite H. reflexivity.
Qed.

(** [video_url] is empty only when the body has no video link. *)
Lemma extract_video_url_empty (text : str) :
  extract_video_url text = Ok [] -> ~ occurs mp4_anchor text.
Proof.
  intros E H.
  destruct (extract_video_url_found text H) as (_ & _ & _ & href & _ & Eh & Hne).
  rewrite Eh in E. exact (Hne [] E eq_refl).
Qed.

Lemma extract_thumb_url_anchor (text : str) :
  occurs jpg_anchor text ->
  exists pre w post href,
    first_occurrence jpg_anchor text pre w post href /\
    extract_thumb_url text = Html.unescape href /\
    forall v, Html.unescape href = Ok v -> v <> [].
Proof.
  intros H.
  destruct (PatternFacts.search_found _ _ PatternFacts.thumb_pattern_shape _ H)
    as [m Hm].
  destruct (PatternFacts.search_first _ _ PatternFacts.thumb_pattern_shape _ _ Hm)
    as (pre & w & Hfirst).
  assert (Hne : forall v, Html.unescape (group1 m) = Ok v -> v <> []).
  { intros v Hv. apply (HtmlFacts.unescape_nonempty _ _ Hv).
    destruct Hfirst as (_ & HP & _).
    exact (PatternFacts.link_value_has_dot _ _ _ _ _ HP). }
  exists pre, w, (rest m), (group1 m).
  split; [exact Hfirst|]. split; [|exact Hne].
  unfold extract_thumb_url. rewrite Hm.
  destruct (Html.unescape (group1 m)) as [v|e] eqn:Hv; [|reflexivity].
  cbn [rbind]. specialize (Hne v eq_refl).
  apply PyStrFacts.truthy_nonempty in Hne. rewrite Hne. reflexivity.
Qed.

Lemma extract_thumb_url_image (text : str) :
  ~ occurs jpg_anchor text -> occurs jpg_image text ->
  exists pre w post src,
    first_occurrence jpg_image text pre w post src /\
    extract_thumb_url text = Html.unescape src /\
    forall v, Html.unescape src = Ok v -> v <> [].
Proof.
  intros Hno H.
  apply (PatternFacts.search_absent _ _ PatternFacts.thumb_pattern_shape) in Hno.
  destruct (PatternFacts.search_found _ _ PatternFacts.alt_thumb_pattern_shape _ H)
    as [m Hm].
  destruct (PatternFacts.search_first _ _ PatternFacts.alt_thumb_pattern_shape _ _ Hm)
    as (pre & w & Hfirst).
  exists pre, w, (rest m), (group1 m).
  unfold extract_thumb_url. rewrite Hno, Hm. cbn [rbind truthy negb].
  split; [exact Hfirst|]. split; [reflexivity|].
  intros v Hv. apply (HtmlFacts.unescape_nonempty _ _ Hv).
  destruct Hfirst as (_ & HP & _).
  exact (PatternFacts.link_value_has_dot _ _ _ _ _ HP).
Qed.

Lemma extract_thumb_url_absent (text : str) :
  ~ occurs jpg_anchor text -> ~ occurs jpg_image text ->
  extract_thumb_url text = Ok [].
Proof.
  intros H1 H2.
  apply (PatternFacts.search_absent _ _ PatternFacts.thumb_pattern_shape) in H1.
  apply (PatternFacts.search_absent _ _ PatternFacts.alt_thumb_pattern_shape) in H2.
  unfold extract_thumb_url. rewrite H1, H2. reflexivity.
Qed.

Lemma extract_thumb_base64_found (text : str) :
  occurs base64_image text ->
  exists pre w post payload,
    first_occurrence base64_image text pre w post payload /\
    extract_thumb_base64 text = Some payload /\
    thumbnail_base64_field (extract_thumb_base64 text)
    = JString (data_uri_prefix ++ payload).
Proof.
  intros H.
  destruct (PatternFacts.search_found _ _
              PatternFacts.thumb_base64_pattern_shape _ H) as [m Hm].
  destruct (PatternFacts.search_first _ _
              PatternFacts.thumb_base64_pattern_shape _ _ Hm)
    as (pre & w & Hfirst).
  exists pre, w, (rest m), (group1 m).
  unfold extract_thumb_base64. rewrite Hm.
  split; [exact Hfirst|]. split; [reflexivity|].
  destruct Hfirst as (_ & (t1 & _ & _ & _ & Hne & _) & _).
  unfold thumbnail_base64_field.
  apply PyStrFacts.truthy_nonempty in Hne. rewrite Hne. reflexivity.
Qed.

Lemma extract_thumb_base64_absent (text : str) :
  ~ occurs base64_image text ->
  extract_thumb_base64 text = None /\
  thumbnail_base64_field (extract_thumb_base64 text) = JNull.
Proof.
  intros H.
  apply (PatternFacts.search_absent _ _
           PatternFacts.thumb_base64_pattern_shape) in H.
  unfold extract_thumb_base64. rewrite H. auto.
Qed.

(** The [thumbnail_base64] field is null or a data URI without quote. *)
Lemma thumbnail_base64_field_shape (text : str) :
  thumbnail_base64_field (extract_thumb_base64 text) = JNull \/
  exists payload,
    thumbnail_base64_field (extract_thumb_base64 text)
    = JString (data_uri_prefix ++ payload) /\ free_of dquote payload.
Proof.
  unfold extract_thumb_base64.
  destruct (search thumb_base64_pattern text) as [m|] eqn:Hm; [|left; reflexivity].
  destruct (PatternFacts.search_first _ _
              PatternFacts.thumb_base64_pattern_shape _ _ Hm)
    as (pre & w & _ & (t1 & _ & _ & _ & Hne & Hq) & _).
  right. exists (group1 m). unfold thumbnail_base64_field.
  apply PyStrFacts.truthy_nonempty in Hne. rewrite Hne. auto.
Qed.

(** *** When the three extractions return, and what they give *)

Lemma well_formed_substring (g text : str) :
  substring g text -> well_formed text -> well_formed g.
Proof.
  intros (pre & post & ->) H.
  apply JsonFacts.well_formed_app in H as [_ H].
  apply JsonFacts.well_formed_app in H as [H _]. exact H.
Qed.

(** Unescaping a value captured in the body. *)
Lemma unescape_captured_returns (g text : str) :
  substring g text -> short_numbers text ->
  exists v, Html.unescape g = Ok v.
Proof.
  intros Hg Hs. apply HtmlFacts.unescape_returns.
  exact (HtmlFacts.short_numbers_substring _ _ Hg Hs).
Qed.

Lemma unescape_captured_well_formed (g text v : str) :
  substring g text -> well_formed text -> Html.unescape g = Ok v ->
  well_formed v.
Proof.
  intros Hg Hw. apply HtmlFacts.unescape_well_formed.
  exact (well_formed_substring _ _ Hg Hw).
Qed.

Lemma video_link_substring (text : str) (m : match_obj) :
  search video_pattern text = Some m -> substring (group1 m) text.
Proof.
  apply (PatternFacts.search_group_substring _ _
           PatternFacts.video_pattern_shape).
  apply PatternFacts.link_value_inside.
Qed.

Lemma thumb_link_substring (text : str) (m : match_obj) :
  search thumb_pattern text = Some m -> substring (group1 m) text.
Proof.
  apply (PatternFacts.search_group_substring _ _
           PatternFacts.thumb_pattern_shape).
  apply PatternFacts.link_value_inside.
Qed.

Lemma alt_thumb_link_substring (text : str) (m : match_obj) :
  search alt_thumb_pattern text = Some m -> substring (group1 m) text.
Proof.
  apply (PatternFacts.search_group_substring _ _
           PatternFacts.alt_thumb_pattern_shape).
  apply PatternFacts.link_value_inside.
Qed.

Lemma payload_substring (text : str) (m : match_obj) :
  search thumb_base64_pattern text = Some m -> substring (group1 m) text.
Proof.
  apply (PatternFacts.search_group_substring _ _
           PatternFacts.thumb_base64_pattern_shape).
  apply PatternFacts.payload_inside.
Qed.

Lemma extract_video_url_returns (text : str) :
  short_numbers text -> exists v, extract_video_url text = Ok v.
Proof.
  intros Hs. unfold extract_video_url.
  destruct (search video_pattern text) as [m|] eqn:Hm; [|eauto].
  exact (unescape_captured_returns _ _ (video_link_substring _ _ Hm) Hs).
Qed.

Lemma extract_thumb_url_returns (text : str) :
  short_numbers text -> exists t, extract_thumb_url text = Ok t.
Proof.
  intros Hs. unfold extract_thumb_url.
  assert (Halt : exists t,
             match search alt_thumb_pattern text with
             | Some m => Html.unescape (group1 m)
             | None => Ok []
             end = Ok t).
  { destruct (search alt_thumb_pattern text) as [m|] eqn:Hm; [|eauto].
    exact (unescape_captured_returns _ _ (alt_thumb_link_substring _ _ Hm) Hs). }
  destruct (search thumb_pattern text) as [m|] eqn:Hm.
  - destruct (unescape_captured_returns _ _ (thumb_link_substring _ _ Hm) Hs)
      as [v ->].
    cbn [rbind]. destruct (negb (truthy v)); eauto.
  - cbn [rbind truthy negb]. exact Halt.
Qed.

Lemma extract_video_url_raises (text : str) (e : exn) :
  extract_video_url text = Raise e -> unexpected e.
Proof.
  unfold extract_video_url.
  destruct (search video_pattern text); [|discriminate].
  apply HtmlFacts.unescape_raises.
Qed.

Lemma extract_thumb_url_raises (text : str) (e : exn) :
  extract_thumb_url text = Raise e -> unexpected e.
Proof.
  unfold extract_thumb_url.
  assert (Halt : match search alt_thumb_pattern text with
                 | Some m => Html.unescape (group1 m)
                 | None => Ok []
                 end = Raise e -> unexpected e).
  { destruct (search alt_thumb_pattern text); [|discriminate].
    apply HtmlFacts.unescape_raises. }
  destruct (search thumb_pattern text) as [m|].
  - destruct (Html.unescape (group1 m)) as [v|e'] eqn:Hv.
    + cbn [rbind]. destruct (negb (truthy v)); [exact Halt | discriminate].
    + cbn [rbind]. intros H. injection H as <-.
      exact (HtmlFacts.unescape_raises _ _ Hv).
  - cbn [rbind truthy negb]. exact Halt.
Qed.

(** What the two unescaped extractions raise: the [ValueError] of a
    long decimal reference of the body. *)
Lemma extract_video_url_raises_long (text : str) (e : exn) :
  extract_video_url text = Raise e ->
  exists ds, e = ValueError ds /\ long_decimal_reference ds text.
Proof.
  unfold extract_video_url.
  destruct (search video_pattern text) as [m|] eqn:Hm; [|discriminate].
  intros H. apply HtmlFacts.unescape_raises_long in H as (ds & -> & Hl).
  exists ds. split; [reflexivity|].
  exact (HtmlFacts.long_reference_substring _ _ _
           (video_link_substring _ _ Hm) Hl).
Qed.

Lemma extract_thumb_url_raises_long (text : str) (e : exn) :
  extract_thumb_url text = Raise e ->
  exists ds, e = ValueError ds /\ long_decimal_reference ds text.
Proof.
  unfold extract_thumb_url.
  assert (Halt : match search alt_thumb_pattern text with
                 | Some m => Html.unescape (group1 m)
                 | None => Ok []
                 end = Raise e ->
                 exists ds, e = ValueError ds /\ long_decimal_reference ds text).
  { destruct (search alt_thumb_pattern text) as [m|] eqn:Hm; [|discriminate].
    intros H. apply HtmlFacts.unescape_raises_long in H as (ds & -> & Hl).
    exists ds. split; [reflexivity|].
    exact (HtmlFacts.long_reference_substring _ _ _
             (alt_thumb_link_substring _ _ Hm) Hl). }
  destruct (search thumb_pattern text) as [m|] eqn:Hm.
  - destruct (Html.unescape (group1 m)) as [v|e'] eqn:Hv.
    + cbn [rbind]. destruct (negb (truthy v)); [exact Halt | discriminate].
    + cbn [rbind]. intros H. injection H as <-.
      apply HtmlFacts.unescape_raises_long in Hv as (ds & -> & Hl).
      exists ds. split; [reflexivity|].
      exact (HtmlFacts.long_reference_substring _ _ _
               (thumb_link_substring _ _ Hm) Hl).
  - cbn [rbind truthy negb]. exact Halt.
Qed.

Lemma extract_video_url_well_formed (text v : str) :
  well_formed text -> extract_video_url text = Ok v -> well_formed v.
Proof.
  intros Hw. unfold extract_video_url.
  destruct (search video_pattern text) as [m|] eqn:Hm.
  - exact (unescape_captured_well_formed _ _ _ (video_link_substring _ _ Hm) Hw).
  - intros H. injection H as <-. constructor.
Qed.

Lemma extract_thumb_url_well_formed (text t : str) :
  well_formed text -> extract_thumb_url text = Ok t -> well_formed t.
Proof.
  intros Hw. unfold extract_thumb_url.
  assert (Halt : match search alt_thumb_pattern text with
                 | Some m => Html.unescape (group1 m)
                 | None => Ok []
                 end = Ok t -> well_formed t).
  { destruct (search alt_thumb_pattern text) as [m|] eqn:Hm.
    - exact (unescape_captured_well_formed _ _ _
               (alt_thumb_link_substring _ _ Hm) Hw).
    - intros H. injection H as <-. constructor. }
  destruct (search thumb_pattern text) as [m|] eqn:Hm.
  - destruct (Html.unescape (group1 m)) as [v|e'] eqn:Hv; [|discriminate].
    cbn [rbind]. destruct (negb (truthy v)); [exact Halt|].
    intros H. injection H as <-.
    exact (unescape_captured_well_formed _ _ _
             (thumb_link_substring _ _ Hm) Hw Hv).
  - cbn [rbind truthy negb]. exact Halt.
Qed.

Lemma extract_thumb_base64_well_formed (text payload : str) :
  well_formed text -> extract_thumb_base64 text = Some payload ->
  well_formed payload.
Proof.
  intros Hw. unfold extract_thumb_base64.
  destruct (search thumb_base64_pattern text) as [m|] eqn:Hm; [|discriminate].
  intros H. injection H as <-.
  exact (well_formed_substring _ _ (payload_substring _ _ Hm) Hw).
Qed.

(** *** Building the answer *)

Lemma not_found_init :
  JSONResponse_init not_found_content 404 = Ok not_found_response.
Proof. vm_compute. reflexivity. Qed.

Lemma dumps_success_content (v t : str) (b : option str) (url : str) :
  dumps (success_content v t b url)
  = lit "{"
    ++ ((encode_basestring (lit "status") ++ lit ":"
         ++ encode_basestring (lit "success"))
        ++ lit ","
        ++ (encode_basestring (lit "data") ++ lit ":"
            ++ lit "{"
            ++ ((encode_basestring (lit "video_url") ++ lit ":"
                 ++ encode_basestring v)
                ++ lit ","
                ++ (encode_basestring (lit "thumbnail_url") ++ lit ":"
                    ++ encode_basestring t)
                ++ lit ","
                ++ (encode_basestring (lit "thumbnail_base64") ++ lit ":"
                    ++ dumps (thumbnail_base64_field b))
                ++ lit ","
                ++ (encode_basestring (lit "original_url") ++ lit ":"
                    ++ encode_basestring url))
            ++ lit "}")
        ++ lit ","
        ++ (encode_basestring (lit "message") ++ lit ":"
            ++ encode_basestring (lit "Video extracted successfully")))
    ++ lit "}".
Proof. reflexivity. Qed.

Lemma base64_field_well_formed (b : option str) :
  well_formed (dumps (thumbnail_base64_field b))
  <-> forall payload, b = Some payload -> well_formed payload.
Proof.
  destruct b as [[|c p]|]; cbn [thumbnail_base64_field truthy dumps].
  - split; [|intros _; repeat constructor].
    intros _ payload H. injection H as <-. constructor.
  - rewrite JsonFacts.basestring_well_formed, JsonFacts.well_formed_app.
    split.
    + intros [_ H] payload E. injection E as <-. exact H.
    + intros H. split; [|apply H; reflexivity].
      apply JsonFacts.well_formed_forallb. reflexivity.
  - split; [|intros _; repeat constructor].
    intros _ payload H. discriminate H.
Qed.

(** The rendered success answer can be encoded exactly when its four
    values can. *)
Lemma success_content_well_formed (v t : str) (b : option str) (url : str) :
  well_formed (dumps (success_content v t b url))
  <-> well_formed v /\ well_formed t /\
      (forall payload, b = Some payload -> well_formed payload) /\
      well_formed url.
Proof.
  rewrite dumps_success_content.
  rewrite !JsonFacts.well_formed_app, !JsonFacts.basestring_well_formed,
    base64_field_well_formed.
  split; [tauto|].
  intros (Hv & Ht & Hb & Hu).
  repeat match goal with
  | |- _ /\ _ => split
  end; try assumption; apply JsonFacts.well_formed_forallb; reflexivity.
Qed.

Lemma success_init (v t : str) (b : option str) (url : str) :
  well_formed v -> well_formed t ->
  (forall payload, b = Some payload -> well_formed payload) ->
  well_formed url ->
  JSONResponse_init (success_content v t b url) 200
  = Ok (success_response v t b url).
Proof.
  intros Hv Ht Hb Hu. apply JsonFacts.init_ok.
  apply success_content_well_formed. auto.
Qed.

(** *** Steps 4 to 6 as a whole *)

Lemma extract_and_answer_absent (text url : str) :
  ~ occurs mp4_anchor text ->
  extract_and_answer text url
  = rbind (extract_thumb_url text) (fun _ => Ok not_found_response).
Proof.
  intros H. unfold extract_and_answer.
  rewrite (extract_video_url_absent _ H). cbn [rbind truthy].
  destruct (extract_thumb_url text); [|reflexivity].
  cbn [rbind]. exact not_found_init.
Qed.

Lemma extract_and_answer_found (text url v t : str) :
  extract_video_url text = Ok v -> v <> [] ->
  extract_thumb_url text = Ok t ->
  extract_and_answer text url
  = JSONResponse_init
      (success_content v t (extract_thumb_base64 text) url) 200.
Proof.
  intros Hv Hne Ht. unfold extract_and_answer. rewrite Hv, Ht. cbn [rbind].
  apply PyStrFacts.truthy_nonempty in Hne. rewrite Hne. reflexivity.
Qed.

(** An answer that is returned was built from the extracted values. *)
Lemma extract_and_answer_inv (text url : str) (r : JSONResponse) :
  extract_and_answer text url = Ok r ->
  exists v t,
    extract_video_url text = Ok v /\
    extract_thumb_url text = Ok t /\
    r = (if truthy v
         then success_response v t (extract_thumb_base64 text) url
         else not_found_response).
Proof.
  unfold extract_and_answer.
  destruct (extract_video_url text) as [v|] eqn:Hv; [|discriminate].
  cbn [rbind].
  destruct (extract_thumb_url text) as [t|] eqn:Ht; [|discriminate].
  cbn [rbind]. intros H. exists v, t. split; [reflexivity|].
  split; [reflexivity|].
  destruct (truthy v).
  - apply JsonFacts.init_ok_inv in H as [-> _]. reflexivity.
  - apply JsonFacts.init_ok_inv in H as [-> _]. reflexivity.
Qed.

(** Steps 4 to 6 return on every body without lone surrogate and
    without long run of digits. *)
Lemma extract_and_answer_returns (text url : str) :
  well_formed text -> short_numbers text -> well_formed url ->
  exists r, extract_and_answer text url = Ok r.
Proof.
  intros Hw Hs Hu. unfold extract_and_answer.
  destruct (extract_video_url_returns text Hs) as [v Hv].
  destruct (extract_thumb_url_returns text Hs) as [t Ht].
  rewrite Hv, Ht. cbn [rbind].
  destruct (truthy v).
  - rewrite success_init; eauto.
    + exact (extract_video_url_well_formed _ _ Hw Hv).
    + exact (extract_thumb_url_well_formed _ _ Hw Ht).
    + intros payload. apply extract_thumb_base64_well_formed. exact Hw.
  - rewrite not_found_init. eauto.
Qed.

Lemma encode_error_unexpected (s : str) (start stop : nat) :
  unexpected (UnicodeEncodeError s start stop).
Proof. split; reflexivity. Qed.

(** What steps 4 to 6 raise comes from unescaping one of the two links
    or from encoding the answer, and is no exception of [requests]. *)
Lemma extract_and_answer_raises (text url : str) (e : exn) :
  well_formed url ->
  extract_and_answer text url = Raise e ->
  unexpected e /\
  (extract_video_url text = Raise e \/
   extract_thumb_url text = Raise e \/
   exists v t start stop,
     extract_video_url text = Ok v /\ extract_thumb_url text = Ok t /\
     ~ (well_formed v /\ well_formed t /\
        (forall payload,
           extract_thumb_base64 text = Some payload -> well_formed payload)) /\
     e = UnicodeEncodeError
           (dumps (success_content v t (extract_thumb_base64 text) url))
           start stop).
Proof.
  intros Hu. unfold extract_and_answer.
  destruct (extract_video_url text) as [v|e1] eqn:Hv.
  2:{ cbn [rbind]. intros H. injection H as <-.
      split; [exact (extract_video_url_raises _ _ Hv) | auto]. }
  cbn [rbind].
  destruct (extract_thumb_url text) as [t|e2] eqn:Ht.
  2:{ cbn [rbind]. intros H. injection H as <-.
      split; [exact (extract_thumb_url_raises _ _ Ht) | auto]. }
  cbn [rbind]. destruct (truthy v).
  - intros H. apply JsonFacts.init_raises in H as (Hnw & start & stop & ->).
    split; [apply encode_error_unexpected|].
    right. right. exists v, t, start, stop.
    split; [reflexivity|]. split; [reflexivity|]. split; [|reflexivity].
    intros (H1 & H2 & H3). apply Hnw.
    apply success_content_well_formed. auto.
  - rewrite not_found_init. discriminate.
Qed.

(** *** Running the body of the [try] statement *)

Lemma on_exception_raises (e : exn) (t : trace) :
  exists code d,
    on_exception e t = (Raise (HTTPException code d), t) /\
    (code = 408%N \/ code = 500%N) /\
    (code = 408%N <-> is_Timeout e = true).
Proof.
  unfold on_exception, raise.
  destruct (is_Timeout e); [|destruct (is_RequestException e)];
    eexists; eexists; (split; [reflexivity|]); split; auto;
    split; intros; try reflexivity; discriminate.
Qed.

(** The two causes of a failure of steps 4 to 6: a long decimal
    reference in the body, or a lone surrogate in it. *)
Lemma extract_and_answer_causes (text url : str) (e : exn) :
  well_formed url ->
  extract_and_answer text url = Raise e ->
  (exists ds, e = ValueError ds /\ long_decimal_reference ds text) \/
  (exists object start stop,
     e = UnicodeEncodeError object start stop /\ ~ well_formed text).
Proof.
  intros Hu H.
  destruct (extract_and_answer_raises text url e Hu H)
    as (_ & [Hv | [Ht | (v & t & start & stop & Hv & Ht & Hn & ->)]]).
  - left. exact (extract_video_url_raises_long _ _ Hv).
  - left. exact (extract_thumb_url_raises_long _ _ Ht).
  - right. eexists. exists start, stop. split; [reflexivity|].
    intros Hw. apply Hn. split; [|split].
    + exact (extract_video_url_well_formed _ _ Hw Hv).
    + exact (extract_thumb_url_well_formed _ _ Hw Ht).
    + intros payload. apply extract_thumb_base64_well_formed. exact Hw.
Qed.

Lemma fetch_quote_raises (net : network) (url : str) (e : exn) :
  Urllib.quote url [] = Raise e ->
  exec (fetch_and_extract net url) = (Raise e, []).
Proof.
  intros H. unfold exec, fetch_and_extract, bind, lift. rewrite H. reflexivity.
Qed.

Lemma fetch_request_raises (net : network) (url enc : str) (e : exn) :
  Urllib.quote url [] = Ok enc ->
  net (request_for enc) = Raise e ->
  exec (fetch_and_extract net url) = (Raise e, [request_for enc]).
Proof.
  intros H1 H2. unfold exec, fetch_and_extract, bind, lift, requests_get.
  rewrite H1. cbv beta iota.
  change (mkRequest (target_prefix ++ enc) request_headers true 25)
    with (request_for enc).
  rewrite H2. reflexivity.
Qed.

Lemma fetch_status_raises (net : network) (url enc : str) (resp : Response)
    (e : exn) :
  Urllib.quote url [] = Ok enc ->
  net (request_for enc) = Ok resp ->
  raise_for_status resp = Raise e ->
  exec (fetch_and_extract net url) = (Raise e, [request_for enc]).
Proof.
  intros H1 H2 H3. unfold exec, fetch_and_extract, bind, lift, requests_get.
  rewrite H1. cbv beta iota.
  change (mkRequest (target_prefix ++ enc) request_headers true 25)
    with (request_for enc).
  rewrite H2. cbv beta iota. rewrite H3. reflexivity.
Qed.

Lemma fetch_answers (net : network) (url enc : str) (resp : Response) :
  Urllib.quote url [] = Ok enc ->
  net (request_for enc) = Ok resp ->
  raise_for_status resp = Ok tt ->
  exec (fetch_and_extract net url)
  = (extract_and_answer (text resp) url, [request_for enc]).
Proof.
  intros H1 H2 H3.
  unfold exec, fetch_and_extract, bind, lift, requests_get.
  rewrite H1. cbv beta iota.
  change (mkRequest (target_prefix ++ enc) request_headers true 25)
    with (request_for enc).
  rewrite H2. cbv beta iota. rewrite H3. reflexivity.
Qed.

Lemma on_exception_unexpected (e : exn) (t : trace) :
  unexpected e -> on_exception e t = (Raise (unexpected_error e), t).
Proof. intros [H1 H2]. unfold on_exception. rewrite H1, H2. reflexivity. Qed.

Lemma raise_for_status_cases (resp : Response) :
  ((400 <= status_code resp < 600)%N /\
   raise_for_status resp = Raise (HTTPError (status_code resp)))
  \/ (~ (400 <= status_code resp < 600)%N /\ raise_for_status resp = Ok tt).
Proof.
  unfold raise_for_status.
  destruct (N.leb_spec 400 (status_code resp)),
           (N.ltb_spec (status_code resp) 600); simpl;
    [left | right | right | right]; split; auto; lia.
Qed.

Lemma is_2xx_passes (resp : Response) :
  is_2xx (status_code resp) -> raise_for_status resp = Ok tt.
Proof.
  intros [H1 H2]. destruct (raise_for_status_cases resp) as [[H _] | [_ H]];
    [lia | exact H].
Qed.

Lemma exec_try_except (A : Type) (body : M A) (handler : exn -> M A) :
  exec (try_except body handler)
  = match exec body with
    | (Ok a, t) => (Ok a, t)
    | (Raise e, t) => handler e t
    end.
Proof. reflexivity. Qed.

(** The answer of the GET handler when the upstream answered: what
    steps 4 to 6 return is returned, and what they raise goes to the last
    [except] clause. *)
Lemma download_parses (net : network) (url enc : str) (resp : Response) :
  validated url ->
  Urllib.quote url [] = Ok enc ->
  net (request_for enc) = Ok resp ->
  raise_for_status resp = Ok tt ->
  exec (download_instagram_content net url)
  = (answer_or_500 (extract_and_answer (text resp) url), [request_for enc]).
Proof.
  intros Hv H1 H2 H3.
  rewrite (download_validated net url Hv), exec_try_except.
  rewrite (fetch_answers net url enc resp H1 H2 H3).
  destruct (extract_and_answer (text resp) url) as [r|e] eqn:E; [reflexivity|].
  apply on_exception_unexpected.
  apply (extract_and_answer_raises (text resp) url e); [|exact E].
  exact (UrllibFacts.quote_ok_well_formed _ _ H1).
Qed.

Lemma download_answers (net : network) (url : str) (resp : Response) :
  validated url -> upstream_answers net url resp ->
  exists enc,
    Urllib.quote url [] = Ok enc /\
    exec (download_instagram_content net url)
    = (answer_or_500 (extract_and_answer (text resp) url), [request_for enc]).
Proof.
  intros Hv (enc & H1 & H2 & H3). exists enc. split; [exact H1|].
  exact (download_parses net url enc resp Hv H1 H2 H3).
Qed.

(** An answer that the handler returns after the upstream answered. *)
Lemma download_returned (net : network) (url : str) (resp : Response)
    (r : JSONResponse) :
  validated url -> upstream_answers net url resp ->
  fst (exec (download_instagram_content net url)) = Ok r ->
  extract_and_answer (text resp) url = Ok r.
Proof.
  intros Hv Ha E.
  destruct (download_answers net url resp Hv Ha) as (enc & _ & E').
  rewrite E' in E. cbn [fst] in E.
  destruct (extract_and_answer (text resp) url); [exact E | discriminate E].
Qed.

(** The handler returns an answer on every body without lone surrogate
    and without long run of digits. *)
Lemma download_returns (net : network) (url : str) (resp : Response) :
  validated url -> upstream_answers net url resp ->
  well_formed (text resp) -> short_numbers (text resp) ->
  exists enc r,
    extract_and_answer (text resp) url = Ok r /\
    exec (download_instagram_content net url) = (Ok r, [request_for enc]).
Proof.
  intros Hv Ha Hw Hs.
  destruct (download_answers net url resp Hv Ha) as (enc & Hq & E).
  destruct (extract_and_answer_returns (text resp) url Hw Hs
              (UrllibFacts.quote_ok_well_formed _ _ Hq)) as [r Hr].
  exists enc, r. split; [exact Hr|]. rewrite E, Hr. reflexivity.
Qed.

(** The status of an answer built by steps 4 to 6. *)
Lemma extract_and_answer_status (text url : str) (r : JSONResponse) :
  extract_and_answer text url = Ok r ->
  (resp_status r = 200%N /\ occurs mp4_anchor text) \/
  (r = not_found_response /\ ~ occurs mp4_anchor text).
Proof.
  intros H. apply extract_and_answer_inv in H as (v & t & Hv & _ & ->).
  destruct v as [|c v].
  - right. split; [reflexivity | exact (extract_video_url_empty _ Hv)].
  - left. split; [reflexivity|].
    destruct (search video_pattern text) as [m|] eqn:Hm.
    + exact (PatternFacts.search_some_occurs _ _
               PatternFacts.video_pattern_shape _ _ Hm).
    + unfold extract_video_url in Hv. rewrite Hm in Hv. discriminate.
Qed.

(** An answer that the handler returns after the upstream answered is
    built from the extracted values. *)
Lemma download_returned_inv (net : network) (url : str) (resp : Response)
    (r : JSONResponse) :
  validated url -> upstream_answers net url resp ->
  fst (exec (download_instagram_content net url)) = Ok r ->
  exists v t,
    extract_video_url (text resp) = Ok v /\
    extract_thumb_url (text resp) = Ok t /\
    r = (if truthy v
         then success_response v t (extract_thumb_base64 (text resp)) url
         else not_found_response).
Proof.
  intros Hv Ha E. apply extract_and_answer_inv.
  exact (download_returned net url resp r Hv Ha E).
Qed.

(** What steps 4 to 6 raise reaches the client as a 500. *)
Lemma download_parse_failed (net : network) (url : str) (resp : Response)
    (e : exn) :
  validated url -> upstream_answers net url resp ->
  extract_and_answer (text resp) url = Raise e ->
  fst (exec (download_instagram_content net url)) = Raise (unexpected_error e).
Proof.
  intros Hv Ha E.
  destruct (download_answers net url resp Hv Ha) as (enc & _ & ->).
  rewrite E. reflexivity.
Qed.

(** With a video link in the body, the handler returns the success
    answer on every body without lone surrogate and without long run of
    digits. *)
Lemma download_returns_success (net : network) (url : str) (resp : Response) :
  validated url -> upstream_answers net url resp ->
  occurs mp4_anchor (text resp) ->
  well_formed (text resp) -> short_numbers (text resp) ->
  exists r,
    fst (exec (download_instagram_content net url)) = Ok r /\
    resp_status r = 200%N.
Proof.
  intros Hv Ha Ho Hw Hs.
  destruct (download_returns net url resp Hv Ha Hw Hs) as (enc & r & Hr & E).
  exists r. rewrite E. split; [reflexivity|].
  destruct (extract_and_answer_status _ _ _ Hr) as [[H _] | [_ H]];
    [exact H | contradiction].
Qed.

(** Every outcome of the GET handler on a validated input. *)
Lemma download_outcomes (net : network) (url : str) :
  validated url ->
  (exists e d,
      Urllib.quote url [] = Raise e /\
      exec (download_instagram_content net url)
      = (Raise (HTTPException 500 d), []))
  \/ exists enc,
      Urllib.quote url [] = Ok enc /\
      snd (exec (download_instagram_content net url)) = [request_for enc] /\
      ((exists r, fst (exec (download_instagram_content net url)) = Ok r /\
                  (resp_status r = 200%N \/ resp_status r = 404%N))
       \/ exists code d,
            fst (exec (download_instagram_content net url))
            = Raise (HTTPException code d) /\
            (code = 408%N \/ code = 500%N)).
Proof.
  intros Hv.
  destruct (Urllib.quote url []) as [enc|e] eqn:Hq.
  - right. exists enc. split; [reflexivity|].
    destruct (net (request_for enc)) as [resp|e] eqn:Hn.
    + destruct (raise_for_status_cases resp) as [[_ Hs] | [_ Hs]].
      * rewrite (download_validated net url Hv), exec_try_except.
        rewrite (fetch_status_raises net url enc resp _ Hq Hn Hs).
        destruct (on_exception_raises (HTTPError (status_code resp))
                    [request_for enc]) as (code & d & -> & Hc & _).
        split; [reflexivity|]. right. exists code, d. split; [reflexivity | exact Hc].
      * rewrite (download_parses net url enc resp Hv Hq Hn Hs).
        split; [reflexivity|]. cbn [fst].
        destruct (extract_and_answer (text resp) url) as [r|e] eqn:E.
        -- left. exists r. split; [reflexivity|].
           destruct (extract_and_answer_status _ _ _ E) as [[H _] | [-> _]];
             auto.
        -- right. eexists. eexists. split; [reflexivity | auto].
    + rewrite (download_validated net url Hv), exec_try_except.
      rewrite (fetch_request_raises net url enc e Hq Hn).
      destruct (on_exception_raises e [request_for enc])
        as (code & d & -> & Hc & _).
      split; [reflexivity|]. right. exists code, d. split; [reflexivity | exact Hc].
  - left. rewrite (download_validated net url Hv), exec_try_except.
    rewrite (fetch_quote_raises net url e Hq).
    exists e. unfold on_exception.
    assert (Hcls : is_Timeout e = false /\ is_RequestException e = false).
    { unfold Urllib.quote, Urllib.encode_utf8 in Hq.
      destruct url; [discriminate|].
      destruct (Urllib.first_surrogates 0 (c :: url)) as [[a b]|];
        [|discriminate].
      simpl in Hq. injection Hq as <-. auto. }
    destruct Hcls as [-> ->]. eexists. split; reflexivity.
Qed.

(** With a non-empty URL in its body, the POST handler hands over to the
    GET handler. *)
Lemma post_delegates (net : network) (url : str) :
  truthy url = true ->
  download_instagram_content_post net (url_body url)
  = download_instagram_content net url.
Proof.
  intros H. unfold download_instagram_content_post, url_body.
  change (dict_get (lit "url") [(lit "url", VStr url)]) with (VStr url).
  cbn [val_truthy]. rewrite H. reflexivity.
Qed.

End ApiFacts.

(* ================================================================== *)
(** ** Properties of the service *)
(* ================================================================== *)

Import Re Requests Json Api Spec.

(** *** Searching past text that opens no tag *)

Lemma match_at_other_start (x c : char) (l : str) (r : regex) (s : str) :
  c <> x -> match_at (Cat (Lit (x :: l)) r) (c :: s) = None.
Proof.
  intros H. unfold match_at. cbn [run strip_prefix].
  apply not_eq_sym in H. apply N.eqb_neq in H. rewrite H. reflexivity.
Qed.

Lemma search_skips (x : char) (l : str) (r : regex) (pre s : str) :
  free_of x pre ->
  search (Cat (Lit (x :: l)) r) (pre ++ s) = search (Cat (Lit (x :: l)) r) s.
Proof.
  induction pre as [|c pre IH]; intros H; [reflexivity|].
  cbn [app search]. rewrite match_at_other_start.
  - apply IH. intros Hin. apply H. right. exact Hin.
  - intros ->. apply H. left. reflexivity.
Qed.

(** *** The sample anchors and the sample image *)

Lemma example_video_found (pre post : str) :
  none_before mp4_anchor (pre ++ example_video_anchor ++ post) (length pre) ->
  extract_video_url (pre ++ example_video_anchor ++ post) = Ok example_video_url.
Proof.
  intros H. unfold extract_video_url.
  rewrite (PatternFacts.search_past _ _ PatternFacts.video_pattern_shape _ _ H).
  vm_compute. reflexivity.
Qed.

Lemma example_escaped_found (pre post : str) :
  none_before mp4_anchor (pre ++ example_escaped_anchor ++ post) (length pre) ->
  extract_video_url (pre ++ example_escaped_anchor ++ post)
  = Ok (example_video_url ++ lit "&t=1").
Proof.
  intros H. unfold extract_video_url.
  rewrite (PatternFacts.search_past _ _ PatternFacts.video_pattern_shape _ _ H).
  vm_compute. reflexivity.
Qed.

Lemma example_base64_found (pre post : str) :
  none_before base64_image (pre ++ example_base64_image ++ post) (length pre) ->
  thumbnail_base64_field
    (extract_thumb_base64 (pre ++ example_base64_image ++ post))
  = JString (lit "data:image/jpg;base64,AAAA").
Proof.
  intros H. unfold extract_thumb_base64.
  rewrite (PatternFacts.search_past _ _
             PatternFacts.thumb_base64_pattern_shape _ _ H).
  vm_compute. reflexivity.
Qed.

Lemma sample_reel_url_validated : validated sample_reel_url.
Proof. apply ApiFacts.passes_validation_spec. vm_compute. reflexivity. Qed.

Lemma sample_upstream_answers (body : str) :
  upstream_answers (sample_upstream 200 body) sample_reel_url
    (mkResponse 200 body).
Proof.
  exists (lit "https%3A%2F%2Fwww.instagram.com%2Freel%2Fabc%2F").
  split; [vm_compute; reflexivity|]. split; reflexivity.
Qed.

Lemma example_video_anchor_occurs : occurs mp4_anchor example_video_anchor.
Proof.
  apply (PatternFacts.search_some_occurs _ _ PatternFacts.video_pattern_shape
           _ (mkmatch [example_video_url] (lit "</a>"))).
  vm_compute. reflexivity.
Qed.

Lemma example_video_anchor_plain :
  well_formed example_video_anchor /\ short_numbers example_video_anchor.
Proof.
  split.
  - apply JsonFacts.well_formed_forallb. vm_compute. reflexivity.
  - apply HtmlFacts.short_numbers_short. vm_compute. lia.
Qed.

(** *** C1 *)

(** C1. An input that is empty, made of white space only, or that has
    neither [instagram.com] nor [instagr.am] as a substring is answered
    with status 400 (and one of the two details of the validation)
    whatever the upstream would do, and no request is sent.  Conversely an input with one of the two substrings passes
    validation: the body of the [try] statement runs, the answer is never
    a 400, the one request for the encoded URL is sent, and encoding
    succeeds on every string free of lone surrogates. *)
Theorem invalid_url_rejected_before_fetch (net : network) (url : str) :
  (whitespace_only url \/ ~ names_instagram url ->
     exists d,
       exec (download_instagram_content net url)
       = (Raise (HTTPException 400 d), []) /\
       http_status (fst (exec (download_instagram_content net url))) = 400%N /\
       (d = Text (lit "Missing Instagram URL") \/
        d = Text (lit "Invalid Instagram URL")))
  /\
  (names_instagram url ->
     validated url /\
     exec (download_instagram_content net url)
     = exec (try_except (fetch_and_extract net url) on_exception) /\
     http_status (fst (exec (download_instagram_content net url))) <> 400%N /\
     (forall enc,
        Urllib.quote url [] = Ok enc ->
        snd (exec (download_instagram_content net url)) = [request_for enc]) /\
     (well_formed url -> exists enc, Urllib.quote url [] = Ok enc)).
Proof.
  split.
  - intros H.
    assert (Hcases : whitespace_only url \/
                     (~ whitespace_only url /\ ~ names_instagram url)).
    { destruct (negb (truthy url) || str_eqb (strip url) []) eqn:E.
      - left. apply PyStrFacts.blank_test. exact E.
      - right. split.
        + rewrite <- PyStrFacts.blank_test. congruence.
        + destruct H as [H | H]; [|exact H].
          apply PyStrFacts.blank_test in H. congruence. }
    destruct Hcases as [Hb | [Hb Hn]].
    + rewrite (ApiFacts.download_blank net url Hb). eexists.
      split; [reflexivity|]. split; [reflexivity|]. left. reflexivity.
    + rewrite (ApiFacts.download_foreign net url Hb Hn). eexists.
      split; [reflexivity|]. split; [reflexivity|]. right. reflexivity.
  - intros Hn.
    assert (Hv : validated url).
    { split; [apply ApiFacts.names_not_blank|]; exact Hn. }
    split; [exact Hv|].
    split; [rewrite (ApiFacts.download_validated net url Hv); reflexivity|].
    split; [|split].
    + destruct (ApiFacts.download_outcomes net url Hv)
        as [(e & d & _ & ->) | (enc & _ & _ & [(r & -> & Hr) | (c & d & -> & Hc)])];
        simpl; [discriminate | | ]; intros E; rewrite E in *;
        destruct Hr || destruct Hc; discriminate.
    + intros enc Hq.
      destruct (ApiFacts.download_outcomes net url Hv)
        as [(e & d & Hq' & _) | (enc' & Hq' & Ht & _)]; [congruence|].
      rewrite Ht. congruence.
    + apply UrllibFacts.quote_total.
Qed.

Lemma invalid_url_rejected_before_fetch_witness :
  (exists d,
     exec (download_instagram_content sample_timeout sample_foreign_url)
     = (Raise (HTTPException 400 d), []) /\
     http_status
       (fst (exec (download_instagram_content sample_timeout sample_foreign_url)))
     = 400%N /\
     (d = Text (lit "Missing Instagram URL") \/
      d = Text (lit "Invalid Instagram URL")))
  /\ validated sample_reel_url.
Proof.
  split.
  - apply (proj1 (invalid_url_rejected_before_fetch sample_timeout
                    sample_foreign_url)).
    right. intros H. apply ApiFacts.names_instagram_test in H.
    vm_compute in H. discriminate H.
  - apply (proj2 (invalid_url_rejected_before_fetch sample_timeout
                    sample_reel_url)).
    apply ApiFacts.names_instagram_test. vm_compute. reflexivity.
Defined.

(** *** C2 *)

(** C2. When the body has an anchor with an [.mp4] link, [video_url] is
    what unescaping the [href] of a leftmost such anchor gives: every
    answer the handler returns carries it as its [video_url], a failure
    of the unescaping is answered with the 500 of unexpected errors, and
    an answer is returned for every body free of lone surrogates and of
    runs of more than 4300 digits.  The sample anchor, when no video
    anchor starts before it, gives the sample URL, and an escaped
    ampersand in the link is decoded.  When the body has no such anchor,
    [video_url] is empty and a returned answer carries no data. *)
Theorem video_url_is_first_mp4_anchor (text : str) :
  (occurs mp4_anchor text ->
     exists pre w post href,
       first_occurrence mp4_anchor text pre w post href /\
       extract_video_url text = Html.unescape href /\
       forall net url resp,
         validated url -> upstream_answers net url resp ->
         Requests.text resp = text ->
         (forall r,
            fst (exec (download_instagram_content net url)) = Ok r ->
            exists v,
              Html.unescape href = Ok v /\
              data_field (lit "video_url") r = Some (JString v)) /\
         (forall e,
            Html.unescape href = Raise e ->
            fst (exec (download_instagram_content net url))
            = Raise (unexpected_error e)) /\
         (well_formed text -> short_numbers text ->
          exists r, fst (exec (download_instagram_content net url)) = Ok r))
  /\
  (forall pre post,
     none_before mp4_anchor (pre ++ example_video_anchor ++ post) (length pre) ->
     extract_video_url (pre ++ example_video_anchor ++ post)
     = Ok example_video_url)
  /\
  (forall pre post,
     none_before mp4_anchor (pre ++ example_escaped_anchor ++ post) (length pre) ->
     extract_video_url (pre ++ example_escaped_anchor ++ post)
     = Ok (example_video_url ++ lit "&t=1"))
  /\
  (forall net url resp,
     validated url -> upstream_answers net url resp ->
     Requests.text resp = example_video_anchor ->
     exists r,
       fst (exec (download_instagram_content net url)) = Ok r /\
       data_field (lit "video_url") r = Some (JString example_video_url))
  /\
  (~ occurs mp4_anchor text ->
     extract_video_url text = Ok [] /\
     forall net url resp,
       validated url -> upstream_answers net url resp ->
       Requests.text resp = text ->
       (forall r,
          fst (exec (download_instagram_content net url)) = Ok r ->
          field (lit "data") (content r) = Some JNull /\
          data_field (lit "video_url") r = None) /\
       (short_numbers text ->
        exists r, fst (exec (download_instagram_content net url)) = Ok r)).
Proof.
  split; [|split; [|split; [|split]]].
  - intros H.
    destruct (ApiFacts.extract_video_url_found text H)
      as (pre & w & post & href & Hfirst & Hu & Hne).
    exists pre, w, post, href. split; [exact Hfirst|]. split; [exact Hu|].
    intros net url resp Hval Hans <-. split; [|split].
    + intros r Hr.
      destruct (ApiFacts.download_returned_inv net url resp r Hval Hans Hr)
        as (v & t & Hv & _ & ->).
      rewrite Hu in Hv. exists v. split; [exact Hv|].
      apply Hne in Hv. apply PyStrFacts.truthy_nonempty in Hv. rewrite Hv.
      reflexivity.
    + intros e He.
      apply (ApiFacts.download_parse_failed net url resp e Hval Hans).
      unfold extract_and_answer. rewrite Hu, He. reflexivity.
    + intros Hw Hs.
      destruct (ApiFacts.download_returns net url resp Hval Hans Hw Hs)
        as (enc & r & _ & E).
      exists r. rewrite E. reflexivity.
  - apply example_video_found.
  - apply example_escaped_found.
  - intros net url resp Hval Hans Ht.
    destruct example_video_anchor_plain as [Hw Hs]. rewrite <- Ht in Hw, Hs.
    destruct (ApiFacts.download_returns net url resp Hval Hans Hw Hs)
      as (enc & r & _ & E).
    exists r. rewrite E. split; [reflexivity|].
    assert (Hr : fst (exec (download_instagram_content net url)) = Ok r)
      by (rewrite E; reflexivity).
    destruct (ApiFacts.download_returned_inv net url resp r Hval Hans Hr)
      as (v & t & Hv & _ & ->).
    rewrite Ht in Hv. vm_compute in Hv. injection Hv as <-. reflexivity.
  - intros H. pose proof (ApiFacts.extract_video_url_absent text H) as Hv.
    split; [exact Hv|].
    intros net url resp Hval Hans <-. split.
    + intros r Hr.
      destruct (ApiFacts.download_returned_inv net url resp r Hval Hans Hr)
        as (v & t & Hv' & _ & ->).
      rewrite Hv in Hv'. injection Hv' as <-. split; reflexivity.
    + intros Hs.
      destruct (ApiFacts.extract_thumb_url_returns _ Hs) as [t Ht].
      destruct (ApiFacts.download_answers net url resp Hval Hans)
        as (enc & _ & ->).
      rewrite (ApiFacts.extract_and_answer_absent _ url H), Ht.
      eexists. reflexivity.
Qed.

Lemma video_url_is_first_mp4_anchor_witness :
  (exists pre w post href,
     first_occurrence mp4_anchor example_video_anchor pre w post href /\
     extract_video_url example_video_anchor = Html.unescape href) /\
  extract_video_url
    (lit "<html> " ++ example_video_anchor ++ lit "<a href=>")
  = Ok example_video_url.
Proof.
  split.
  - destruct (proj1 (video_url_is_first_mp4_anchor example_video_anchor)
                example_video_anchor_occurs)
      as (pre & w & post & href & H1 & H2 & _).
    exists pre, w, post, href. split; [exact H1 | exact H2].
  - apply (proj1 (proj2 (video_url_is_first_mp4_anchor []))).
    apply (PatternFacts.search_none_before _ _
             PatternFacts.video_pattern_shape).
    vm_compute. reflexivity.
Defined.

(** *** C3 *)

(** C3, as stated, fails: a 2xx body without video link can be answered
    with a 500.  The thumbnail link is unescaped before the answer is
    chosen; here it holds a decimal character reference of 4301 digits,
    which [int()] refuses. *)
Lemma long_reference_in_thumbnail_gives_500 :
  validated sample_reel_url /\
  is_2xx 200 /\
  ~ occurs mp4_anchor sample_long_reference_body /\
  fst (exec (download_instagram_content
               (sample_upstream 200 sample_long_reference_body)
               sample_reel_url))
  = Raise (unexpected_error (ValueError (repeat 49%N 4301))) /\
  http_status
    (fst (exec (download_instagram_content
                  (sample_upstream 200 sample_long_reference_body)
                  sample_reel_url)))
  = 500%N /\
  http_status
    (fst (exec (download_instagram_content
                  (sample_upstream 200 sample_long_reference_body)
                  sample_reel_url)))
  <> 404%N.
Proof.
  split; [exact sample_reel_url_validated|].
  split; [unfold is_2xx; lia|].
  split.
  { apply (PatternFacts.search_absent _ _ PatternFacts.video_pattern_shape).
    vm_compute. reflexivity. }
  assert (E : fst (exec (download_instagram_content
                           (sample_upstream 200 sample_long_reference_body)
                           sample_reel_url))
              = Raise (unexpected_error (ValueError (repeat 49%N 4301)))).
  { vm_compute. reflexivity. }
  rewrite E. split; [reflexivity|]. split; [reflexivity | discriminate].
Qed.

(** C3, amended. When the upstream answers with a 2xx status and a body
    that has no anchor with an [.mp4] link, one request was sent, and the
    outcome follows the thumbnail link: when unescaping it returns, the
    handler returns (it does not raise) the 404 answer whose content is
    [status: error], a message and [data: null], so that no thumbnail is
    in it; when unescaping it raises, which it does only with the
    [ValueError] of a decimal character reference of more than 4300
    digits in the body, the handler answers with the 500 of unexpected
    errors.  Unescaping returns on every body without a run of more than
    4300 digits. *)
Theorem no_video_gives_soft_404 (net : network) (url enc : str)
    (resp : Response) :
  validated url ->
  Urllib.quote url [] = Ok enc ->
  net (request_for enc) = Ok resp ->
  is_2xx (status_code resp) ->
  ~ occurs mp4_anchor (text resp) ->
  snd (exec (download_instagram_content net url)) = [request_for enc] /\
  (forall t,
     extract_thumb_url (text resp) = Ok t ->
     exists r message,
       fst (exec (download_instagram_content net url)) = Ok r /\
       http_status (Ok r) = 404%N /\
       content r
       = JObject [ (lit "status", JString (lit "error"));
                   (lit "message", JString message);
                   (lit "data", JNull) ] /\
       data_field (lit "thumbnail_url") r = None /\
       data_field (lit "thumbnail_base64") r = None) /\
  (forall e,
     extract_thumb_url (text resp) = Raise e ->
     fst (exec (download_instagram_content net url))
     = Raise (unexpected_error e) /\
     http_status (fst (exec (download_instagram_content net url))) = 500%N /\
     exists ds, e = ValueError ds /\ long_decimal_reference ds (text resp)) /\
  (short_numbers (text resp) ->
   exists t, extract_thumb_url (text resp) = Ok t).
Proof.
  intros Hval Hq Hn H2 Hno.
  pose proof (ApiFacts.download_parses net url enc resp Hval Hq Hn
                (ApiFacts.is_2xx_passes resp H2)) as E.
  rewrite (ApiFacts.extract_and_answer_absent _ url Hno) in E.
  rewrite E. cbn [fst snd]. split; [reflexivity|]. split; [|split].
  - intros t Ht. rewrite Ht. exists not_found_response. eexists.
    split; [reflexivity|]. repeat split.
  - intros e He. rewrite He. split; [reflexivity|]. split; [reflexivity|].
    exact (ApiFacts.extract_thumb_url_raises_long _ _ He).
  - apply ApiFacts.extract_thumb_url_returns.
Qed.

Lemma no_video_gives_soft_404_witness :
  exists r message,
    fst (exec (download_instagram_content
                 (sample_upstream 200 (lit "<html></html>")) sample_reel_url))
    = Ok r /\
    http_status (Ok r) = 404%N /\
    content r
    = JObject [ (lit "status", JString (lit "error"));
                (lit "message", JString message);
                (lit "data", JNull) ] /\
    data_field (lit "thumbnail_url") r = None /\
    data_field (lit "thumbnail_base64") r = None.
Proof.
  apply (proj1 (proj2 (no_video_gives_soft_404
           (sample_upstream 200 (lit "<html></html>")) sample_reel_url
           (lit "https%3A%2F%2Fwww.instagram.com%2Freel%2Fabc%2F")
           (mkResponse 200 (lit "<html></html>"))
           sample_reel_url_validated
           ltac:(vm_compute; reflexivity)
           eq_refl
           ltac:(unfold is_2xx; simpl; lia)
           ltac:(apply (PatternFacts.search_absent _ _
                          PatternFacts.video_pattern_shape);
                 vm_compute; reflexivity))) []).
  vm_compute. reflexivity.
Defined.

(** *** C4 *)

(** C4. [thumbnail_url] prefers anchors to images: with an anchor that
    has a [.jpg] link, it is what unescaping the [href] of a leftmost such
    anchor gives, whether or not an image with a [.jpg] source exists;
    the image pattern decides only when no such anchor exists, and then
    gives the unescaped [src] of a leftmost such image; with neither, the
    value is the empty string.  Every answer of status 200 that the
    handler returns carries that value as the string [thumbnail_url],
    never as null, and such an answer is returned for every body with a
    video anchor, free of lone surrogates and of runs of more than 4300
    digits. *)
Theorem thumbnail_url_prefers_anchor (text : str) :
  (occurs jpg_anchor text ->
     exists pre w post href,
       first_occurrence jpg_anchor text pre w post href /\
       extract_thumb_url text = Html.unescape href)
  /\
  (~ occurs jpg_anchor text -> occurs jpg_image text ->
     exists pre w post src,
       first_occurrence jpg_image text pre w post src /\
       extract_thumb_url text = Html.unescape src)
  /\
  (~ occurs jpg_anchor text -> ~ occurs jpg_image text ->
     extract_thumb_url text = Ok [])
  /\
  (forall net url resp r,
     validated url -> upstream_answers net url resp ->
     Requests.text resp = text ->
     fst (exec (download_instagram_content net url)) = Ok r ->
     resp_status r = 200%N ->
     exists t,
       extract_thumb_url text = Ok t /\
       data_field (lit "thumbnail_url") r = Some (JString t))
  /\
  (forall net url resp,
     validated url -> upstream_answers net url resp ->
     Requests.text resp = text ->
     occurs mp4_anchor text -> well_formed text -> short_numbers text ->
     exists r,
       fst (exec (download_instagram_content net url)) = Ok r /\
       resp_status r = 200%N).
Proof.
  split; [|split; [|split; [|split]]].
  - intros H.
    destruct (ApiFacts.extract_thumb_url_anchor text H)
      as (pre & w & post & href & H1 & H2 & _).
    exists pre, w, post, href. auto.
  - intros Hno H.
    destruct (ApiFacts.extract_thumb_url_image text Hno H)
      as (pre & w & post & src & H1 & H2 & _).
    exists pre, w, post, src. auto.
  - apply ApiFacts.extract_thumb_url_absent.
  - intros net url resp r Hval Hans <- Hr Hs.
    destruct (ApiFacts.download_returned_inv net url resp r Hval Hans Hr)
      as (v & t & _ & Ht & ->).
    exists t. split; [exact Ht|].
    destruct (truthy v); [reflexivity | discriminate Hs].
  - intros net url resp Hval Hans <-.
    apply ApiFacts.download_returns_success; assumption.
Qed.

Lemma thumbnail_url_prefers_anchor_witness :
  exists pre w post href,
    first_occurrence jpg_anchor
      (lit "<img src=" ++ [dquote] ++ lit "b.jpg" ++ [dquote] ++ lit ">"
         ++ lit "<a href=" ++ [dquote] ++ lit "a.jpg" ++ [dquote] ++ lit ">")
      pre w post href /\
    extract_thumb_url
      (lit "<img src=" ++ [dquote] ++ lit "b.jpg" ++ [dquote] ++ lit ">"
         ++ lit "<a href=" ++ [dquote] ++ lit "a.jpg" ++ [dquote] ++ lit ">")
    = Html.unescape href.
Proof.
  apply (proj1 (thumbnail_url_prefers_anchor _)).
  apply (PatternFacts.search_some_occurs _ _ PatternFacts.thumb_pattern_shape
           _ (mkmatch [lit "a.jpg"] [])).
  vm_compute. reflexivity.
Defined.

(** *** C5 *)

(** C5. When the body has an image tag whose quoted [src] is a
    [data:image/jpg;base64,] URI, the field computed for
    [thumbnail_base64] is that prefix followed by the payload of a
    leftmost such tag, exactly as it stands in the body; the sample
    image, when no such tag starts before it, gives the sample URI;
    without such a tag the field is null.  Every answer of status 200
    that the handler returns carries that field as its
    [thumbnail_base64], and such an answer is returned for every body
    with a video anchor, free of lone surrogates and of runs of more than
    4300 digits. *)
Theorem thumbnail_base64_is_data_uri (text : str) :
  (occurs base64_image text ->
     exists pre w post payload,
       first_occurrence base64_image text pre w post payload /\
       thumbnail_base64_field (extract_thumb_base64 text)
       = JString (lit "data:image/jpg;base64," ++ payload))
  /\
  (forall pre post,
     none_before base64_image (pre ++ example_base64_image ++ post)
       (length pre) ->
     thumbnail_base64_field
       (extract_thumb_base64 (pre ++ example_base64_image ++ post))
     = JString (lit "data:image/jpg;base64,AAAA"))
  /\
  (~ occurs base64_image text ->
     thumbnail_base64_field (extract_thumb_base64 text) = JNull)
  /\
  (forall net url resp r,
     validated url -> upstream_answers net url resp ->
     Requests.text resp = text ->
     fst (exec (download_instagram_content net url)) = Ok r ->
     resp_status r = 200%N ->
     data_field (lit "thumbnail_base64") r
     = Some (thumbnail_base64_field (extract_thumb_base64 text)))
  /\
  (forall net url resp,
     validated url -> upstream_answers net url resp ->
     Requests.text resp = text ->
     occurs mp4_anchor text -> well_formed text -> short_numbers text ->
     exists r,
       fst (exec (download_instagram_content net url)) = Ok r /\
       resp_status r = 200%N).
Proof.
  split; [|split; [|split; [|split]]].
  - intros H.
    destruct (ApiFacts.extract_thumb_base64_found text H)
      as (pre & w & post & payload & H1 & _ & H2).
    exists pre, w, post, payload. auto.
  - apply example_base64_found.
  - intros H. apply ApiFacts.extract_thumb_base64_absent. exact H.
  - intros net url resp r Hval Hans <- Hr Hs.
    destruct (ApiFacts.download_returned_inv net url resp r Hval Hans Hr)
      as (v & t & _ & _ & ->).
    destruct (truthy v); [reflexivity | discriminate Hs].
  - intros net url resp Hval Hans <-.
    apply ApiFacts.download_returns_success; assumption.
Qed.

Lemma thumbnail_base64_is_data_uri_witness :
  (exists pre w post payload,
     first_occurrence base64_image example_base64_image pre w post payload /\
     thumbnail_base64_field (extract_thumb_base64 example_base64_image)
     = JString (lit "data:image/jpg;base64," ++ payload)) /\
  thumbnail_base64_field
    (extract_thumb_base64
       (lit "<img alt=x> " ++ example_base64_image ++ lit "</body>"))
  = JString (lit "data:image/jpg;base64,AAAA").
Proof.
  split.
  - apply (proj1 (thumbnail_base64_is_data_uri example_base64_image)).
    apply (PatternFacts.search_some_occurs _ _
             PatternFacts.thumb_base64_pattern_shape
             _ (mkmatch [lit "AAAA"] (lit ">"))).
    vm_compute. reflexivity.
  - apply (proj1 (proj2 (thumbnail_base64_is_data_uri []))).
    apply (PatternFacts.search_none_before _ _
             PatternFacts.thumb_base64_pattern_shape).
    vm_compute. reflexivity.
Defined.

(** *** C6 *)

(** C6, as stated, fails: an upstream status that is not 2xx need not
    give a 500.  Here the upstream answers 300 with the sample anchor,
    and the handler answers 200. *)
Lemma status_300_is_parsed_not_an_error :
  validated sample_reel_url /\
  ~ is_2xx 300 /\
  http_status
    (fst (exec (download_instagram_content
                  (sample_upstream 300 example_video_anchor) sample_reel_url)))
  = 200%N /\
  http_status
    (fst (exec (download_instagram_content
                  (sample_upstream 300 example_video_anchor) sample_reel_url)))
  <> 500%N.
Proof.
  split; [exact sample_reel_url_validated|].
  split; [unfold is_2xx; lia|].
  split; [vm_compute; reflexivity | vm_compute; discriminate].
Qed.

(** C6, amended. For a validated input whose encoding succeeds, exactly
    one request is sent, with a timeout of 25; a timeout of that request
    gives 408; any other exception it raises gives 500; an upstream
    status from 400 to 599 gives 500; any other upstream status is not a
    failure: the body is parsed, the answer built from it is returned,
    and only an exception raised while parsing it or building the answer
    gives the 500 of unexpected errors, which does not happen on a body
    free of lone surrogates and of runs of more than 4300 digits; and 408
    and 500 are the only codes the handler raises. *)
Theorem upstream_failures_map_to_408_and_500 (net : network) (url enc : str) :
  validated url ->
  Urllib.quote url [] = Ok enc ->
  snd (exec (download_instagram_content net url)) = [request_for enc] /\
  req_timeout (request_for enc) = 25%N /\
  (forall e,
     net (request_for enc) = Raise e -> is_Timeout e = true ->
     fst (exec (download_instagram_content net url))
     = Raise (HTTPException 408
                (Text (lit "Request timeout - the external service took too long to respond")))) /\
  (forall e,
     net (request_for enc) = Raise e -> is_Timeout e = false ->
     exists d,
       fst (exec (download_instagram_content net url))
       = Raise (HTTPException 500 d)) /\
  (forall resp,
     net (request_for enc) = Ok resp ->
     (400 <= status_code resp < 600)%N ->
     fst (exec (download_instagram_content net url))
     = Raise (HTTPException 500
                (Fmt (lit "Failed to fetch data: ")
                   (HTTPError (status_code resp))))) /\
  (forall resp,
     net (request_for enc) = Ok resp ->
     ~ (400 <= status_code resp < 600)%N ->
     fst (exec (download_instagram_content net url))
     = answer_or_500 (extract_and_answer (text resp) url) /\
     (well_formed (text resp) -> short_numbers (text resp) ->
      exists r, fst (exec (download_instagram_content net url)) = Ok r)) /\
  (forall code d,
     fst (exec (download_instagram_content net url))
     = Raise (HTTPException code d) ->
     code = 408%N \/ code = 500%N).
Proof.
  intros Hval Hq.
  pose proof (ApiFacts.download_validated net url Hval) as Hd.
  split; [|split; [reflexivity|]].
  { destruct (ApiFacts.download_outcomes net url Hval)
      as [(e & d & Hq' & _) | (enc' & Hq' & Ht & _)]; [congruence|].
    rewrite Ht. congruence. }
  split; [|split; [|split; [|split]]].
  - intros e Hn He.
    rewrite Hd, ApiFacts.exec_try_except.
    rewrite (ApiFacts.fetch_request_raises net url enc e Hq Hn).
    unfold on_exception. rewrite He. reflexivity.
  - intros e Hn He.
    rewrite Hd, ApiFacts.exec_try_except.
    rewrite (ApiFacts.fetch_request_raises net url enc e Hq Hn).
    unfold on_exception. rewrite He.
    destruct (is_RequestException e); eexists; reflexivity.
  - intros resp Hn Hs.
    destruct (ApiFacts.raise_for_status_cases resp) as [[_ Hr] | [Hr _]];
      [|contradiction].
    rewrite Hd, ApiFacts.exec_try_except.
    rewrite (ApiFacts.fetch_status_raises net url enc resp _ Hq Hn Hr).
    reflexivity.
  - intros resp Hn Hs.
    destruct (ApiFacts.raise_for_status_cases resp) as [[Hr _] | [_ Hr]];
      [contradiction|].
    rewrite (ApiFacts.download_parses net url enc resp Hval Hq Hn Hr).
    split; [reflexivity|]. intros Hw Hsh.
    destruct (ApiFacts.extract_and_answer_returns (text resp) url Hw Hsh
                (UrllibFacts.quote_ok_well_formed _ _ Hq)) as [r ->].
    exists r. reflexivity.
  - intros code d E.
    destruct (ApiFacts.download_outcomes net url Hval)
      as [(e & d' & _ & E') | (enc' & _ & _ & [(r & E' & _) | (c & d' & E' & Hc)])].
    + rewrite E' in E. simpl in E. injection E as <- _. auto.
    + rewrite E' in E. discriminate.
    + rewrite E' in E. injection E as <- _. exact Hc.
Qed.

Lemma upstream_failures_map_to_408_and_500_witness :
  fst (exec (download_instagram_content sample_timeout sample_reel_url))
  = Raise (HTTPException 408
             (Text (lit "Request timeout - the external service took too long to respond"))).
Proof.
  pose proof sample_reel_url_validated as Hval.
  assert (Hq : Urllib.quote sample_reel_url []
               = Ok (lit "https%3A%2F%2Fwww.instagram.com%2Freel%2Fabc%2F")).
  { vm_compute. reflexivity. }
  destruct (upstream_failures_map_to_408_and_500 sample_timeout
              sample_reel_url _ Hval Hq) as (_ & _ & H & _).
  apply (H (RequestsTimeout (lit "read timed out"))); reflexivity.
Defined.

(** *** C7 *)

(** C7, as stated, fails on the empty URL: both handlers answer 400, but
    with different details. *)
Lemma post_and_get_differ_on_empty_url :
  http_status
    (fst (exec (download_instagram_content sample_timeout []))) = 400%N /\
  http_status
    (fst (exec (download_instagram_content_post sample_timeout (url_body []))))
  = 400%N /\
  exec (download_instagram_content_post sample_timeout (url_body []))
  <> exec (download_instagram_content sample_timeout []).
Proof.
  split; [reflexivity|]. split; [reflexivity|].
  vm_compute. discriminate.
Qed.

(** C7, amended. For every upstream, POST with the body that holds a
    non-empty URL and GET with this URL have the same outcome: the same
    answer or exception, and the same request sent; on the empty URL both
    answer with status 400. *)
Theorem post_agrees_with_get_on_nonempty_url (net : network) :
  (forall url,
     truthy url = true ->
     exec (download_instagram_content_post net (url_body url))
     = exec (download_instagram_content net url))
  /\
  http_status (fst (exec (download_instagram_content_post net (url_body []))))
  = http_status (fst (exec (download_instagram_content net []))).
Proof.
  split; [|reflexivity].
  intros url H. rewrite (ApiFacts.post_delegates net url H). reflexivity.
Qed.

Lemma post_agrees_with_get_on_nonempty_url_witness :
  exec (download_instagram_content_post
          (sample_upstream 200 example_video_anchor) (url_body sample_reel_url))
  = exec (download_instagram_content
            (sample_upstream 200 example_video_anchor) sample_reel_url).
Proof.
  apply (proj1 (post_agrees_with_get_on_nonempty_url
                  (sample_upstream 200 example_video_anchor))).
  reflexivity.
Defined.

(** *** C8 *)

(** C8, as stated, fails: a body with a video link can be answered with
    a 500.  Here the link holds a lone surrogate, so the answer built
    from it cannot be encoded as UTF-8 and its constructor raises. *)
Lemma surrogate_in_video_link_gives_500 :
  validated sample_reel_url /\
  upstream_answers (sample_upstream 200 sample_surrogate_body) sample_reel_url
    (mkResponse 200 sample_surrogate_body) /\
  occurs mp4_anchor sample_surrogate_body /\
  (exists object start stop,
     fst (exec (download_instagram_content
                  (sample_upstream 200 sample_surrogate_body)
                  sample_reel_url))
     = Raise (unexpected_error (UnicodeEncodeError object start stop))) /\
  http_status
    (fst (exec (download_instagram_content
                  (sample_upstream 200 sample_surrogate_body)
                  sample_reel_url)))
  = 500%N /\
  http_status
    (fst (exec (download_instagram_content
                  (sample_upstream 200 sample_surrogate_body)
                  sample_reel_url)))
  <> 200%N.
Proof.
  split; [exact sample_reel_url_validated|].
  split; [apply sample_upstream_answers|].
  split.
  { apply (PatternFacts.search_some_occurs _ _ PatternFacts.video_pattern_shape
             _ (mkmatch [[118%N; 55296%N] ++ lit ".mp4"] [])).
    vm_compute. reflexivity. }
  split; [eexists; eexists; eexists; vm_compute; reflexivity|].
  split; [vm_compute; reflexivity | vm_compute; discriminate].
Qed.

(** C8, amended. For a validated input, when the upstream answers and
    the body has an anchor with an [.mp4] link: an answer that the
    handler returns has status 200 and is the success envelope, with the
    three extracted values and with [original_url] the input as
    received; that answer is returned whenever unescaping the two links
    returns and the extracted values have no lone surrogate, which is the
    case for every body free of lone surrogates and of runs of more than
    4300 digits; otherwise the handler answers with the 500 of unexpected
    errors, for the [ValueError] of a decimal character reference of more
    than 4300 digits or for the [UnicodeEncodeError] of a lone surrogate
    in the body. *)
Theorem video_match_gives_success_envelope (net : network) (url : str)
    (resp : Response) :
  validated url ->
  upstream_answers net url resp ->
  occurs mp4_anchor (text resp) ->
  (forall r,
     fst (exec (download_instagram_content net url)) = Ok r ->
     exists video_url thumbnail_url,
       extract_video_url (text resp) = Ok video_url /\
       extract_thumb_url (text resp) = Ok thumbnail_url /\
       r = mkJSONResponse
             (success_envelope video_url thumbnail_url
                (thumbnail_base64_field (extract_thumb_base64 (text resp)))
                url)
             200)
  /\
  (forall video_url thumbnail_url,
     extract_video_url (text resp) = Ok video_url ->
     extract_thumb_url (text resp) = Ok thumbnail_url ->
     well_formed video_url -> well_formed thumbnail_url ->
     (forall payload,
        extract_thumb_base64 (text resp) = Some payload ->
        well_formed payload) ->
     exists enc,
       exec (download_instagram_content net url)
       = (Ok (mkJSONResponse
                (success_envelope video_url thumbnail_url
                   (thumbnail_base64_field (extract_thumb_base64 (text resp)))
                   url)
                200),
          [request_for enc]))
  /\
  (well_formed (text resp) -> short_numbers (text resp) ->
   exists r,
     fst (exec (download_instagram_content net url)) = Ok r /\
     resp_status r = 200%N)
  /\
  ((exists r, fst (exec (download_instagram_content net url)) = Ok r)
   \/
   exists e,
     fst (exec (download_instagram_content net url))
     = Raise (unexpected_error e) /\
     http_status (fst (exec (download_instagram_content net url))) = 500%N /\
     ((exists ds, e = ValueError ds /\ long_decimal_reference ds (text resp))
      \/
      (exists object start stop,
         e = UnicodeEncodeError object start stop /\
         ~ well_formed (text resp)))).
Proof.
  intros Hval Hans Hocc.
  destruct (ApiFacts.extract_video_url_found _ Hocc)
    as (_ & _ & _ & href & _ & Hu & Hne).
  split; [|split; [|split]].
  - intros r Hr.
    destruct (ApiFacts.download_returned_inv net url resp r Hval Hans Hr)
      as (v & t & Hv & Ht & ->).
    exists v, t. split; [exact Hv|]. split; [exact Ht|].
    rewrite Hu in Hv. apply Hne in Hv.
    apply PyStrFacts.truthy_nonempty in Hv. rewrite Hv. reflexivity.
  - intros v t Hv Ht Hwv Hwt Hwp.
    destruct (ApiFacts.download_answers net url resp Hval Hans)
      as (enc & Hq & ->).
    exists enc.
    assert (Hnv : v <> []) by (apply Hne; rewrite <- Hu; exact Hv).
    rewrite (ApiFacts.extract_and_answer_found _ url _ _ Hv Hnv Ht).
    rewrite (ApiFacts.success_init v t _ url Hwv Hwt Hwp
               (UrllibFacts.quote_ok_well_formed _ _ Hq)).
    reflexivity.
  - apply ApiFacts.download_returns_success; assumption.
  - destruct (extract_and_answer (text resp) url) as [r|e] eqn:E.
    + left. exists r.
      destruct (ApiFacts.download_answers net url resp Hval Hans)
        as (enc & _ & ->).
      rewrite E. reflexivity.
    + right. exists e.
      rewrite (ApiFacts.download_parse_failed net url resp e Hval Hans E).
      split; [reflexivity|]. split; [reflexivity|].
      destruct Hans as (enc & Hq & _).
      exact (ApiFacts.extract_and_answer_causes _ url e
               (UrllibFacts.quote_ok_well_formed _ _ Hq) E).
Qed.

Lemma video_match_gives_success_envelope_witness :
  exists enc,
    exec (download_instagram_content
            (sample_upstream 200 example_video_anchor) sample_reel_url)
    = (Ok (mkJSONResponse
             (success_envelope example_video_url []
                (thumbnail_base64_field
                   (extract_thumb_base64 example_video_anchor))
                sample_reel_url)
             200),
       [request_for enc]).
Proof.
  apply (proj1 (proj2 (video_match_gives_success_envelope
           (sample_upstream 200 example_video_anchor) sample_reel_url
           (mkResponse 200 example_video_anchor)
           sample_reel_url_validated
           (sample_upstream_answers example_video_anchor)
           example_video_anchor_occurs))).
  - vm_compute. reflexivity.
  - vm_compute. reflexivity.
  - apply JsonFacts.well_formed_forallb. vm_compute. reflexivity.
  - constructor.
  - intros payload H. vm_compute in H. discriminate H.
Defined.

(** *** C9 *)

Lemma get_success_shape (net : network) (url : str)
    (r : JSONResponse) (t : trace) :
  exec (download_instagram_content net url) = (Ok r, t) ->
  resp_status r = 200%N -> success_shape r.
Proof.
  intros E Hs.
  assert (Hval : validated url).
  { apply ApiFacts.passes_validation_spec. unfold passes_validation.
    unfold download_instagram_content in E.
    destruct (negb (truthy url) || str_eqb (strip url) []); [discriminate|].
    destruct (contains (lit "instagram.com") url
              || contains (lit "instagr.am") url); [reflexivity|discriminate]. }
  rewrite (ApiFacts.download_validated net url Hval) in E.
  rewrite ApiFacts.exec_try_except in E.
  assert (Hshape : exists resp v th,
             r = if truthy v
                 then success_response v th (extract_thumb_base64 (text resp)) url
                 else not_found_response).
  { destruct (Urllib.quote url []) as [enc|e] eqn:Hq.
    - destruct (net (request_for enc)) as [resp|e] eqn:Hn.
      + destruct (ApiFacts.raise_for_status_cases resp) as [[_ Hr] | [_ Hr]].
        * rewrite (ApiFacts.fetch_status_raises net url enc resp _ Hq Hn Hr) in E.
          discriminate.
        * rewrite (ApiFacts.fetch_answers net url enc resp Hq Hn Hr) in E.
          destruct (extract_and_answer (text resp) url) as [r'|e] eqn:Er.
          -- injection E as <- _.
             destruct (ApiFacts.extract_and_answer_inv _ _ _ Er)
               as (v & th & _ & _ & ->). eauto.
          -- destruct (ApiFacts.on_exception_raises e [request_for enc])
               as (c & d & E' & _). rewrite E' in E. discriminate.
      + rewrite (ApiFacts.fetch_request_raises net url enc e Hq Hn) in E.
        destruct (ApiFacts.on_exception_raises e [request_for enc])
          as (c & d & E' & _). rewrite E' in E. discriminate.
    - rewrite (ApiFacts.fetch_quote_raises net url e Hq) in E.
      destruct (ApiFacts.on_exception_raises e []) as (c & d & E' & _).
      rewrite E' in E. discriminate. }
  destruct Hshape as (resp & v & th & ->).
  destruct (truthy v) eqn:Hv; [|discriminate].
  exists v, (thumbnail_base64_field (extract_thumb_base64 (text resp))).
  split; [reflexivity|].
  split; [apply PyStrFacts.truthy_nonempty; exact Hv|].
  split; [reflexivity|].
  apply ApiFacts.thumbnail_base64_field_shape.
Qed.

(** C9. In every answer of status 200, from the GET handler or from the
    POST handler, [video_url] is a non-empty string, and
    [thumbnail_base64] is null or a string that starts with
    [data:image/jpg;base64,] and goes on without any double quote. *)
Theorem success_response_invariant (net : network) (r : JSONResponse)
    (t : trace) :
  resp_status r = 200%N ->
  (forall url,
     exec (download_instagram_content net url) = (Ok r, t) ->
     success_shape r)
  /\
  (forall request_data,
     exec (download_instagram_content_post net request_data) = (Ok r, t) ->
     success_shape r).
Proof.
  intros Hs. split.
  - intros url E. exact (get_success_shape net url r t E Hs).
  - intros d E. unfold download_instagram_content_post in E.
    destruct (negb (val_truthy (dict_get (lit "url") d))); [discriminate|].
    destruct (dict_get (lit "url") d) as [| b | n | url | l | l]; simpl in E;
      try (destruct b); try (destruct (negb (negb (n =? 0)%N)));
      try (destruct l); try discriminate.
    exact (get_success_shape net url r t E Hs).
Qed.

Lemma success_response_invariant_witness :
  success_shape (success_response example_video_url [] None sample_reel_url).
Proof.
  apply (proj1 (success_response_invariant
                  (sample_upstream 200 example_video_anchor)
                  (success_response example_video_url [] None sample_reel_url)
                  [request_for (lit "https%3A%2F%2Fwww.instagram.com%2Freel%2Fabc%2F")]
                  eq_refl) sample_reel_url).
  vm_compute. reflexivity.
Defined.

(** *** C10 *)

(** C10. The POST handler rejects by its own test a body without [url],
    or whose [url] is null or the empty string, with status 400 and the
    detail about the missing field; a [url] that is not empty but made of
    white space passes that test and is rejected by the logic of GET,
    with status 400 and the detail about the missing URL; the two details
    differ. *)
Theorem post_missing_url_details (net : network) :
  (forall request_data,
     ~ In (lit "url") (map fst request_data) ->
     exec (download_instagram_content_post net request_data)
     = (Raise (HTTPException 400 missing_field_detail), []))
  /\
  exec (download_instagram_content_post net [(lit "url", VNone)])
  = (Raise (HTTPException 400 missing_field_detail), [])
  /\
  exec (download_instagram_content_post net (url_body []))
  = (Raise (HTTPException 400 missing_field_detail), [])
  /\
  (forall url,
     truthy url = true -> whitespace_only url ->
     exec (download_instagram_content_post net (url_body url))
     = (Raise (HTTPException 400 missing_url_detail), []))
  /\
  missing_field_detail <> missing_url_detail.
Proof.
  split; [|split; [|split; [|split]]].
  - intros d Hd. unfold download_instagram_content_post.
    assert (E : dict_get (lit "url") d = VNone).
    { unfold dict_get.
      destruct (find (fun kv => str_eqb (fst kv) (lit "url")) d)
        as [kv|] eqn:F; [|reflexivity].
      apply find_some in F as [Hin Hk]. apply PyStrFacts.str_eqb_eq in Hk.
      exfalso. apply Hd. rewrite <- Hk. apply in_map. exact Hin. }
    rewrite E. reflexivity.
  - reflexivity.
  - reflexivity.
  - intros url Ht Hw.
    rewrite (ApiFacts.post_delegates net url Ht).
    rewrite (ApiFacts.download_blank net url Hw). reflexivity.
  - discriminate.
Qed.

Lemma post_missing_url_details_witness :
  exec (download_instagram_content_post sample_timeout (url_body [32%N]))
  = (Raise (HTTPException 400 missing_url_detail), []).
Proof.
  apply (proj1 (proj2 (proj2 (proj2 (post_missing_url_details sample_timeout))))).
  - reflexivity.
  - repeat constructor.
Defined.

(* ================================================================== *)
(** ** Further properties: the request that goes out *)
(* ================================================================== *)

Module QuoteFacts.

Import Urllib Spec Props.

Local Open Scope N_scope.

(** Quotient and remainder of [c] by the constant [k], as fresh numbers. *)
Ltac euclid c k :=
  let H1 := fresh "Hdiv" in
  let H2 := fresh "Hmod" in
  pose proof (N.div_mod c k ltac:(discriminate)) as H1;
  pose proof (N.mod_lt c k ltac:(discriminate)) as H2;
  generalize dependent (c / k); generalize dependent (c mod k); intros.

Ltac to_arith :=
  repeat match goal with
  | H : (_ <? _) = true |- _ => apply N.ltb_lt in H
  | H : (_ <? _) = false |- _ => apply N.ltb_ge in H
  | H : (_ <=? _) = true |- _ => apply N.leb_le in H
  | H : (_ <=? _) = false |- _ => apply N.leb_gt in H
  | H : (_ =? _) = true |- _ => apply N.eqb_eq in H
  | H : (_ =? _) = false |- _ => apply N.eqb_neq in H
  end.

Lemma utf8_char_bytes (c : char) :
  c <= 1114111 -> Forall byte (utf8_char c).
Proof.
  intros H. unfold utf8_char, byte.
  destruct (c <? 128) eqn:E1; [to_arith; repeat constructor; lia|].
  destruct (c <? 2048) eqn:E2.
  { to_arith. euclid c 64. repeat constructor; lia. }
  destruct (c <? 65536) eqn:E3.
  { to_arith. euclid (c / 64) 64. euclid c 64. euclid c 4096.
    repeat constructor; lia. }
  to_arith. euclid (c / 64) 64. euclid (c / 4096) 64.
  euclid c 64. euclid c 4096. euclid c 262144.
  repeat constructor; lia.
Qed.

Lemma utf8_bytes (s : str) :
  code_points s -> Forall byte (flat_map utf8_char s).
Proof.
  induction 1 as [|c s Hc _ IH]; simpl; [constructor|].
  apply Forall_app. split; [apply utf8_char_bytes; exact Hc | exact IH].
Qed.

Lemma hex_upper_digit (d : N) : d < 16 -> upper_hex (hex_upper d) = true.
Proof.
  intros H. unfold hex_upper, upper_hex.
  destruct (d <? 10) eqn:E; to_arith; apply orb_true_iff;
    [left | right]; apply andb_true_iff; split; apply N.leb_le; lia.
Qed.

Lemma quote_bytes_encoded (bs : list N) :
  Forall byte bs -> percent_encoded (flat_map (quote_byte []) bs).
Proof.
  induction 1 as [|b bs Hb _ IH]; simpl; [constructor|].
  unfold quote_byte. simpl existsb. rewrite orb_false_r.
  destruct (always_safe b) eqn:E; simpl.
  - apply pe_plain; assumption.
  - unfold byte in Hb. apply pe_escape; try exact IH; apply hex_upper_digit.
    + euclid b 16. lia.
    + apply N.mod_lt. discriminate.
Qed.

Lemma quote_ok_inv (url enc : str) :
  quote url [] = Ok enc ->
  enc = flat_map (quote_byte []) (flat_map utf8_char url) /\ well_formed url.
Proof.
  unfold quote, encode_utf8. destruct url as [|c url].
  - intros H. injection H as <-. split; [reflexivity | constructor].
  - destruct (first_surrogates 0 (c :: url)) as [[a b]|] eqn:E;
      [discriminate|].
    simpl. intros H. injection H as <-. split; [reflexivity|].
    clear -E. revert E. generalize 0%nat. generalize (c :: url).
    induction l as [|x l IH]; intros n E; [constructor|].
    simpl in E. destruct (is_surrogate x) eqn:Ex; [discriminate|].
    constructor; [exact Ex | exact (IH _ E)].
Qed.

Lemma upper_hex_safe (c : char) : upper_hex c = true -> always_safe c = true.
Proof.
  unfold upper_hex, always_safe. intros H.
  apply orb_true_iff in H as [H | H]; apply andb_true_iff in H as [H1 H2].
  - rewrite H1, H2. rewrite !orb_true_r. reflexivity.
  - to_arith.
    replace (65 <=? c) with true by (symmetry; apply N.leb_le; lia).
    replace (c <=? 90) with true by (symmetry; apply N.leb_le; lia).
    reflexivity.
Qed.

Lemma percent_encoded_chars (s : str) :
  percent_encoded s ->
  Forall (fun c => always_safe c = true \/ c = percent) s.
Proof.
  induction 1 as [|c s Hc _ IH | h1 h2 s H1 H2 _ IH].
  - constructor.
  - constructor; auto.
  - constructor; [right; reflexivity|].
    constructor; [left; apply upper_hex_safe; exact H1|].
    constructor; [left; apply upper_hex_safe; exact H2 | exact IH].
Qed.

(** *** Decoding back *)

Lemma hex_upper_inj (d e : N) :
  d < 16 -> e < 16 -> hex_upper d = hex_upper e -> d = e.
Proof.
  unfold hex_upper. intros Hd He.
  destruct (d <? 10) eqn:E1, (e <? 10) eqn:E2; to_arith; lia.
Qed.

Lemma quote_byte_escape (b : N) :
  always_safe b = false ->
  quote_byte [] b = [percent; hex_upper (b / 16); hex_upper (b mod 16)].
Proof.
  intros H. unfold quote_byte. simpl existsb. rewrite H. reflexivity.
Qed.

Lemma quote_byte_plain (b : N) : always_safe b = true -> quote_byte [] b = [b].
Proof. intros H. unfold quote_byte. rewrite H. reflexivity. Qed.

Lemma quote_byte_nonempty (b : N) : quote_byte [] b <> [].
Proof.
  unfold quote_byte. destruct (always_safe b || _); discriminate.
Qed.

Lemma quote_bytes_inj (bs1 : list N) :
  forall bs2,
    Forall byte bs1 -> Forall byte bs2 ->
    flat_map (quote_byte []) bs1 = flat_map (quote_byte []) bs2 -> bs1 = bs2.
Proof.
  induction bs1 as [|b1 bs1 IH]; intros [|b2 bs2] H1 H2 E.
  - reflexivity.
  - cbn [flat_map] in E. symmetry in E. apply app_eq_nil in E as [E _].
    destruct (quote_byte_nonempty _ E).
  - cbn [flat_map] in E. apply app_eq_nil in E as [E _].
    destruct (quote_byte_nonempty _ E).
  - inversion H1 as [|? ? Hb1 H1']; inversion H2 as [|? ? Hb2 H2']; subst.
    cbn [flat_map] in E.
    destruct (always_safe b1) eqn:S1, (always_safe b2) eqn:S2.
    + rewrite (quote_byte_plain b1 S1), (quote_byte_plain b2 S2) in E.
      injection E as -> E. f_equal. apply IH; assumption.
    + rewrite (quote_byte_plain b1 S1), (quote_byte_escape b2 S2) in E.
      injection E as -> _. discriminate.
    + rewrite (quote_byte_escape b1 S1), (quote_byte_plain b2 S2) in E.
      injection E as <- _. discriminate.
    + rewrite (quote_byte_escape b1 S1), (quote_byte_escape b2 S2) in E.
      injection E as Eh El E. unfold byte in Hb1, Hb2.
      assert (b1 = b2).
      { apply hex_upper_inj in El; try (apply N.mod_lt; discriminate).
        apply hex_upper_inj in Eh.
        - euclid b1 16. euclid b2 16. lia.
        - euclid b1 16. lia.
        - euclid b2 16. lia. }
      subst. f_equal. apply IH; assumption.
Qed.

Lemma cons_eq_inv (A : Type) (a b : A) (l m : list A) :
  a :: l = b :: m -> a = b /\ l = m.
Proof. intros H. inversion H. auto. Qed.

Ltac split_cons :=
  repeat match goal with
  | H : _ :: _ = _ :: _ |- _ => apply cons_eq_inv in H; destruct H
  end.

(** The first byte tells how many bytes a code point takes. *)
Lemma utf8_char_inj (c d : char) (r s : list N) :
  c <= 1114111 -> d <= 1114111 ->
  utf8_char c ++ r = utf8_char d ++ s -> c = d /\ r = s.
Proof.
  intros Hc Hd. unfold utf8_char.
  destruct (c <? 128) eqn:C1; [|destruct (c <? 2048) eqn:C2;
                                 [|destruct (c <? 65536) eqn:C3]];
  (destruct (d <? 128) eqn:D1; [|destruct (d <? 2048) eqn:D2;
                                  [|destruct (d <? 65536) eqn:D3]]);
  cbn [app]; intros E; split_cons; to_arith;
  euclid (c / 64) 64; euclid (c / 4096) 64;
  euclid c 64; euclid c 4096; euclid c 262144;
  euclid (d / 64) 64; euclid (d / 4096) 64;
  euclid d 64; euclid d 4096; euclid d 262144;
  try (split; [lia | assumption]); exfalso; lia.
Qed.

Lemma utf8_inj (u1 : str) :
  forall u2,
    code_points u1 -> code_points u2 ->
    flat_map utf8_char u1 = flat_map utf8_char u2 -> u1 = u2.
Proof.
  assert (Hne : forall c, utf8_char c <> []).
  { intros c. unfold utf8_char.
    destruct (c <? 128); [discriminate|].
    destruct (c <? 2048); [discriminate|].
    destruct (c <? 65536); discriminate. }
  induction u1 as [|c u1 IH]; intros [|d u2] H1 H2 E.
  - reflexivity.
  - simpl in E. symmetry in E. apply app_eq_nil in E as [E _].
    destruct (Hne _ E).
  - simpl in E. apply app_eq_nil in E as [E _]. destruct (Hne _ E).
  - inversion H1; inversion H2; subst. cbn [flat_map] in E.
    apply utf8_char_inj in E as [-> E]; [|assumption|assumption].
    f_equal. apply IH; assumption.
Qed.

End QuoteFacts.

Module MoreFacts.

Import Re Requests Json Api Spec Props.

Local Open Scope N_scope.

(** *** Text before the first ampersand *)

Lemma sub_charref_copy (a b : str) :
  free_of Html.amp a ->
  sub_from Html.charref Html.replace_charref 0 (a ++ b)
  = rmap (app a) (sub_from Html.charref Html.replace_charref 0 b).
Proof.
  induction a as [|c a IH]; intros H.
  - simpl. destruct (sub_from Html.charref Html.replace_charref 0 b);
      reflexivity.
  - cbn [app sub_from]. unfold Html.charref at 1.
    rewrite match_at_other_start
      by (intros ->; apply H; left; reflexivity).
    fold Html.charref. rewrite IH by (intros Hin; apply H; right; exact Hin).
    destruct (sub_from Html.charref Html.replace_charref 0 b); reflexivity.
Qed.

Lemma contains_amp (s : str) : contains [Html.amp] s = true <-> In Html.amp s.
Proof.
  rewrite PyStrFacts.contains_substring. split.
  - intros (pre & post & ->). apply in_or_app. right. left. reflexivity.
  - intros H. apply in_split in H as (pre & post & ->).
    exists pre, post. reflexivity.
Qed.

Lemma unescape_without_amp (s : str) :
  free_of Html.amp s -> Html.unescape s = Ok s.
Proof.
  intros H. apply HtmlFacts.unescape_no_amp.
  destruct (contains [Html.amp] s) eqn:E; [|reflexivity].
  apply contains_amp in E. contradiction.
Qed.

Lemma sub_without_amp (s : str) :
  free_of Html.amp s ->
  sub_from Html.charref Html.replace_charref 0 s = Ok s.
Proof.
  intros H. rewrite <- (app_nil_r s) at 1. rewrite (sub_charref_copy s [] H).
  simpl. rewrite app_nil_r. reflexivity.
Qed.

(** *** Shapes leave traces in the text *)

Lemma substring_in_piece (sub pre w post : str) :
  substring sub w -> substring sub (pre ++ w ++ post).
Proof.
  intros (a & b & ->). exists (pre ++ a), (b ++ post).
  rewrite <- !app_assoc. reflexivity.
Qed.

Lemma tag_with_link_substrings (tag attr ext w g : str) :
  tag_with_link tag attr ext w g ->
  substring tag w /\ substring (attr ++ [dquote]) w /\ substring ext w /\
  In gt_sign w.
Proof.
  intros (t1 & g1 & g2 & t2 & -> & -> & _). repeat split.
  - exists [], (t1 ++ (attr ++ [dquote]) ++ (g1 ++ ext ++ g2) ++ [dquote]
                  ++ t2 ++ [gt_sign]). reflexivity.
  - exists (tag ++ t1), ((g1 ++ ext ++ g2) ++ [dquote] ++ t2 ++ [gt_sign]).
    rewrite <- !app_assoc. reflexivity.
  - exists (tag ++ t1 ++ (attr ++ [dquote]) ++ g1),
      (g2 ++ [dquote] ++ t2 ++ [gt_sign]).
    rewrite <- !app_assoc. reflexivity.
  - repeat (apply in_or_app; right). left. reflexivity.
Qed.

Lemma occurs_link_substrings (tag attr ext text : str) :
  occurs (tag_with_link tag attr ext) text ->
  substring tag text /\ substring (attr ++ [dquote]) text /\
  substring ext text /\ In gt_sign text.
Proof.
  intros (pre & w & post & g & -> & H).
  apply tag_with_link_substrings in H as (H1 & H2 & H3 & H4).
  repeat split; try (apply substring_in_piece; assumption).
  apply in_or_app. right. apply in_or_app. left. exact H4.
Qed.

Lemma occurs_base64_substrings (text : str) :
  occurs base64_image text ->
  substring (lit "<img") text /\
  substring (lit "src=" ++ [dquote] ++ data_uri_prefix) text.
Proof.
  intros (pre & w & post & g & -> & t1 & -> & _). split;
    apply substring_in_piece.
  - exists [], (t1 ++ (lit "src=" ++ [dquote] ++ data_uri_prefix) ++ g
                  ++ [dquote]). reflexivity.
  - exists (lit "<img" ++ t1), (g ++ [dquote]).
    rewrite <- !app_assoc. reflexivity.
Qed.

(** *** Whether a shape occurs can be decided by searching *)

Lemma occurs_mp4_or_not (text : str) :
  occurs mp4_anchor text \/ ~ occurs mp4_anchor text.
Proof.
  destruct (search video_pattern text) as [m|] eqn:E.
  - left. exact (PatternFacts.search_some_occurs _ _
                   PatternFacts.video_pattern_shape _ _ E).
  - right. apply (PatternFacts.search_absent _ _
                    PatternFacts.video_pattern_shape). exact E.
Qed.

Lemma occurs_jpg_anchor_or_not (text : str) :
  occurs jpg_anchor text \/ ~ occurs jpg_anchor text.
Proof.
  destruct (search thumb_pattern text) as [m|] eqn:E.
  - left. exact (PatternFacts.search_some_occurs _ _
                   PatternFacts.thumb_pattern_shape _ _ E).
  - right. apply (PatternFacts.search_absent _ _
                    PatternFacts.thumb_pattern_shape). exact E.
Qed.

Lemma occurs_jpg_image_or_not (text : str) :
  occurs jpg_image text \/ ~ occurs jpg_image text.
Proof.
  destruct (search alt_thumb_pattern text) as [m|] eqn:E.
  - left. exact (PatternFacts.search_some_occurs _ _
                   PatternFacts.alt_thumb_pattern_shape _ _ E).
  - right. apply (PatternFacts.search_absent _ _
                    PatternFacts.alt_thumb_pattern_shape). exact E.
Qed.

Lemma occurs_base64_or_not (text : str) :
  occurs base64_image text \/ ~ occurs base64_image text.
Proof.
  destruct (search thumb_base64_pattern text) as [m|] eqn:E.
  - left. exact (PatternFacts.search_some_occurs _ _
                   PatternFacts.thumb_base64_pattern_shape _ _ E).
  - right. apply (PatternFacts.search_absent _ _
                    PatternFacts.thumb_base64_pattern_shape). exact E.
Qed.

(** The value of a first occurrence of a link is made of characters of
    the text. *)
Lemma link_value_in_text (P : char -> Prop) (tag attr ext text pre w post g : str) :
  first_occurrence (tag_with_link tag attr ext) text pre w post g ->
  Forall P text -> Forall P g.
Proof.
  intros (-> & (t1 & g1 & g2 & t2 & -> & -> & _) & _) H.
  repeat (apply Forall_app in H; destruct H as [? H]); try assumption.
  repeat match goal with
  | H : Forall P (_ ++ _) |- _ => apply Forall_app in H; destruct H
  end.
  repeat (apply Forall_app; split); assumption.
Qed.

(** *** The whole of the GET handler *)

Lemma validated_or_not (url : str) : validated url \/ ~ validated url.
Proof.
  destruct (passes_validation url) eqn:E.
  - left. apply ApiFacts.passes_validation_spec. exact E.
  - right. intros H. apply ApiFacts.passes_validation_spec in H. congruence.
Qed.

Lemma download_rejected (net : network) (url : str) :
  ~ validated url ->
  exists d,
    exec (download_instagram_content net url) = (Raise (HTTPException 400 d), []) /\
    (d = missing_url_detail \/ d = Text (lit "Invalid Instagram URL")).
Proof.
  intros H.
  destruct (negb (truthy url) || str_eqb (strip url) []) eqn:E.
  - apply PyStrFacts.blank_test in E.
    rewrite (ApiFacts.download_blank net url E). eexists.
    split; [reflexivity|]. left. reflexivity.
  - assert (Hb : ~ whitespace_only url).
    { rewrite <- PyStrFacts.blank_test. congruence. }
    assert (Hn : ~ names_instagram url).
    { intros Hn. apply H. split; assumption. }
    rewrite (ApiFacts.download_foreign net url Hb Hn). eexists.
    split; [reflexivity|]. right. reflexivity.
Qed.

Lemma download_get_outcome (net : network) (url : str) :
  get_outcome net url (exec (download_instagram_content net url)).
Proof.
  destruct (validated_or_not url) as [Hv | Hv].
  2:{ destruct (download_rejected net url Hv) as (d & -> & Hd).
      apply Rejected; assumption. }
  rewrite (ApiFacts.download_validated net url Hv), ApiFacts.exec_try_except.
  destruct (Urllib.quote url []) as [enc|e] eqn:Hq.
  - destruct (net (request_for enc)) as [resp|e] eqn:Hn.
    + destruct (ApiFacts.raise_for_status_cases resp) as [[Hs Hr] | [Hs Hr]].
      * rewrite (ApiFacts.fetch_status_raises net url enc resp _ Hq Hn Hr).
        apply StatusRefused; assumption.
      * rewrite (ApiFacts.fetch_answers net url enc resp Hq Hn Hr).
        destruct (extract_and_answer (text resp) url) as [r|e] eqn:Er.
        -- apply Answered with (resp := resp); assumption.
        -- rewrite ApiFacts.on_exception_unexpected.
           ++ apply ParseFailed with (resp := resp); assumption.
           ++ apply (ApiFacts.extract_and_answer_raises (text resp) url e);
                [|exact Er].
              exact (UrllibFacts.quote_ok_well_formed _ _ Hq).
    + rewrite (ApiFacts.fetch_request_raises net url enc e Hq Hn).
      destruct (ApiFacts.on_exception_raises e [request_for enc])
        as (code & d & E & _).
      rewrite E. apply RequestFailed with (e := e); assumption.
  - rewrite (ApiFacts.fetch_quote_raises net url e Hq).
    assert (Hcls : is_Timeout e = false /\ is_RequestException e = false).
    { unfold Urllib.quote, Urllib.encode_utf8 in Hq.
      destruct url; [discriminate|].
      destruct (Urllib.first_surrogates 0 (c :: url)) as [[a b]|];
        [|discriminate].
      simpl in Hq. injection Hq as <-. auto. }
    destruct Hcls as [Ht Hr]. unfold on_exception. rewrite Ht, Hr.
    apply NotEncodable; assumption.
Qed.

End MoreFacts.

(* ================================================================== *)
(** ** Further properties of the handlers *)
(* ================================================================== *)

Import Props.

Lemma code_points_check (s : str) :
  forallb (fun c => (c <=? 1114111)%N) s = true -> code_points s.
Proof.
  intros H. rewrite forallb_forall in H. apply Forall_forall.
  intros c Hc. apply N.leb_le. exact (H c Hc).
Qed.

Lemma in_service_codes (code : N) :
  existsb (N.eqb code) service_codes = true -> In code service_codes.
Proof.
  intros H. apply existsb_exists in H as (x & Hin & E).
  apply N.eqb_eq in E. subst. exact Hin.
Qed.

Lemma get_outcome_handled (net : network) (url : str)
    (o : result JSONResponse * trace) :
  get_outcome net url o ->
  handled (fst o) /\ In (http_status (fst o)) service_codes /\
  fst o <> Raise (HTTPException 400 missing_field_detail).
Proof.
  intros [d Hv Hd | e Hv Hq | enc e code d Hv Hq Hn Ho | enc resp Hv Hq Hn Hs
          | enc resp r Hv Hq Hn Hs Er | enc resp e Hv Hq Hn Hs Er];
    cbn [fst handled http_status unexpected_error].
  - split; [exact I|]. split; [right; left; reflexivity|].
    intros H. injection H as ->. destruct Hd as [Hd | Hd]; discriminate Hd.
  - split; [exact I|]. split; [|discriminate].
    apply in_service_codes. reflexivity.
  - split; [exact I|].
    destruct (ApiFacts.on_exception_raises e [request_for enc])
      as (c' & d' & E & Hc & _).
    rewrite E in Ho. injection Ho as <- <-.
    split; [|intros H; injection H as -> _; destruct Hc; discriminate].
    destruct Hc as [-> | ->]; apply in_service_codes; reflexivity.
  - split; [exact I|]. split; [|discriminate].
    apply in_service_codes. reflexivity.
  - split; [exact I|]. split; [|discriminate].
    destruct (ApiFacts.extract_and_answer_status _ _ _ Er) as [[-> _] | [-> _]];
      apply in_service_codes; reflexivity.
  - split; [exact I|]. split; [|discriminate].
    apply in_service_codes. reflexivity.
Qed.

(** X1. Whatever the input and the upstream, the GET handler ends with an
    answer or with an [HTTPException], never with another exception, and
    the status it gives is one of 200, 400, 404, 408 and 500. *)
Theorem get_answers_with_service_codes (net : network) (url : str) :
  handled (fst (exec (download_instagram_content net url))) /\
  In (http_status (fst (exec (download_instagram_content net url))))
    service_codes.
Proof.
  destruct (get_outcome_handled net url _
              (MoreFacts.download_get_outcome net url)) as (H1 & H2 & _).
  auto.
Qed.

Lemma post_cases (net : network) (request_data : list (str * pyval)) :
  (val_truthy (dict_get (lit "url") request_data) = false /\
   exec (download_instagram_content_post net request_data)
   = (Raise (HTTPException 400 missing_field_detail), []))
  \/
  (val_truthy (dict_get (lit "url") request_data) = true /\
   is_str (dict_get (lit "url") request_data) = false /\
   exec (download_instagram_content_post net request_data)
   = (Raise (AttributeError (lit "strip")), []))
  \/
  (exists url,
     dict_get (lit "url") request_data = VStr url /\ truthy url = true /\
     exec (download_instagram_content_post net request_data)
     = exec (download_instagram_content net url)).
Proof.
  unfold download_instagram_content_post.
  destruct (dict_get (lit "url") request_data) as [| b | n | url | l | l].
  - left. auto.
  - destruct b; [right; left | left]; auto.
  - cbn [val_truthy]. destruct (negb (n =? 0)%N) eqn:E.
    + right. left. cbn [negb download_instagram_content_dyn val_truthy].
      rewrite E. auto.
    + left. auto.
  - cbn [val_truthy]. destruct (truthy url) eqn:E.
    + right. right. exists url. auto.
    + left. auto.
  - destruct l; [left | right; left]; auto.
  - destruct l; [left | right; left]; auto.
Qed.

(** X2. The POST handler answers 400 with the detail about the missing
    field exactly when the [url] of the body is absent or falsy (null,
    false, 0, the empty string, list or object); it ends with an
    [AttributeError] that nothing catches, a bare 500, exactly when [url]
    is truthy and not a string; and its status is always one of 200, 400,
    404, 408 and 500. *)
Theorem post_outcomes (net : network) (request_data : list (str * pyval)) :
  (val_truthy (dict_get (lit "url") request_data) = false
   <-> exec (download_instagram_content_post net request_data)
       = (Raise (HTTPException 400 missing_field_detail), []))
  /\
  (val_truthy (dict_get (lit "url") request_data) = true /\
   is_str (dict_get (lit "url") request_data) = false
   <-> fst (exec (download_instagram_content_post net request_data))
       = Raise (AttributeError (lit "strip")))
  /\
  (handled (fst (exec (download_instagram_content_post net request_data)))
   <-> ~ (val_truthy (dict_get (lit "url") request_data) = true /\
          is_str (dict_get (lit "url") request_data) = false))
  /\
  In (http_status (fst (exec (download_instagram_content_post net request_data))))
    service_codes.
Proof.
  destruct (post_cases net request_data)
    as [[Hf E] | [(Ht & Hs & E) | (url & Hu & Ht & E)]].
  - rewrite E, Hf. cbn [fst handled http_status].
    split; [|split; [|split]].
    + tauto.
    + split; [intros [H _]; discriminate H | discriminate].
    + split; [intros _ [H _]; discriminate H | intros _; exact I].
    + apply in_service_codes. reflexivity.
  - rewrite E, Ht, Hs. cbn [fst handled http_status].
    split; [|split; [|split]].
    + split; discriminate.
    + tauto.
    + split; [intros [] | intros H; apply H; auto].
    + apply in_service_codes. reflexivity.
  - rewrite E, Hu. cbn [val_truthy is_str]. rewrite Ht.
    destruct (get_outcome_handled net url _
                (MoreFacts.download_get_outcome net url)) as (H1 & H2 & H3).
    split; [|split; [|split]].
    + split; [discriminate|]. intros H. exfalso. apply H3. rewrite H.
      reflexivity.
    + split; [intros [_ H]; discriminate H|].
      intros H. rewrite H in H1. destruct H1.
    + split; [intros _ [_ H]; discriminate H | intros _; exact H1].
    + exact H2.
Qed.

Lemma get_trace_cases (net : network) (url : str) :
  (exists enc,
     validated url /\ Urllib.quote url [] = Ok enc /\
     snd (exec (download_instagram_content net url)) = [request_for enc])
  \/
  ((~ validated url \/ exists e, Urllib.quote url [] = Raise e) /\
   snd (exec (download_instagram_content net url)) = []).
Proof.
  destruct (MoreFacts.download_get_outcome net url)
    as [d Hv Hd | e Hv Hq | enc e code d Hv Hq Hn Ho | enc resp Hv Hq Hn Hs
        | enc resp r Hv Hq Hn Hs Er | enc resp e Hv Hq Hn Hs Er];
    cbn [snd]; eauto 7.
Qed.

(** X3. The GET handler sends exactly one request when the input passes
    validation and can be encoded, and none otherwise; the POST handler
    sends at most one request, and only one that the GET handler sends
    for the string found in the body. *)
Theorem one_request_at_most (net : network) :
  (forall url,
     (exists enc,
        validated url /\ Urllib.quote url [] = Ok enc /\
        snd (exec (download_instagram_content net url)) = [request_for enc])
     \/
     ((~ validated url \/ exists e, Urllib.quote url [] = Raise e) /\
      snd (exec (download_instagram_content net url)) = []))
  /\
  (forall request_data,
     (length (snd (exec (download_instagram_content_post net request_data)))
      <= 1)%nat /\
     forall req,
       In req (snd (exec (download_instagram_content_post net request_data))) ->
       exists url,
         dict_get (lit "url") request_data = VStr url /\
         In req (snd (exec (download_instagram_content net url)))).
Proof.
  pose proof (get_trace_cases net) as Hget.
  split; [exact Hget|].
  intros d.
  destruct (post_cases net d) as [[_ E] | [(_ & _ & E) | (url & Hu & _ & E)]];
    rewrite E; cbn [snd length In].
  - split; [lia | tauto].
  - split; [lia | tauto].
  - split.
    + destruct (Hget url) as [(enc & _ & _ & ->) | [_ ->]]; simpl; lia.
    + intros req Hin. exists url. auto.
Qed.

(** X4. The URL of a request that the GET handler sends is the fixed
    prefix followed by the percent-encoding of the input: unreserved
    characters and escapes [%XX] with upper-case digits, so that no
    character of the input can act as a delimiter of the upstream URL. *)
Theorem request_url_is_percent_encoded (net : network) (url : str)
    (req : Request) :
  code_points url ->
  In req (snd (exec (download_instagram_content net url))) ->
  exists enc,
    Urllib.quote url [] = Ok enc /\
    req_url req = target_prefix ++ enc /\
    percent_encoded enc /\
    forall c, In c (lit "&=#?/:+ ") -> ~ In c enc.
Proof.
  intros Hcp Hin.
  destruct (get_trace_cases net url) as [(enc & _ & Hq & Ht) | [_ Ht]];
    rewrite Ht in Hin; [|destruct Hin].
  destruct Hin as [<- | []].
  exists enc. split; [exact Hq|]. split; [reflexivity|].
  destruct (QuoteFacts.quote_ok_inv _ _ Hq) as [-> _].
  pose proof (QuoteFacts.quote_bytes_encoded _ (QuoteFacts.utf8_bytes _ Hcp))
    as Hpe.
  split; [exact Hpe|].
  intros c Hc Hen.
  apply QuoteFacts.percent_encoded_chars in Hpe.
  rewrite Forall_forall in Hpe. specialize (Hpe c Hen).
  cbn in Hc.
  repeat (destruct Hc as [<- | Hc];
          [destruct Hpe as [Hpe | Hpe]; vm_compute in Hpe; discriminate Hpe|]).
  destruct Hc.
Qed.

Lemma request_url_is_percent_encoded_witness :
  exists enc,
    Urllib.quote sample_reel_url [] = Ok enc /\
    req_url (request_for (lit "https%3A%2F%2Fwww.instagram.com%2Freel%2Fabc%2F"))
    = target_prefix ++ enc /\
    percent_encoded enc /\
    forall c, In c (lit "&=#?/:+ ") -> ~ In c enc.
Proof.
  apply (request_url_is_percent_encoded sample_timeout sample_reel_url).
  - apply code_points_check. vm_compute. reflexivity.
  - vm_compute. left. reflexivity.
Defined.

(** X5. A URL made of unreserved characters only (letters, digits and
    [_.-~]) is encoded as itself. *)
Theorem unreserved_url_is_unchanged (url : str) :
  Forall (fun c => Urllib.always_safe c = true) url ->
  Urllib.quote url [] = Ok url.
Proof.
  intros H. unfold Urllib.quote. destruct url as [|c0 url0]; [reflexivity|].
  set (url := c0 :: url0) in *. clearbody url. clear c0 url0.
  assert (Hs : well_formed url).
  { eapply Forall_impl; [|exact H]. intros c Hc. unfold Urllib.always_safe in Hc.
    unfold Urllib.is_surrogate.
    destruct (N.leb_spec 55296 c); [|reflexivity].
    exfalso. revert Hc.
    repeat match goal with
    | |- context [(?a <=? c)%N] =>
        replace (a <=? c)%N with true by (symmetry; apply N.leb_le; lia)
    | |- context [(c <=? ?a)%N] =>
        replace (c <=? a)%N with false by (symmetry; apply N.leb_gt; lia)
    | |- context [(c =? ?a)%N] =>
        replace (c =? a)%N with false by (symmetry; apply N.eqb_neq; lia)
    end. discriminate. }
  unfold Urllib.encode_utf8.
  rewrite (UrllibFacts.first_surrogates_none _ Hs). unfold rmap, rbind.
  f_equal. induction H as [|c s Hc _ IH]; [reflexivity|].
  assert (Hlt : (c <? 128)%N = true).
  { apply N.ltb_lt. unfold Urllib.always_safe in Hc.
    destruct (N.ltb_spec c 128); [assumption|]. exfalso. revert Hc.
    repeat match goal with
    | |- context [(?a <=? c)%N] =>
        replace (a <=? c)%N with true by (symmetry; apply N.leb_le; lia)
    | |- context [(c <=? ?a)%N] =>
        replace (c <=? a)%N with false by (symmetry; apply N.leb_gt; lia)
    | |- context [(c =? ?a)%N] =>
        replace (c =? a)%N with false by (symmetry; apply N.eqb_neq; lia)
    end. discriminate. }
  cbn [flat_map]. unfold Urllib.utf8_char at 1. rewrite Hlt. cbn [app flat_map].
  rewrite (QuoteFacts.quote_byte_plain c Hc). cbn [app].
  f_equal. apply IH. inversion Hs. assumption.
Qed.

Lemma unreserved_url_is_unchanged_witness :
  Urllib.quote (lit "instagram.com") [] = Ok (lit "instagram.com").
Proof.
  apply unreserved_url_is_unchanged.
  apply Forall_forall. intros c Hc.
  assert (H : forallb Urllib.always_safe (lit "instagram.com") = true)
    by (vm_compute; reflexivity).
  rewrite forallb_forall in H. exact (H c Hc).
Defined.

Lemma str_differ (a b : str) : str_eqb a b = false -> a <> b.
Proof.
  intros H E. apply PyStrFacts.str_eqb_eq in E. congruence.
Qed.

(** X6. Two different inputs never lead to the same request: the
    encoding loses nothing. *)
Theorem different_urls_different_requests (u1 u2 e1 e2 : str) :
  code_points u1 -> code_points u2 ->
  Urllib.quote u1 [] = Ok e1 -> Urllib.quote u2 [] = Ok e2 ->
  u1 <> u2 -> request_for e1 <> request_for e2.
Proof.
  intros H1 H2 Q1 Q2 Hne E. apply Hne.
  apply (f_equal req_url) in E. cbn [request_for req_url] in E.
  apply app_inv_head in E. subst e2.
  destruct (QuoteFacts.quote_ok_inv _ _ Q1) as [E1 _].
  destruct (QuoteFacts.quote_ok_inv _ _ Q2) as [E2 _].
  rewrite E1 in E2.
  apply QuoteFacts.quote_bytes_inj in E2;
    [|apply QuoteFacts.utf8_bytes; assumption
     |apply QuoteFacts.utf8_bytes; assumption].
  apply QuoteFacts.utf8_inj in E2; assumption.
Qed.

Lemma different_urls_different_requests_witness :
  request_for (lit "instagram.com%2Fa%20b")
  <> request_for (lit "instagram.com%2Fa%2520b").
Proof.
  apply (different_urls_different_requests
           (lit "instagram.com/a b") (lit "instagram.com/a%20b")).
  - apply code_points_check. vm_compute. reflexivity.
  - apply code_points_check. vm_compute. reflexivity.
  - vm_compute. reflexivity.
  - vm_compute. reflexivity.
  - apply str_differ. vm_compute. reflexivity.
Defined.

(** X7. An answer that the GET handler returns tells whether the
    upstream body had an anchor with an [.mp4] link: the input was
    validated, its one request was answered with a status outside 400 to
    599, and either the status is 200, the body has such an anchor and
    [original_url] is the input, or the answer is the 404 one and the
    body has no such anchor. *)
Theorem returned_answer_tells_video_anchor (net : network) (url : str)
    (r : JSONResponse) (t : trace) :
  exec (download_instagram_content net url) = (Ok r, t) ->
  exists enc resp,
    validated url /\
    Urllib.quote url [] = Ok enc /\
    net (request_for enc) = Ok resp /\
    ~ (400 <= status_code resp < 600)%N /\
    t = [request_for enc] /\
    ((resp_status r = 200%N /\ occurs mp4_anchor (text resp) /\
      data_field (lit "original_url") r = Some (JString url))
     \/
     (r = not_found_response /\ ~ occurs mp4_anchor (text resp))).
Proof.
  intros E. pose proof (MoreFacts.download_get_outcome net url) as H.
  rewrite E in H.
  inversion H as [| | | | enc resp r' Hv Hq Hn Hs Er Hr |]; subst.
  exists enc, resp. repeat (split; [assumption || reflexivity|]).
  destruct (ApiFacts.extract_and_answer_status _ _ _ Er) as [[H1 H2] | [H1 H2]].
  - left. split; [exact H1|]. split; [exact H2|].
    destruct (ApiFacts.extract_and_answer_inv _ _ _ Er) as (v & t & _ & _ & ->).
    destruct (truthy v); [reflexivity | discriminate H1].
  - right. auto.
Qed.

Lemma returned_answer_tells_video_anchor_witness :
  exists enc resp,
    validated sample_reel_url /\
    Urllib.quote sample_reel_url [] = Ok enc /\
    sample_upstream 200 (lit "<html></html>") (request_for enc) = Ok resp /\
    ~ (400 <= status_code resp < 600)%N /\
    [request_for (lit "https%3A%2F%2Fwww.instagram.com%2Freel%2Fabc%2F")]
    = [request_for enc] /\
    ((resp_status not_found_response = 200%N /\
      occurs mp4_anchor (text resp) /\
      data_field (lit "original_url") not_found_response
      = Some (JString sample_reel_url))
     \/
     (not_found_response = not_found_response /\
      ~ occurs mp4_anchor (text resp))).
Proof.
  apply (returned_answer_tells_video_anchor
           (sample_upstream 200 (lit "<html></html>")) sample_reel_url).
  vm_compute. reflexivity.
Defined.

(** X8. Each field needs its markers in the body: a non-empty
    [video_url] needs [<a], [href=] with a double quote, [.mp4] and a
    closing [>]; a non-empty [thumbnail_url] needs [.jpg], a double quote
    and a closing [>]; a [thumbnail_base64] needs [<img] and [src=] with a
    double quote and [data:image/jpg;base64,]. *)
Theorem fields_need_their_markers (text : str) :
  (forall v,
     extract_video_url text = Ok v -> v <> [] ->
     substring (lit "<a") text /\
     substring (lit "href=" ++ [dquote]) text /\
     substring (lit ".mp4") text /\ In gt_sign text)
  /\
  (forall t,
     extract_thumb_url text = Ok t -> t <> [] ->
     substring (lit ".jpg") text /\ In dquote text /\ In gt_sign text /\
     (substring (lit "href=" ++ [dquote]) text \/
      substring (lit "src=" ++ [dquote]) text))
  /\
  (forall payload,
     extract_thumb_base64 text = Some payload ->
     substring (lit "<img") text /\
     substring (lit "src=" ++ [dquote] ++ lit "data:image/jpg;base64,") text).
Proof.
  assert (Hq : forall attr, substring (attr ++ [dquote]) text -> In dquote text).
  { intros attr (pre & post & ->). apply in_or_app. right.
    apply in_or_app. left. apply in_or_app. right. left. reflexivity. }
  split; [|split].
  - intros v Ev Hne.
    destruct (MoreFacts.occurs_mp4_or_not text) as [Ho | Ho].
    + exact (MoreFacts.occurs_link_substrings _ _ _ _ Ho).
    + rewrite (ApiFacts.extract_video_url_absent _ Ho) in Ev.
      injection Ev as <-. congruence.
  - intros t Et Hne.
    destruct (MoreFacts.occurs_jpg_anchor_or_not text) as [Ha | Ha].
    + destruct (MoreFacts.occurs_link_substrings _ _ _ _ Ha)
        as (_ & H2 & H3 & H4). eauto 6.
    + destruct (MoreFacts.occurs_jpg_image_or_not text) as [Hi | Hi].
      * destruct (MoreFacts.occurs_link_substrings _ _ _ _ Hi)
          as (_ & H2 & H3 & H4). eauto 6.
      * rewrite (ApiFacts.extract_thumb_url_absent _ Ha Hi) in Et.
        injection Et as <-. congruence.
  - intros payload Ep.
    destruct (MoreFacts.occurs_base64_or_not text) as [Ho | Ho].
    + exact (MoreFacts.occurs_base64_substrings _ Ho).
    + destruct (ApiFacts.extract_thumb_base64_absent _ Ho) as [E _].
      congruence.
Qed.

Lemma fields_need_their_markers_witness :
  substring (lit "<a") example_video_anchor /\
  substring (lit "href=" ++ [dquote]) example_video_anchor /\
  substring (lit ".mp4") example_video_anchor /\
  In gt_sign example_video_anchor.
Proof.
  apply (proj1 (fields_need_their_markers example_video_anchor)
           example_video_url).
  - vm_compute. reflexivity.
  - apply str_differ. vm_compute. reflexivity.
Defined.

(** X9. Unescaping leaves the text before the first ampersand as it
    is: the scheme, host and path of a link are never rewritten, and a
    link without ampersand is returned unchanged. *)
Theorem unescape_keeps_text_before_ampersand (a b : str) :
  free_of Html.amp a ->
  Html.unescape (a ++ b) = rmap (app a) (Html.unescape b) /\
  Html.unescape a = Ok a.
Proof.
  intros Ha. split; [|exact (MoreFacts.unescape_without_amp a Ha)].
  unfold Html.unescape.
  destruct (contains [Html.amp] b) eqn:Eb.
  - assert (E : contains [Html.amp] (a ++ b) = true).
    { apply MoreFacts.contains_amp. apply in_or_app. right.
      apply MoreFacts.contains_amp. exact Eb. }
    rewrite E. cbn [negb]. apply MoreFacts.sub_charref_copy. exact Ha.
  - assert (Hb : free_of Html.amp b).
    { intros H. apply MoreFacts.contains_amp in H. congruence. }
    assert (E : contains [Html.amp] (a ++ b) = false).
    { destruct (contains [Html.amp] (a ++ b)) eqn:E; [|reflexivity].
      apply MoreFacts.contains_amp in E. apply in_app_or in E as [E | E];
        contradiction. }
    rewrite E. reflexivity.
Qed.

Lemma unescape_keeps_text_before_ampersand_witness :
  Html.unescape (example_video_url ++ lit "&amp;t=1")
  = rmap (app example_video_url) (Html.unescape (lit "&amp;t=1")) /\
  Html.unescape example_video_url = Ok example_video_url.
Proof.
  apply unescape_keeps_text_before_ampersand.
  intros H. apply MoreFacts.contains_amp in H. vm_compute in H.
  discriminate H.
Defined.

(** X10. When the upstream body is made of Unicode scalar values, so
    are [video_url], [thumbnail_url] and [thumbnail_base64]: unescaping
    never brings in a lone surrogate or a value above U+10FFFF, so the
    answer can always be written as UTF-8. *)
Theorem extracted_text_is_unicode (text : str) :
  unicode_text text ->
  (forall v, extract_video_url text = Ok v -> unicode_text v) /\
  (forall t, extract_thumb_url text = Ok t -> unicode_text t) /\
  (forall payload,
     extract_thumb_base64 text = Some payload -> unicode_text payload).
Proof.
  intros Ht. split; [|split].
  - intros v Ev.
    destruct (MoreFacts.occurs_mp4_or_not text) as [Ho | Ho].
    + destruct (ApiFacts.extract_video_url_found _ Ho)
        as (pre & w & post & href & Hf & Hu & _).
      rewrite Hu in Ev.
      apply (HtmlFacts.unescape_scalar href); [|exact Ev].
      exact (MoreFacts.link_value_in_text _ _ _ _ _ _ _ _ _ Hf Ht).
    + rewrite (ApiFacts.extract_video_url_absent _ Ho) in Ev.
      injection Ev as <-. constructor.
  - intros t Et.
    destruct (MoreFacts.occurs_jpg_anchor_or_not text) as [Ha | Ha].
    + destruct (ApiFacts.extract_thumb_url_anchor _ Ha)
        as (pre & w & post & href & Hf & Hu & _).
      rewrite Hu in Et.
      apply (HtmlFacts.unescape_scalar href); [|exact Et].
      exact (MoreFacts.link_value_in_text _ _ _ _ _ _ _ _ _ Hf Ht).
    + destruct (MoreFacts.occurs_jpg_image_or_not text) as [Hi | Hi].
      * destruct (ApiFacts.extract_thumb_url_image _ Ha Hi)
          as (pre & w & post & src & Hf & Hu & _).
        rewrite Hu in Et.
        apply (HtmlFacts.unescape_scalar src); [|exact Et].
        exact (MoreFacts.link_value_in_text _ _ _ _ _ _ _ _ _ Hf Ht).
      * rewrite (ApiFacts.extract_thumb_url_absent _ Ha Hi) in Et.
        injection Et as <-. constructor.
  - intros payload Ep.
    destruct (MoreFacts.occurs_base64_or_not text) as [Ho | Ho].
    + destruct (ApiFacts.extract_thumb_base64_found _ Ho)
        as (pre & w & post & p & (-> & (t1 & -> & _) & _) & Ep' & _).
      rewrite Ep in Ep'. injection Ep' as <-.
      unfold unicode_text in Ht.
      repeat match goal with
      | H : Forall _ (_ ++ _) |- _ => apply Forall_app in H; destruct H
      end.
      assumption.
    + destruct (ApiFacts.extract_thumb_base64_absent _ Ho) as [E _].
      congruence.
Qed.

Lemma extracted_text_is_unicode_witness :
  unicode_text (example_video_url ++ lit "&t=1").
Proof.
  apply (proj1 (extracted_text_is_unicode example_escaped_anchor
                  ltac:(apply HtmlFacts.unicode_text_forallb;
                        vm_compute; reflexivity))).
  vm_compute. reflexivity.
Defined.

(** X11. The answer of the GET handler depends on the upstream only
    through the reply to its one request: two upstreams that reply alike
    to that request get the same outcome. *)
Theorem answer_depends_on_one_reply (net1 net2 : network) (url : str) :
  (forall enc,
     Urllib.quote url [] = Ok enc ->
     net1 (request_for enc) = net2 (request_for enc)) ->
  exec (download_instagram_content net1 url)
  = exec (download_instagram_content net2 url).
Proof.
  intros H. unfold download_instagram_content.
  destruct (negb (truthy url) || str_eqb (strip url) []); [reflexivity|].
  destruct (negb (contains (lit "instagram.com") url
                  || contains (lit "instagr.am") url)); [reflexivity|].
  rewrite !ApiFacts.exec_try_except. f_equal.
  unfold exec, fetch_and_extract, bind, lift, requests_get.
  destruct (Urllib.quote url []) as [enc|e]; [|reflexivity].
  cbv beta iota.
  change (mkRequest (target_prefix ++ enc) request_headers true 25)
    with (request_for enc).
  rewrite (H enc eq_refl). reflexivity.
Qed.

Lemma answer_depends_on_one_reply_witness :
  exec (download_instagram_content
          (sample_upstream 200 example_video_anchor) sample_reel_url)
  = exec (download_instagram_content
            (fun req =>
               if str_eqb (req_url req)
                    (target_prefix
                       ++ lit "https%3A%2F%2Fwww.instagram.com%2Freel%2Fabc%2F")
               then Ok (mkResponse 200 example_video_anchor)
               else Raise (RequestsTimeout []))
            sample_reel_url).
Proof.
  apply answer_depends_on_one_reply.
  intros enc H. vm_compute in H. injection H as <-. vm_compute. reflexivity.
Defined.



(** *** Text before the first tag *)

Lemma search_video_skips (pre text : str) :
  free_of lt_sign pre ->
  search video_pattern (pre ++ text) = search video_pattern text.
Proof.
  change video_pattern with
    (Cat (Lit (lt_sign :: lit "a")) (seq (tl (
      [Lit (lit "<a"); Rep not_gt 1 None; Lit (lit "href=" ++ [dquote]);
       Group (seq [Rep not_quote 1 None; Lit (lit ".mp4"); Rep not_quote 0 None]);
       Lit [dquote]; Rep not_gt 0 None; Lit (lit ">")])))).
  apply search_skips.
Qed.

Lemma search_thumb_skips (pre text : str) :
  free_of lt_sign pre ->
  search thumb_pattern (pre ++ text) = search thumb_pattern text.
Proof.
  change thumb_pattern with
    (Cat (Lit (lt_sign :: lit "a")) (seq (tl (
      [Lit (lit "<a"); Rep not_gt 1 None; Lit (lit "href=" ++ [dquote]);
       Group (seq [Rep not_quote 1 None; Lit (lit ".jpg"); Rep not_quote 0 None]);
       Lit [dquote]; Rep not_gt 0 None; Lit (lit ">")])))).
  apply search_skips.
Qed.

Lemma search_alt_thumb_skips (pre text : str) :
  free_of lt_sign pre ->
  search alt_thumb_pattern (pre ++ text) = search alt_thumb_pattern text.
Proof.
  change alt_thumb_pattern with
    (Cat (Lit (lt_sign :: lit "img")) (seq (tl (
      [Lit (lit "<img"); Rep not_gt 1 None; Lit (lit "src=" ++ [dquote]);
       Group (seq [Rep not_quote 1 None; Lit (lit ".jpg"); Rep not_quote 0 None]);
       Lit [dquote]; Rep not_gt 0 None; Lit (lit ">")])))).
  apply search_skips.
Qed.

Lemma search_base64_skips (pre text : str) :
  free_of lt_sign pre ->
  search thumb_base64_pattern (pre ++ text) = search thumb_base64_pattern text.
Proof.
  change thumb_base64_pattern with
    (Cat (Lit (lt_sign :: lit "img")) (seq (tl (
      [Lit (lit "<img"); Rep not_gt 1 None;
       Lit (lit "src=" ++ [dquote] ++ lit "data:image/jpg;base64,");
       Group (Rep not_quote 1 None); Lit [dquote]])))).
  apply search_skips.
Qed.

(** X13. Text before the first [<] of the body plays no part: putting
    any text without [<] in front of a body changes none of the three
    extracted values. *)
Theorem leading_text_is_ignored (pre text : str) :
  free_of lt_sign pre ->
  extract_video_url (pre ++ text) = extract_video_url text /\
  extract_thumb_url (pre ++ text) = extract_thumb_url text /\
  extract_thumb_base64 (pre ++ text) = extract_thumb_base64 text.
Proof.
  intros H.
  unfold extract_video_url, extract_thumb_url, extract_thumb_base64.
  rewrite (search_video_skips pre text H), (search_thumb_skips pre text H),
    (search_alt_thumb_skips pre text H), (search_base64_skips pre text H).
  auto.
Qed.

Lemma leading_text_is_ignored_witness :
  extract_video_url (lit "  plain text " ++ example_video_anchor)
  = extract_video_url example_video_anchor /\
  extract_thumb_url (lit "  plain text " ++ example_video_anchor)
  = extract_thumb_url example_video_anchor /\
  extract_thumb_base64 (lit "  plain text " ++ example_video_anchor)
  = extract_thumb_base64 example_video_anchor.
Proof.
  apply leading_text_is_ignored.
  intros H. vm_compute in H. repeat (destruct H as [H | H]; [discriminate H|]).
  destruct H.
Defined.

(** *** Lone surrogates *)

Lemma well_formed_check (s : str) :
  forallb (fun c => negb (Urllib.is_surrogate c)) s = false -> ~ well_formed s.
Proof.
  intros H Hw.
  assert (E : forallb (fun c => negb (Urllib.is_surrogate c)) s = true).
  { apply forallb_forall. intros c Hc. unfold well_formed in Hw.
    rewrite Forall_forall in Hw. rewrite (Hw c Hc). reflexivity. }
  congruence.
Qed.

(** X14. Encoding fails exactly on an input with a lone surrogate.  For
    such an input, when it passes validation, the GET handler sends no
    request and answers 500 with the detail for unexpected errors, built
    from the [UnicodeEncodeError] that points at the first surrogate. *)
Theorem lone_surrogate_gives_500 (net : network) (url : str) :
  ((exists e, Urllib.quote url [] = Raise e) <-> ~ well_formed url)
  /\
  (validated url -> ~ well_formed url ->
   exists start stop,
     exec (download_instagram_content net url)
     = (Raise (HTTPException 500
                 (Fmt (lit "An unexpected error occurred: ")
                    (UnicodeEncodeError url start stop))),
        []) /\
     Urllib.is_surrogate (nth start url 0%N) = true /\
     well_formed (firstn start url)).
Proof.
  assert (Hcases : (well_formed url /\ exists enc, Urllib.quote url [] = Ok enc)
                   \/ (~ well_formed url /\
                       exists start stop,
                         Urllib.quote url [] = Raise (UnicodeEncodeError url start stop) /\
                         Urllib.is_surrogate (nth start url 0%N) = true /\
                         well_formed (firstn start url))).
  { destruct (UrllibFacts.first_surrogates_cases url 0) as [[Hw E] | (a & b & E & Ha & Hw)].
    - left. split; [exact Hw | exact (UrllibFacts.quote_total url Hw)].
    - right. split.
      + intros H. rewrite (UrllibFacts.first_surrogates_none url H 0) in E.
        discriminate.
      + exists a, b. split; [|split; assumption].
        unfold Urllib.quote, Urllib.encode_utf8.
        destruct url as [|c url]; [destruct a; discriminate Ha|].
        rewrite E. reflexivity. }
  split.
  - destruct Hcases as [[Hw (enc & E)] | [Hw (a & b & E & _)]].
    + split; [intros (e & He); congruence | tauto].
    + split; [tauto | eauto].
  - intros Hv Hnw.
    destruct Hcases as [[Hw _] | [_ (a & b & E & Ha & Hw)]]; [contradiction|].
    exists a, b. split; [|split; assumption].
    rewrite (ApiFacts.download_validated net url Hv), ApiFacts.exec_try_except.
    rewrite (ApiFacts.fetch_quote_raises net url _ E). reflexivity.
Qed.

Lemma lone_surrogate_gives_500_witness :
  exists start stop,
    exec (download_instagram_content sample_timeout
            (lit "instagram.com/" ++ [55296%N]))
    = (Raise (HTTPException 500
                (Fmt (lit "An unexpected error occurred: ")
                   (UnicodeEncodeError (lit "instagram.com/" ++ [55296%N])
                      start stop))),
       []) /\
    Urllib.is_surrogate (nth start (lit "instagram.com/" ++ [55296%N]) 0%N)
    = true /\
    well_formed (firstn start (lit "instagram.com/" ++ [55296%N])).
Proof.
  apply (proj2 (lone_surrogate_gives_500 sample_timeout
                  (lit "instagram.com/" ++ [55296%N]))).
  - apply ApiFacts.passes_validation_spec. vm_compute. reflexivity.
  - apply well_formed_check. vm_compute. reflexivity.
Defined.

(** *** After the upstream answered *)

(** X15. When the one request is answered with a status outside 400 to
    599 and a body free of lone surrogates and of runs of more than 4300
    digits, the GET handler returns an answer and never a 500: the answer
    of status 200 when the body has an anchor with an [.mp4] link, the
    404 answer when it has none. *)
Theorem plain_body_is_answered (net : network) (url enc : str)
    (resp : Response) :
  validated url ->
  Urllib.quote url [] = Ok enc ->
  net (request_for enc) = Ok resp ->
  ~ (400 <= status_code resp < 600)%N ->
  well_formed (text resp) -> short_numbers (text resp) ->
  exists r,
    exec (download_instagram_content net url) = (Ok r, [request_for enc]) /\
    ((resp_status r = 200%N /\ occurs mp4_anchor (text resp)) \/
     (r = not_found_response /\ ~ occurs mp4_anchor (text resp))).
Proof.
  intros Hv Hq Hn Hs Hw Hsh.
  destruct (ApiFacts.raise_for_status_cases resp) as [[Hr _] | [_ Hr]];
    [contradiction|].
  rewrite (ApiFacts.download_parses net url enc resp Hv Hq Hn Hr).
  destruct (ApiFacts.extract_and_answer_returns (text resp) url Hw Hsh
              (UrllibFacts.quote_ok_well_formed _ _ Hq)) as [r Er].
  exists r. rewrite Er. split; [reflexivity|].
  exact (ApiFacts.extract_and_answer_status _ _ _ Er).
Qed.

Lemma plain_body_is_answered_witness :
  exists r,
    exec (download_instagram_content
            (sample_upstream 302 example_video_anchor) sample_reel_url)
    = (Ok r, [request_for (lit "https%3A%2F%2Fwww.instagram.com%2Freel%2Fabc%2F")]) /\
    ((resp_status r = 200%N /\ occurs mp4_anchor example_video_anchor) \/
     (r = not_found_response /\ ~ occurs mp4_anchor example_video_anchor)).
Proof.
  apply (plain_body_is_answered
           (sample_upstream 302 example_video_anchor) sample_reel_url
           (lit "https%3A%2F%2Fwww.instagram.com%2Freel%2Fabc%2F")
           (mkResponse 302 example_video_anchor)).
  - apply ApiFacts.passes_validation_spec. vm_compute. reflexivity.
  - vm_compute. reflexivity.
  - reflexivity.
  - simpl. lia.
  - apply JsonFacts.well_formed_forallb. vm_compute. reflexivity.
  - apply HtmlFacts.short_numbers_short. vm_compute. lia.
Defined.


